(** * Game of Life, OpenMP and CUDA variants: a shallow embedding

    The two programs embedded here are [gol-openmp.cpp] and [gol-cuda.cu].
    Both hold the board in flat vectors, count the eight toroidal
    neighbours of every cell and apply the B3/S23 ruleset into a second
    buffer, which is then swapped with the first.

    Conventions of the embedding:
    - an [unsigned] is a [Z] in [0, 2^32), every operation written with
      its reduction modulo [2^32]; a [uint8_t] is a [Z] in [0, 2^8);
      an [int] is a [Z] in [-2^31, 2^31), with two's complement
      wrap-around (what the device does; C++ leaves it undefined);
    - a [std::vector] or a device array is a [list Z]; an access outside
      the buffer is undefined behaviour in the source and [None] here;
    - the body of a loop is a state transformer in the [option] monad. *)

From Stdlib Require Import ZArith Lia String Ascii DecimalString.
From stdpp Require Import base option list numbers list_numbers gmap.

Local Open Scope Z_scope.

(** ** Machine integers *)

Module MachineInt.

Definition INT_MAX : Z := 2 ^ 31 - 1.

(** conversion to [unsigned] (also the result of unsigned arithmetic) *)
Definition u32 (z : Z) : Z := z mod 2 ^ 32.

(** conversion to [uint8_t] *)
Definition u8 (z : Z) : Z := z mod 2 ^ 8.

(** conversion to [int], two's complement *)
Definition i32 (z : Z) : Z := (z + 2 ^ 31) mod 2 ^ 32 - 2 ^ 31.

Definition uadd (a b : Z) : Z := u32 (a + b).
Definition usub (a b : Z) : Z := u32 (a - b).
Definition umul (a b : Z) : Z := u32 (a * b).
Definition umod (a b : Z) : Z := a mod b.

Definition iadd (a b : Z) : Z := i32 (a + b).
Definition isub (a b : Z) : Z := i32 (a - b).
Definition imul (a b : Z) : Z := i32 (a * b).
(** [/] and [%] on [int] truncate towards zero *)
Definition idiv (a b : Z) : Z := Z.quot a b.
Definition irem (a b : Z) : Z := Z.rem a b.

End MachineInt.

Import MachineInt.

(** ** Buffers *)

(** [v[i]] as an rvalue: [None] outside the buffer *)
Definition rd (v : list Z) (i : Z) : option Z :=
  if (0 <=? i) && (i <? Z.of_nat (length v)) then v !! Z.to_nat i else None.

(** [v[i] = a]: [None] outside the buffer *)
Definition wr (v : list Z) (i : Z) (a : Z) : option (list Z) :=
  if (0 <=? i) && (i <? Z.of_nat (length v)) then Some (<[Z.to_nat i := a]> v)
  else None.

(** Sum of the values read at the given indices, in unbounded
    arithmetic; the caller converts it to the type of the sum. *)
Fixpoint sum_reads (v : list Z) (ixs : list Z) : option Z :=
  match ixs with
  | [] => Some 0
  | i :: ixs' => match rd v i, sum_reads v ixs' with
                | Some a, Some s => Some (a + s)
                | _, _ => None
                end
  end.

(** [for (i = 0; i < n; i++) body], the loop variable running over a list *)
Fixpoint for_each {S : Type} (body : Z → S → option S) (l : list Z) (s : S)
  : option S :=
  match l with
  | [] => Some s
  | i :: l' => match body i s with
               | Some s' => for_each body l' s'
               | None => None
               end
  end.

(** [n] rounds of a fallible transformer *)
Fixpoint repeat_n {S : Type} (n : nat) (f : S → option S) (s : S) : option S :=
  match n with
  | O => Some s
  | Datatypes.S n' => match f s with
                      | Some s' => repeat_n n' f s'
                      | None => None
                      end
  end.

(** [out << (unsigned) c]: the decimal digits of [c] *)
Definition print_unsigned (c : Z) : string :=
  NilZero.string_of_uint (N.to_uint (Z.to_N (u32 c))).

(** [std::string(n, c)]: [n] copies of the character [c] *)
Definition fill_string (n : Z) (c : ascii) : string :=
  string_of_list_ascii (replicate (Z.to_nat n) c).

(** [std::endl] *)
Definition endl : string := String (ascii_of_nat 10) EmptyString.

(** ** Process outcomes *)

(** What [main] writes to standard output: literal text, and measured
    durations, whose value is not part of the model. *)
Inductive OutItem : Type :=
  | Text (s : string)
  | Microseconds.

Inductive Outcome : Type :=
  | Exit (status : Z) (stdout : list OutItem) (file : option string)
  | Terminate      (* an exception of [std::stoi] leaves [main] *)
  | Undefined.     (* an access outside a buffer *)

Definition usage : list OutItem :=
  [Text "Usage: ./gol-cuda <height> <width> <turns>"; Text endl].

Definition timings : list OutItem :=
  [Text "Model run time: "; Microseconds; Text " us"; Text endl;
   Text "Total time: "; Microseconds; Text " us"; Text endl].

(** ** gol-openmp.cpp *)

Module OpenMP.

Record Life : Type := mkLife {
  height : Z;            (* unsigned *)
  width : Z;             (* unsigned *)
  cells : list Z;        (* std::vector<uint8_t> *)
  nextcells : list Z     (* std::vector<uint8_t> *)
}.

Definition alive : Z := 1.
Definition dead : Z := 0.

(** [init_random]: [std::generate] stores the successive draws of the
    generator, converted to [uint8_t]; [gen k] is the [k]-th draw. *)
Definition init_random (gen : nat → Z) (cs : list Z) : list Z :=
  imap (λ k _, u8 (gen k)) cs.

(** [init_glider] (unused by the constructor) *)
Definition init_glider (L : Life) : option Life :=
  let w := width L in
  let c0 := const dead <$> cells L in
  c1 ← wr c0 (uadd 0 2) alive;
  c2 ← wr c1 (uadd 0 w) alive;
  c3 ← wr c2 (uadd (uadd 0 w) 2) alive;
  c4 ← wr c3 (uadd (uadd (uadd 0 w) w) 1) alive;
  c5 ← wr c4 (uadd (uadd (uadd 0 w) w) 2) alive;
  Some (mkLife (height L) w c5 (nextcells L)).

(** The constructor: both vectors are resized to [height*width] (an
    unsigned product) and value-initialised, then [cells] is filled. *)
Definition new (gen : nat → Z) (h w : Z) : Life :=
  let n := Z.to_nat (umul h w) in
  mkLife h w (init_random gen (replicate n 0)) (replicate n 0).

(** The flat index the loop body computes for the cell it updates. *)
Definition index (L : Life) (x y : Z) : Z := uadd (umul y (height L)) x.

(** The eight indices read by the inlined neighbour count, in source
    order: top left, top, top right, left, right, bottom left, bottom,
    bottom right. *)
Definition neighbour_indices (L : Life) (x y : Z) : list Z :=
  let w := width L in
  let h := height L in
  [ uadd (umod (uadd (usub x 1) w) w) (umul (umod (uadd (usub y 1) h) h) w);
    uadd x (umul (umod (uadd (usub y 1) h) h) w);
    uadd (umod (uadd x 1) w) (umul (umod (uadd (usub y 1) h) h) w);
    uadd (umod (uadd (usub x 1) w) w) (umul y w);
    uadd (umod (uadd x 1) w) (umul y w);
    uadd (umod (uadd (usub x 1) w) w) (umul (umod (uadd y 1) h) w);
    uadd x (umul (umod (uadd y 1) h) w);
    uadd (umod (uadd x 1) w) (umul (umod (uadd y 1) h) w) ].

(** [const uint8_t neighbours = cells[..] + ... + cells[..];]: the sum
    of the promoted [uint8_t] values, converted back to [uint8_t]. *)
Definition neighbours (L : Life) (x y : Z) : option Z :=
  s ← sum_reads (cells L) (neighbour_indices L x y);
  Some (u8 s).

(** The ruleset: the value stored in [nextcells[index]]. The old cell
    is read only in the first branch. *)
Definition ruleset (cur : list Z) (idx n : Z) : option Z :=
  if n =? 2 then rd cur idx
  else if n =? 3 then Some alive
  else Some dead.

(** Body of the inner loop for the cell [(x, y)]. *)
Definition update_cell (y x : Z) (L : Life) : option Life :=
  let idx := index L x y in
  n ← neighbours L x y;
  v ← ruleset (cells L) idx n;
  nc ← wr (nextcells L) idx v;
  Some (mkLife (height L) (width L) (cells L) nc).

(** The two nested loops of one turn, before the swap. The rows of the
    [parallel for] are taken in increasing order, one of the schedules
    the threads can follow; [update_in] below runs the loop body in any
    order. *)
Definition update_row (y : Z) (L : Life) : option Life :=
  for_each (update_cell y) (seqZ 0 (width L)) L.

Definition update (L : Life) : option Life :=
  for_each update_row (seqZ 0 (height L)) L.

(** [cells.swap(nextcells)] *)
Definition swap (L : Life) : Life :=
  mkLife (height L) (width L) (nextcells L) (cells L).

(** One iteration of the loop over [t]. *)
Definition turn (L : Life) : option Life :=
  L' ← update L; Some (swap L').

Definition run (numTurns : Z) (L : Life) : option Life :=
  repeat_n (Z.to_nat numTurns) turn L.

(** [output_file]: the text written to [output-openmp.txt]. *)
Definition output_cell (L : Life) (y x : Z) (out : string) : option string :=
  c ← rd (cells L) (uadd (umul y (width L)) x);
  Some (out ++ print_unsigned c)%string.

Definition output_row (L : Life) (y : Z) (out : string) : option string :=
  out' ← for_each (output_cell L y) (seqZ 0 (width L)) out;
  Some (out' ++ endl)%string.

Definition output_file (L : Life) : option string :=
  for_each (output_row L) (seqZ 0 (height L)) EmptyString.

(** [output_print]: the text written to the console, a line of [width]
    dashes before and after the rows of the board, and an empty line. *)
Definition output_print (L : Life) : option string :=
  let rule_line := (fill_string (width L) "-" ++ endl)%string in
  out ← for_each (output_row L) (seqZ 0 (height L)) rule_line;
  Some (out ++ rule_line ++ endl)%string.

(** The iterations of the two nested loops of a turn, as the pairs
    [(y, x)], in program order. *)
Definition iterations (L : Life) : list (Z * Z) :=
  y ← seqZ 0 (height L); x ← seqZ 0 (width L); [(y, x)].

(** The loop body run over the iterations in a given order: what the
    threads of the [parallel for] can make of the nested loops. *)
Fixpoint update_in (order : list (Z * Z)) (L : Life) : option Life :=
  match order with
  | [] => Some L
  | (y, x) :: order' =>
      match update_cell y x L with
      | Some L' => update_in order' L'
      | None => None
      end
  end.

(** A run whose turns take the iterations of the nested loops in the
    given orders, one order for each turn, each followed by the swap. *)
Fixpoint run_in (orders : list (list (Z * Z))) (L : Life) : option Life :=
  match orders with
  | [] => Some L
  | order :: orders' =>
      match update_in order L with
      | Some L' => run_in orders' (swap L')
      | None => None
      end
  end.

(** [main]. [stoi] is [std::stoi], [None] when it throws; its [int]
    result is converted to [unsigned]. Falling off the end of [main]
    returns 0. *)
Definition main (stoi : string → option Z) (gen : nat → Z)
    (args : list string) : Outcome :=
  match args with
  | [_; a1; a2; a3] =>
      match stoi a1, stoi a2, stoi a3 with
      | Some h, Some w, Some t =>
          let l := new gen (u32 h) (u32 w) in
          match run (u32 t) l with
          | Some l' =>
              match output_file l' with
              | Some text => Exit 0 timings (Some text)
              | None => Undefined
              end
          | None => Undefined
          end
      | _, _, _ => Terminate
      end
  | _ => Exit 1 usage None
  end.

End OpenMP.

(** ** gol-cuda.cu *)

Module Cuda.

(** Calls of the CUDA runtime made by the host, in program order. *)
Inductive Event : Type :=
  | Malloc
  | MemcpyHostToDevice
  | KernelLaunch
  | DeviceSynchronize
  | MemcpyDeviceToHost.

Global Instance Event_eq_dec : EqDecision Event.
Proof. solve_decision. Defined.

(** A device pointer names a block of device memory; the device memory
    maps each allocated block to its content. *)
Abbreviation ptr := nat.
Abbreviation memory := (gmap nat (list Z)).

Record Life : Type := mkLife {
  height : Z;                  (* unsigned *)
  width : Z;                   (* unsigned *)
  cells : list Z;              (* std::vector<int>, host *)
  nextcells : list Z;          (* std::vector<int>, host *)
  cellsDevice : ptr;           (* int*, device *)
  nextcellsDevice : ptr;       (* int*, device *)
  device : memory;             (* the content of the device memory *)
  events : list Event          (* history of runtime calls, oldest first *)
}.

Definition alive : Z := 1.
Definition dead : Z := 0.

(** The eight indices read by the kernel for the cell [(x, y)], in
    source order, in [int] arithmetic. *)
Definition neighbour_indices (w h x y : Z) : list Z :=
  [ iadd (irem (iadd (isub x 1) w) w) (imul (irem (iadd (isub y 1) h) h) w);
    iadd x (imul (irem (iadd (isub y 1) h) h) w);
    iadd (irem (iadd x 1) w) (imul (irem (iadd (isub y 1) h) h) w);
    iadd (irem (iadd (isub x 1) w) w) (imul y w);
    iadd (irem (iadd x 1) w) (imul y w);
    iadd (irem (iadd (isub x 1) w) w) (imul (irem (iadd y 1) h) w);
    iadd x (imul (irem (iadd y 1) h) w);
    iadd (irem (iadd x 1) w) (imul (irem (iadd y 1) h) w) ].

(** [const int neighbours = current[..] + ... + current[..];] *)
Definition neighbours (w h : Z) (current : list Z) (x y : Z) : option Z :=
  s ← sum_reads current (neighbour_indices w h x y);
  Some (i32 s).

(** The ruleset: the value stored in [next[i]]. *)
Definition ruleset (current : list Z) (i n : Z) : option Z :=
  if n =? 2 then rd current i
  else if n =? 3 then Some 1
  else Some 0.

(** Body of the grid-stride loop for the flat index [i]: the reads go
    through [current], the write through [next]. *)
Definition cell_body (w h : Z) (current next : ptr) (i : Z) (mem : memory)
  : option memory :=
  let x := irem i w in
  let y := idiv i w in
  cur ← mem !! current;
  n ← neighbours w h cur x y;
  v ← ruleset cur i n;
  nx ← mem !! next;
  nx' ← wr nx i v;
  Some (<[next := nx']> mem).

(** [for (int i = index; i < n; i += stride) ...]. The loop is cut after
    [fuel] iterations; [cudaRun] gives it [n - index] of them, which a
    positive stride never uses up. *)
Fixpoint grid_stride (fuel : nat) (n w h : Z) (current next : ptr)
    (stride i : Z) (mem : memory) : option memory :=
  if i <? n then
    match fuel with
    | O => None
    | S fuel' =>
        match cell_body w h current next i mem with
        | Some mem' =>
            grid_stride fuel' n w h current next stride (iadd i stride) mem'
        | None => None
        end
    end
  else Some mem.

(** The kernel, as run by the thread [threadIdx] of block [blockIdx].
    The built-in variables are [unsigned]; [index] and [stride] are
    [int]. *)
Definition cudaRun (blockIdx blockDim threadIdx gridDim : Z)
    (n w h : Z) (current next : ptr) (mem : memory) : option memory :=
  let index := i32 (uadd (umul blockIdx blockDim) threadIdx) in
  let stride := i32 (umul blockDim gridDim) in
  grid_stride (Z.to_nat (n - index)) n w h current next stride index mem.

(** [cudaRun<<<blocks, threads>>>(n, w, h, current, next)] followed by
    [cudaDeviceSynchronize()]: every thread of every block runs the
    kernel, block by block and thread by thread. *)
Definition launch (blocks threads : Z) (n w h : Z) (current next : ptr)
    (mem : memory) : option memory :=
  for_each
    (λ b m, for_each
              (λ t m', cudaRun b threads t blocks n w h current next m')
              (seqZ 0 threads) m)
    (seqZ 0 blocks) mem.

(** [cudaMemcpy(dst, src, count * sizeof(int), kind)] on the contents *)
Definition memcpy (dst src : list Z) (count : nat) : option (list Z) :=
  if decide (count ≤ length dst ∧ count ≤ length src)%nat
  then Some (take count src ++ drop count dst)
  else None.

(** [init_random]: the successive draws of the generator, stored as
    [int]; [gen k] is the [k]-th draw. *)
Definition init_random (gen : nat → Z) (cs : list Z) : list Z :=
  imap (λ k _, gen k) cs.

(** The constructor. The calls of the CUDA runtime are taken to
    succeed, so that [checkError] returns each time, and the two blocks
    [cudaMalloc] gives are named 0 and 1; [uninit a k] is the content
    found at offset [k] of block [a], which nothing initialises. *)
Definition new (gen : nat → Z) (uninit : nat → nat → Z) (h w : Z)
  : option Life :=
  let n := Z.to_nat (umul h w) in
  let cs := init_random gen (replicate n 0) in
  let d0 := uninit 0%nat <$> seq 0 (length cs) in
  let d1 := uninit 1%nat <$> seq 0 (length cs) in
  let mem : memory := <[1%nat := d1]> (<[0%nat := d0]> ∅) in
  d ← mem !! 0%nat;
  d' ← memcpy d cs (length cs);
  Some (mkLife h w cs (replicate n 0) 0%nat 1%nat (<[0%nat := d']> mem)
               [Malloc; Malloc; MemcpyHostToDevice]).

Definition threads : Z := 256.

(** [const int blocks = (cells.size()+threads-1)/threads;], computed in
    [size_t] and converted to [int]. *)
Definition blocks (L : Life) : Z :=
  i32 ((Z.of_nat (length (cells L)) + threads - 1) / threads).

(** The kernel launch of one turn and the synchronisation after it:
    the state before the pointers are swapped. *)
Definition step (L : Life) : option Life :=
  let n := i32 (Z.of_nat (length (cells L))) in
  mem ← launch (blocks L) threads n (i32 (width L)) (i32 (height L))
               (cellsDevice L) (nextcellsDevice L) (device L);
  Some (mkLife (height L) (width L) (cells L) (nextcells L)
               (cellsDevice L) (nextcellsDevice L) mem
               (events L ++ [KernelLaunch; DeviceSynchronize])).

(** [temp = cellsDevice; cellsDevice = nextcellsDevice;
    nextcellsDevice = temp;] *)
Definition swap (L : Life) : Life :=
  mkLife (height L) (width L) (cells L) (nextcells L)
         (nextcellsDevice L) (cellsDevice L) (device L) (events L).

(** [cudaMemcpy(cells.data(), cellsDevice, ..., cudaMemcpyDeviceToHost)] *)
Definition copy_back (L : Life) : option Life :=
  d ← device L !! cellsDevice L;
  host ← memcpy (cells L) d (length (cells L));
  Some (mkLife (height L) (width L) host (nextcells L)
               (cellsDevice L) (nextcellsDevice L) (device L)
               (events L ++ [MemcpyDeviceToHost])).

(** One iteration of the loop over [t]. *)
Definition turn (L : Life) : option Life :=
  L1 ← step L; copy_back (swap L1).

Definition run (numTurns : Z) (L : Life) : option Life :=
  repeat_n (Z.to_nat numTurns) turn L.

(** [output_file]: the text written to [output-cuda.txt]. *)
Definition output_cell (L : Life) (y x : Z) (out : string) : option string :=
  c ← rd (cells L) (uadd (umul y (width L)) x);
  Some (out ++ print_unsigned c)%string.

Definition output_row (L : Life) (y : Z) (out : string) : option string :=
  out' ← for_each (output_cell L y) (seqZ 0 (width L)) out;
  Some (out' ++ endl)%string.

Definition output_file (L : Life) : option string :=
  for_each (output_row L) (seqZ 0 (height L)) EmptyString.

(** [output_print]: the text written to the console. *)
Definition output_print (L : Life) : option string :=
  let rule_line := (fill_string (width L) "-" ++ endl)%string in
  out ← for_each (output_row L) (seqZ 0 (height L)) rule_line;
  Some (out ++ rule_line ++ endl)%string.

(** [init_glider] (unused by the constructor): it fills the host
    vector. *)
Definition init_glider (L : Life) : option Life :=
  let w := width L in
  let c0 := const dead <$> cells L in
  c1 ← wr c0 (iadd 0 2) alive;
  c2 ← wr c1 (uadd 0 w) alive;
  c3 ← wr c2 (uadd (uadd 0 w) 2) alive;
  c4 ← wr c3 (uadd (uadd (uadd 0 w) w) 1) alive;
  c5 ← wr c4 (uadd (uadd (uadd 0 w) w) 2) alive;
  Some (mkLife (height L) w c5 (nextcells L) (cellsDevice L)
               (nextcellsDevice L) (device L) (events L)).

(** [main], as in the OpenMP program; the calls of the CUDA runtime are
    taken to succeed. *)
Definition main (stoi : string → option Z) (gen : nat → Z)
    (uninit : nat → nat → Z) (args : list string) : Outcome :=
  match args with
  | [_; a1; a2; a3] =>
      match stoi a1, stoi a2, stoi a3 with
      | Some h, Some w, Some t =>
          match new gen uninit (u32 h) (u32 w) with
          | Some l =>
              match run (u32 t) l with
              | Some l' =>
                  match output_file l' with
                  | Some text => Exit 0 timings (Some text)
                  | None => Undefined
                  end
              | None => Undefined
              end
          | None => Undefined
          end
      | _, _, _ => Terminate
      end
  | _ => Exit 1 usage None
  end.

End Cuda.

(** ** The default-constructed [std::mt19937]

    [init_random] binds a [std::uniform_int_distribution<int>(0,1)] to a
    default-constructed engine, so both programs fill their boards from
    the same fixed stream. The engine is the 32-bit Mersenne Twister
    with the parameters and the default seed 5489 that the C++ standard
    fixes. It is used below to run the programs on the boards they really
    start from; the general theorems take the stream as a parameter. *)

Module Mt19937.

Definition n : nat := 624.
Definition m : nat := 397.
Definition default_seed : Z := 5489.

Definition word (z : Z) : Z := Z.land z 4294967295.

(** seeding: [x_i = 1812433253 * (x_(i-1) xor (x_(i-1) >> 30)) + i] *)
Fixpoint seed_from (k : nat) (i prev : Z) : list Z :=
  match k with
  | O => []
  | S k' =>
      let x := word (1812433253 * Z.lxor prev (Z.shiftr prev 30) + i) in
      x :: seed_from k' (i + 1) x
  end.

Definition seeded : list Z :=
  default_seed :: seed_from (n - 1) 1 default_seed.

(** regeneration of the state word [k], in place *)
Definition twist_word (st : list Z) (k : nat) : list Z :=
  let y := Z.lor (Z.land (st !!! k) 2147483648)
                 (Z.land (st !!! ((k + 1) mod n)%nat) 2147483647) in
  let mag := if Z.odd y then 2567483615 else 0 in
  <[k := Z.lxor (Z.lxor (st !!! ((k + m) mod n)%nat) (Z.shiftr y 1)) mag]> st.

Definition twist (st : list Z) : list Z := foldl twist_word st (seq 0 n).

Definition temper (y0 : Z) : Z :=
  let y1 := Z.lxor y0 (Z.land (Z.shiftr y0 11) 4294967295) in
  let y2 := Z.lxor y1 (Z.land (Z.shiftl y1 7) 2636928640) in
  let y3 := Z.lxor y2 (Z.land (Z.shiftl y2 15) 4022730752) in
  Z.lxor y3 (Z.shiftr y3 18).

(** the [k]-th output of the engine, counting from 0 *)
Definition output (k : nat) : Z :=
  temper (Nat.iter (S (k / n)) twist seeded !!! (k mod n)%nat).

(** The distribution on [{0,1}] as libstdc++ computes it from one 32-bit
    output: its top bit. *)
Definition draw (k : nat) : Z := Z.shiftr (output k) 31.

(** The first draws, tabulated. *)
Definition first_draws : list Z :=
  Eval vm_compute in draw <$> seq 0 32.

(** The stream of draws used to run the programs below: the draw [k]
    of the engine, read from the table where the table has it. *)
Definition gen (k : nat) : Z :=
  match first_draws !! k with
  | Some d => d
  | None => draw k
  end.

End Mt19937.

(** ** [std::stoi] on decimal text

    [main] takes the parser as a parameter; this is the parser the
    programs are run with below. It skips leading white space, reads an
    optional sign and the longest run of decimal digits, and throws when
    there is no digit or the value is not an [int]. *)

Module Stoi.

Definition is_space (c : ascii) : bool :=
  let k := nat_of_ascii c in
  ((k =? 32) || ((9 <=? k) && (k <=? 13)))%nat.

Definition digit (c : ascii) : option Z :=
  let k := nat_of_ascii c in
  if ((48 <=? k) && (k <=? 57))%nat then Some (Z.of_nat k - 48) else None.

Fixpoint skip_space (s : string) : string :=
  match s with
  | String c s' => if is_space c then skip_space s' else s
  | EmptyString => s
  end.

Fixpoint digits (s : string) (acc : option Z) : option Z :=
  match s with
  | String c s' =>
      match digit c with
      | Some d => digits s' (Some (10 * default 0 acc + d))
      | None => acc
      end
  | EmptyString => acc
  end.

Definition in_int (z : Z) : option Z :=
  if (- 2 ^ 31 <=? z) && (z <=? INT_MAX) then Some z else None.

Definition stoi (s : string) : option Z :=
  match skip_space s with
  | String "-" s' => v ← digits s' None; in_int (- v)
  | String "+" s' => v ← digits s' None; in_int v
  | s' => v ← digits s' None; in_int v
  end.

End Stoi.

(** ** The update of the specification

    The generation step as the specification words it (sections 3, 4.1
    and 4.4), in unbounded arithmetic: the board is row-major, the
    neighbours of [(x, y)] are taken modulo the width and the height,
    and the ruleset is B3/S23. The two programs are compared with it. *)

Module Spec.

Definition bit (z : Z) : Prop := z = 0 ∨ z = 1.

(** cell [(x, y)] lives at [y*W + x] *)
Definition flat (W x y : Z) : Z := y * W + x.

Definition torus_indices (H W x y : Z) : list Z :=
  [ flat W ((x - 1 + W) mod W) ((y - 1 + H) mod H);
    flat W x ((y - 1 + H) mod H);
    flat W ((x + 1) mod W) ((y - 1 + H) mod H);
    flat W ((x - 1 + W) mod W) y;
    flat W ((x + 1) mod W) y;
    flat W ((x - 1 + W) mod W) ((y + 1) mod H);
    flat W x ((y + 1) mod H);
    flat W ((x + 1) mod W) ((y + 1) mod H) ].

Definition cell (cur : list Z) (i : Z) : Z := default 0 (cur !! Z.to_nat i).

Definition neighbor_count (H W : Z) (cur : list Z) (x y : Z) : Z :=
  foldr (λ i s, cell cur i + s) 0 (torus_indices H W x y).

(** the Neighbor Rule: [n = 2] unchanged, [n = 3] alive, otherwise dead *)
Definition rule (s n : Z) : Z :=
  if n =? 2 then s else if n =? 3 then 1 else 0.

Definition next_cell (H W : Z) (cur : list Z) (i : Z) : Z :=
  rule (cell cur i) (neighbor_count H W cur (i mod W) (i / W)).

Definition step (H W : Z) (cur : list Z) : list Z :=
  next_cell H W cur <$> seqZ 0 (H * W).

(** the character of a cell in the board file *)
Definition cell_char (c : Z) : ascii := if c =? 1 then "1" else "0".

(** the characters of row [y]: one per column, then the line end *)
Definition row_chars (W : Z) (cur : list Z) (y : Z) : list ascii :=
  ((λ x, cell_char (cell cur (flat W x y))) <$> seqZ 0 W)
  ++ [ascii_of_nat 10].

(** the board file: the rows from top to bottom *)
Definition board_text (H W : Z) (cur : list Z) : string :=
  string_of_list_ascii (seqZ 0 H ≫= row_chars W cur).

(** the board after [t] generations *)
Fixpoint generations (H W : Z) (t : nat) (cur : list Z) : list Z :=
  match t with
  | O => cur
  | S t' => generations H W t' (step H W cur)
  end.

End Spec.

(** ** Well-formed boards *)

(** [filled f m old new]: the first [m] cells of [new] are [f 0], ...,
    [f (m-1)], the rest is that of [old]. *)
Definition filled (f : Z → Z) (m : Z) (old new : list Z) : Prop :=
  new = (f <$> seqZ 0 m) ++ drop (Z.to_nat m) old.

(** An OpenMP object holding a board of [N] by [N] cells, each 0 or 1,
    with a scratch buffer of the same size. *)
Record square_board (N : Z) (L : OpenMP.Life) : Prop := {
  sq_height : OpenMP.height L = N;
  sq_width : OpenMP.width L = N;
  sq_cells : Z.of_nat (length (OpenMP.cells L)) = N * N;
  sq_next : Z.of_nat (length (OpenMP.nextcells L)) = N * N;
  sq_bits : Forall Spec.bit (OpenMP.cells L)
}.

(** A CUDA object holding a board of [H] by [W] cells, each 0 or 1, in
    the device block [cellsDevice], with a second, distinct block and
    the host vector of the same size. *)
Record device_board (H W : Z) (cur : list Z) (L : Cuda.Life) : Prop := {
  dv_height : Cuda.height L = H;
  dv_width : Cuda.width L = W;
  dv_host : Z.of_nat (length (Cuda.cells L)) = H * W;
  dv_distinct : Cuda.cellsDevice L ≠ Cuda.nextcellsDevice L;
  dv_cells : Cuda.device L !! Cuda.cellsDevice L = Some cur;
  dv_length : Z.of_nat (length cur) = H * W;
  dv_next : ∃ nx, Cuda.device L !! Cuda.nextcellsDevice L = Some nx
                  ∧ Z.of_nat (length nx) = H * W;
  dv_bits : Forall Spec.bit cur
}.

(** [written H W cur old pn mem0 m mem]: [mem] is [mem0] with the block
    [pn] holding the next generation of [cur] in its first [m] cells and
    its former content [old] beyond. *)
Definition written (H W : Z) (cur old : list Z) (pn : Cuda.ptr)
    (mem0 : Cuda.memory) (m : Z) (mem : Cuda.memory) : Prop :=
  ∃ nx, mem = <[pn := nx]> mem0 ∧ filled (Spec.next_cell H W cur) m old nx.

(** both vectors of the OpenMP object hold only 0 and 1 *)
Definition omp_bits (L : OpenMP.Life) : Prop :=
  Forall Spec.bit (OpenMP.cells L) ∧ Forall Spec.bit (OpenMP.nextcells L).

(** An empty CUDA board whose two device pointers are allocated. *)
Definition empty_device (C : Cuda.Life) : Prop :=
  Cuda.cells C = []
  ∧ is_Some (Cuda.device C !! Cuda.cellsDevice C)
  ∧ is_Some (Cuda.device C !! Cuda.nextcellsDevice C).

(** [visited H W cur pn mem0 stride m mem]: [mem] is [mem0] with the
    block [pn] replaced by a block of [H*W] cells that holds the next
    state of every cell [idx + k*stride] with [idx < m]. *)
Definition visited (H W : Z) (cur : list Z) (pn : Cuda.ptr)
    (mem0 : Cuda.memory) (stride m : Z) (mem : Cuda.memory) : Prop :=
  ∃ nx, mem = <[pn := nx]> mem0
        ∧ Z.of_nat (length nx) = H * W
        ∧ ∀ idx k, 0 ≤ idx < m → 0 ≤ k → idx + k * stride < H * W →
                   nx !! Z.to_nat (idx + k * stride)
                   = Some (Spec.next_cell H W cur (idx + k * stride)).

(** every character of a text satisfies [P] *)
Fixpoint chars_in (P : ascii → Prop) (s : string) : Prop :=
  match s with
  | EmptyString => True
  | String c s' => P c ∧ chars_in P s'
  end.

(** the characters of a board file: a cell, or the end of a line *)
Definition board_char (c : ascii) : Prop :=
  c = "0"%char ∨ c = "1"%char ∨ c = ascii_of_nat 10.


(** the number of blocks that [Cuda.run] launches for [n] cells *)
Definition nblocks (n : Z) : Z := (n + 255) / 256.

(** * Properties *)

(** [Some x ≫= f] is [f x] *)
Lemma bind_Some_l {A B : Type} (f : A → option B) (x : A) :
  Some x ≫= f = f x.
Proof. reflexivity. Qed.

Ltac bind_some := rewrite bind_Some_l.

(** ** Loops and buffers *)

Section Loops.
Context {S : Type}.
Implicit Types (body : Z → S → option S) (s : S).

(** A property kept by every iteration is kept by the loop. *)
Lemma for_each_preserves (P : S → Prop) body l s s' :
  (∀ i t t', P t → body i t = Some t' → P t') →
  P s → for_each body l s = Some s' → P s'.
Proof.
  intros Hbody. revert s.
  induction l as [|i l IH]; simpl; intros s Hs Hrun.
  - by simplify_eq.
  - destruct (body i s) as [t|] eqn:Hi; [|done].
    eapply IH; [|exact Hrun]. by eapply Hbody.
Qed.

Lemma for_each_app body l1 l2 s :
  for_each body (l1 ++ l2) s = for_each body l1 s ≫= for_each body l2.
Proof.
  revert s. induction l1 as [|i l1 IH]; simpl; intros s; [done|].
  destruct (body i s); simpl; [apply IH|done].
Qed.

(** The loop [for (i = 0; i < n; i++)] with an invariant indexed by the
    loop counter: it runs to its end and establishes the invariant at
    [n]. *)
Lemma for_each_count (I : Z → S → Prop) body n s :
  0 ≤ n →
  I 0 s →
  (∀ i t, 0 ≤ i < n → I i t → ∃ t', body i t = Some t' ∧ I (i + 1) t') →
  ∃ s', for_each body (seqZ 0 n) s = Some s' ∧ I n s'.
Proof.
  intros Hn H0.
  rewrite <- (Z2Nat.id n) by done.
  generalize (Z.to_nat n). clear n Hn. intros k.
  induction k as [|k IH]; intros Hstep.
  - exists s. by split.
  - destruct IH as (t & Ht & HIt).
    { intros i u Hi. apply Hstep. lia. }
    destruct (Hstep (Z.of_nat k) t) as (t' & Ht' & HIt'); [lia|done|].
    exists t'. split.
    + rewrite seqZ_S, for_each_app, Ht. simpl. rewrite Z.add_0_l, Ht'. done.
    + by replace (Z.of_nat (Datatypes.S k)) with (Z.of_nat k + 1) by lia.
Qed.

(** A first iteration that fails makes the loop fail. *)
Lemma for_each_first_fails body n s :
  0 < n → body 0 s = None → for_each body (seqZ 0 n) s = None.
Proof.
  intros Hn H0. rewrite seqZ_cons by done. simpl. by rewrite H0.
Qed.

(** An iteration that fails in every state the loop can reach makes the
    loop fail. *)
Lemma for_each_fails (P : S → Prop) body l i s :
  (∀ j t t', P t → body j t = Some t' → P t') →
  (∀ t, P t → body i t = None) →
  i ∈ l → P s → for_each body l s = None.
Proof.
  intros Hkeep Hfail. revert s.
  induction l as [|j l IH]; intros s Hi Hs; [by apply elem_of_nil in Hi|].
  simpl. destruct (body j s) as [t|] eqn:Hj; [|done].
  apply elem_of_cons in Hi as [->|Hi].
  - by rewrite Hfail in Hj.
  - apply IH; [done|]. by eapply Hkeep.
Qed.

Lemma repeat_n_preserves (P : S → Prop) (f : S → option S) n s s' :
  (∀ t t', P t → f t = Some t' → P t') →
  P s → repeat_n n f s = Some s' → P s'.
Proof.
  intros Hf. revert s.
  induction n as [|n IH]; simpl; intros s Hs Hrun.
  - by simplify_eq.
  - destruct (f s) as [t|] eqn:Ht; [|done].
    eapply IH; [|exact Hrun]. by eapply Hf.
Qed.

End Loops.

Section Buffers.
Import Spec.
Implicit Types (v : list Z) (i a : Z).

Lemma rd_inside v i :
  0 ≤ i < Z.of_nat (length v) → rd v i = Some (cell v i).
Proof.
  intros Hi. unfold rd, cell.
  destruct (Z.leb_spec 0 i); [|lia].
  destruct (Z.ltb_spec i (Z.of_nat (length v))); [|lia]. simpl.
  destruct (lookup_lt_is_Some_2 v (Z.to_nat i)) as [b Hb]; [lia|].
  by rewrite Hb.
Qed.

Lemma rd_Some v i a :
  rd v i = Some a → 0 ≤ i < Z.of_nat (length v) ∧ v !! Z.to_nat i = Some a.
Proof.
  unfold rd.
  destruct (Z.leb_spec 0 i); [|done].
  destruct (Z.ltb_spec i (Z.of_nat (length v))); [|done]. simpl.
  intros Hv. split; [lia|done].
Qed.

Lemma rd_bit v i a : Forall bit v → rd v i = Some a → bit a.
Proof.
  intros Hv [_ Hi]%rd_Some.
  rewrite Forall_lookup in Hv. by eapply Hv.
Qed.

Lemma wr_inside v i a :
  0 ≤ i < Z.of_nat (length v) → wr v i a = Some (<[Z.to_nat i := a]> v).
Proof.
  intros Hi. unfold wr.
  destruct (Z.leb_spec 0 i); [|lia].
  by destruct (Z.ltb_spec i (Z.of_nat (length v))); [|lia].
Qed.

Lemma wr_Some v i a v' :
  wr v i a = Some v' →
  0 ≤ i < Z.of_nat (length v) ∧ v' = <[Z.to_nat i := a]> v.
Proof.
  unfold wr.
  destruct (Z.leb_spec 0 i); [|done].
  destruct (Z.ltb_spec i (Z.of_nat (length v))); [|done]. simpl.
  intros ?; simplify_eq. split; [lia|done].
Qed.

Lemma wr_outside v i a :
  Z.of_nat (length v) ≤ i → wr v i a = None.
Proof.
  intros Hi. unfold wr.
  destruct (Z.ltb_spec i (Z.of_nat (length v))); [lia|].
  by rewrite andb_false_r.
Qed.

Lemma wr_length v i a v' : wr v i a = Some v' → length v' = length v.
Proof. intros [_ ->]%wr_Some. apply length_insert. Qed.

Lemma wr_bits v i a v' :
  Forall bit v → bit a → wr v i a = Some v' → Forall bit v'.
Proof.
  intros Hv Ha [_ ->]%wr_Some.
  rewrite Forall_lookup. intros k b Hk.
  destruct (decide (k = Z.to_nat i)) as [->|Hne].
  - destruct (decide (Z.to_nat i < length v)%nat).
    + rewrite list_lookup_insert_eq in Hk by done. by simplify_eq.
    + rewrite list_insert_ge in Hk by lia.
      rewrite Forall_lookup in Hv. by eapply Hv.
  - rewrite list_lookup_insert_ne in Hk by done.
    rewrite Forall_lookup in Hv. by eapply Hv.
Qed.

Lemma cell_bit v i : Forall bit v → bit (cell v i).
Proof.
  intros Hv. unfold cell.
  destruct (v !! Z.to_nat i) as [b|] eqn:Hb; simpl; [|by left].
  rewrite Forall_lookup in Hv. by eapply Hv.
Qed.

(** Reading inside the buffer never fails, and sums the cells read. *)
Lemma sum_reads_inside v ixs :
  Forall (λ i, 0 ≤ i < Z.of_nat (length v)) ixs →
  sum_reads v ixs = Some (foldr (λ i s, cell v i + s) 0 ixs).
Proof.
  induction 1 as [|i ixs Hi _ IH]; simpl; [done|].
  by rewrite rd_inside, IH.
Qed.

Lemma sum_reads_Some v ixs s :
  sum_reads v ixs = Some s →
  Forall (λ i, 0 ≤ i < Z.of_nat (length v)) ixs.
Proof.
  revert s. induction ixs as [|i ixs IH]; simpl; intros s Hs; [constructor|].
  destruct (rd v i) as [a|] eqn:Ha; [|done].
  destruct (sum_reads v ixs) as [t|] eqn:Ht; [|done].
  constructor; [by apply rd_Some in Ha as [? _]|by eapply IH].
Qed.

Lemma sum_cells_bound v ixs :
  Forall bit v →
  0 ≤ foldr (λ i s, cell v i + s) 0 ixs ≤ Z.of_nat (length ixs).
Proof.
  intros Hv. induction ixs as [|i ixs IH]; simpl; [lia|].
  destruct (cell_bit v i Hv) as [-> | ->]; lia.
Qed.

Lemma filled_0 f old : filled f 0 old old.
Proof. unfold filled. by rewrite seqZ_nil. Qed.

Lemma filled_length f m old new :
  0 ≤ m ≤ Z.of_nat (length old) → filled f m old new →
  length new = length old.
Proof.
  intros Hm ->. rewrite length_app, length_fmap, length_seqZ, length_drop. lia.
Qed.

Lemma filled_step f m old new :
  0 ≤ m < Z.of_nat (length old) → filled f m old new →
  filled f (m + 1) old (<[Z.to_nat m := f m]> new).
Proof.
  intros Hm ->. unfold filled.
  destruct (lookup_lt_is_Some_2 old (Z.to_nat m)) as [b Hb]; [lia|].
  rewrite (drop_S _ _ _ Hb).
  rewrite insert_app_r_alt by (rewrite length_fmap, length_seqZ; lia).
  rewrite length_fmap, length_seqZ.
  replace (Z.to_nat m - Z.to_nat m)%nat with 0%nat by lia. simpl.
  rewrite (seqZ_app 0 m 1) by lia. rewrite fmap_app, <- app_assoc.
  rewrite (seqZ_cons (0 + m) 1) by lia. rewrite (seqZ_nil _ (Z.pred 1)) by lia. simpl.
  by replace (Z.to_nat (m + 1)) with (Datatypes.S (Z.to_nat m)) by lia.
Qed.

Lemma filled_all f m old new :
  m = Z.of_nat (length old) → filled f m old new → new = f <$> seqZ 0 m.
Proof.
  intros -> ->. rewrite Nat2Z.id, drop_all. apply app_nil_r.
Qed.

End Buffers.

(** ** Index arithmetic within range *)

Section Arithmetic.
Import Spec.
Implicit Types (x y w h : Z).

Lemma u32_small z : 0 ≤ z < 2 ^ 32 → u32 z = z.
Proof. apply Z.mod_small. Qed.

Lemma i32_small z : - 2 ^ 31 ≤ z < 2 ^ 31 → i32 z = z.
Proof. intros Hz. unfold i32. rewrite Z.mod_small; lia. Qed.

Lemma u8_small z : 0 ≤ z < 2 ^ 8 → u8 z = z.
Proof. apply Z.mod_small. Qed.

Lemma flat_inside H W x y :
  0 ≤ x < W → 0 ≤ y < H → 0 ≤ flat W x y < H * W.
Proof. unfold flat. nia. Qed.

Lemma torus_indices_inside H W x y :
  0 ≤ x < W → 0 ≤ y < H →
  Forall (λ i, 0 ≤ i < H * W) (torus_indices H W x y).
Proof.
  intros Hx Hy. unfold torus_indices.
  pose proof (Z.mod_pos_bound (x - 1 + W) W ltac:(lia)).
  pose proof (Z.mod_pos_bound (x + 1) W ltac:(lia)).
  pose proof (Z.mod_pos_bound (y - 1 + H) H ltac:(lia)).
  pose proof (Z.mod_pos_bound (y + 1) H ltac:(lia)).
  repeat (apply Forall_cons_2; [apply flat_inside; lia|]). apply Forall_nil_2.
Qed.

(** unsigned: [(x - 1 + w) % w], [(x + 1) % w], [x + y*w] *)
Lemma u_dec x w :
  0 ≤ x < w → w ≤ 2 ^ 31 →
  umod (uadd (usub x 1) w) w = (x - 1 + w) mod w.
Proof.
  intros Hx Hw. unfold umod, uadd, usub, u32.
  rewrite Zplus_mod_idemp_l. by rewrite (Z.mod_small (x - 1 + w) (2 ^ 32)) by lia.
Qed.

Lemma u_inc x w :
  0 ≤ x < w → w ≤ 2 ^ 31 → umod (uadd x 1) w = (x + 1) mod w.
Proof.
  intros Hx Hw. unfold umod, uadd, u32.
  by rewrite (Z.mod_small (x + 1) (2 ^ 32)) by lia.
Qed.

Lemma u_flat x y w :
  0 ≤ x → 0 ≤ y → 0 ≤ w → y * w + x < 2 ^ 32 →
  uadd x (umul y w) = flat w x y.
Proof.
  intros Hx Hy Hw Hs. unfold uadd, umul, flat.
  rewrite (u32_small (y * w)) by nia. rewrite u32_small by nia. lia.
Qed.

Lemma u_flat_row x y w :
  0 ≤ x → 0 ≤ y → 0 ≤ w → y * w + x < 2 ^ 32 →
  uadd (umul y w) x = flat w x y.
Proof.
  intros Hx Hy Hw Hs. unfold uadd, umul, flat.
  rewrite (u32_small (y * w)) by nia. apply u32_small. nia.
Qed.

(** int: the same expressions *)
Lemma i_dec x w :
  0 ≤ x < w → w ≤ 2 ^ 30 →
  irem (iadd (isub x 1) w) w = (x - 1 + w) mod w.
Proof.
  intros Hx Hw. unfold irem, iadd, isub.
  rewrite (i32_small (x - 1)) by lia. rewrite i32_small by lia.
  apply Z.rem_mod_nonneg; lia.
Qed.

Lemma i_inc x w :
  0 ≤ x < w → w ≤ 2 ^ 30 → irem (iadd x 1) w = (x + 1) mod w.
Proof.
  intros Hx Hw. unfold irem, iadd. rewrite i32_small by lia.
  apply Z.rem_mod_nonneg; lia.
Qed.

Lemma i_flat x y w :
  0 ≤ x → 0 ≤ y → 0 ≤ w → y * w + x < 2 ^ 31 →
  iadd x (imul y w) = flat w x y.
Proof.
  intros Hx Hy Hw Hs. unfold iadd, imul, flat.
  rewrite (i32_small (y * w)) by nia. rewrite i32_small by nia. lia.
Qed.

(** Within range the neighbour indices of both programs are those of
    the torus. *)
Lemma omp_neighbour_indices L x y :
  0 ≤ x < OpenMP.width L → 0 ≤ y < OpenMP.height L →
  OpenMP.height L * OpenMP.width L ≤ 2 ^ 30 →
  OpenMP.neighbour_indices L x y
  = torus_indices (OpenMP.height L) (OpenMP.width L) x y.
Proof.
  intros Hx Hy Hn. unfold OpenMP.neighbour_indices, torus_indices.
  set (W := OpenMP.width L) in *. set (H := OpenMP.height L) in *.
  assert (W ≤ 2 ^ 30 ∧ H ≤ 2 ^ 30) as [HW HH] by nia.
  rewrite !u_dec, !u_inc by lia.
  pose proof (Z.mod_pos_bound (x - 1 + W) W ltac:(lia)).
  pose proof (Z.mod_pos_bound (x + 1) W ltac:(lia)).
  pose proof (Z.mod_pos_bound (y - 1 + H) H ltac:(lia)).
  pose proof (Z.mod_pos_bound (y + 1) H ltac:(lia)).
  rewrite !u_flat by nia. done.
Qed.

Lemma cuda_neighbour_indices H W x y :
  0 ≤ x < W → 0 ≤ y < H → H * W ≤ 2 ^ 30 →
  Cuda.neighbour_indices W H x y = torus_indices H W x y.
Proof.
  intros Hx Hy Hn. unfold Cuda.neighbour_indices, torus_indices.
  assert (W ≤ 2 ^ 30 ∧ H ≤ 2 ^ 30) as [HW HH] by nia.
  rewrite !i_dec, !i_inc by lia.
  pose proof (Z.mod_pos_bound (x - 1 + W) W ltac:(lia)).
  pose proof (Z.mod_pos_bound (x + 1) W ltac:(lia)).
  pose proof (Z.mod_pos_bound (y - 1 + H) H ltac:(lia)).
  pose proof (Z.mod_pos_bound (y + 1) H ltac:(lia)).
  rewrite !i_flat by nia. done.
Qed.

End Arithmetic.

(** ** The OpenMP turn on a square board *)

Section OpenMPSquare.
Import Spec.

Lemma flat_mod W x y : 0 ≤ x < W → flat W x y mod W = x.
Proof.
  intros Hx. unfold flat. rewrite Z.add_comm, Z.mod_add by lia.
  apply Z.mod_small; lia.
Qed.

Lemma flat_div W x y : 0 ≤ x < W → flat W x y / W = y.
Proof.
  intros Hx. unfold flat. rewrite Z.add_comm, Z.div_add by lia.
  rewrite Z.div_small; lia.
Qed.

Lemma omp_neighbours_square N L x y :
  square_board N L → N * N ≤ 2 ^ 30 → 0 ≤ x < N → 0 ≤ y < N →
  OpenMP.neighbours L x y
  = Some (neighbor_count N N (OpenMP.cells L) x y).
Proof.
  intros [Hh Hw Hc _ Hb] HN Hx Hy. unfold OpenMP.neighbours.
  rewrite omp_neighbour_indices by (rewrite ?Hh, ?Hw; lia).
  rewrite Hh, Hw.
  rewrite sum_reads_inside
    by (rewrite Hc; by apply torus_indices_inside).
  simpl. f_equal. apply u8_small. unfold neighbor_count.
  pose proof (sum_cells_bound (OpenMP.cells L) (torus_indices N N x y) Hb)
    as Hs.
  simpl length in Hs. lia.
Qed.

Lemma omp_update_cell_square N L x y :
  square_board N L → N * N ≤ 2 ^ 30 → 0 ≤ x < N → 0 ≤ y < N →
  OpenMP.update_cell y x L
  = Some (OpenMP.mkLife N N (OpenMP.cells L)
            (<[Z.to_nat (flat N x y)
               := next_cell N N (OpenMP.cells L) (flat N x y)]>
               (OpenMP.nextcells L))).
Proof.
  intros HL HN Hx Hy. unfold OpenMP.update_cell.
  rewrite (omp_neighbours_square N) by done. simpl.
  destruct HL as [Hh Hw Hc Hnx Hb].
  assert (OpenMP.index L x y = flat N x y) as ->.
  { unfold OpenMP.index. rewrite Hh. unfold uadd, umul, flat.
    rewrite (u32_small (y * N)) by nia. apply u32_small. nia. }
  pose proof (flat_inside N N x y Hx Hy) as Hi.
  assert (OpenMP.ruleset (OpenMP.cells L) (flat N x y)
            (neighbor_count N N (OpenMP.cells L) x y)
          = Some (next_cell N N (OpenMP.cells L) (flat N x y))) as ->.
  { unfold OpenMP.ruleset, next_cell, rule.
    rewrite flat_mod, flat_div by done.
    rewrite rd_inside by lia.
    by repeat case_match. }
  simpl. rewrite wr_inside by lia. simpl. by rewrite Hh, Hw.
Qed.

(** One turn on a square board fills [nextcells] with the next
    generation and leaves the rest of the object alone. *)
Lemma omp_update_square N L :
  square_board N L → 1 ≤ N → N * N ≤ 2 ^ 30 →
  OpenMP.update L
  = Some (OpenMP.mkLife N N (OpenMP.cells L)
            (step N N (OpenMP.cells L))).
Proof.
  intros HL H1 HN.
  set (cur := OpenMP.cells L). set (old := OpenMP.nextcells L).
  set (f := next_cell N N cur).
  set (I := λ (m : Z) (L' : OpenMP.Life),
         square_board N L' ∧ OpenMP.cells L' = cur
         ∧ filled f m old (OpenMP.nextcells L')).
  assert (∀ x y L', 0 ≤ x < N → 0 ≤ y < N → I (flat N x y) L' →
            ∃ L'', OpenMP.update_cell y x L' = Some L''
                   ∧ I (flat N x y + 1) L'') as Hcell.
  { intros x y L' Hx Hy (HL' & Hcur & Hfill).
    eexists. split; [by apply omp_update_cell_square|].
    pose proof (flat_inside N N x y Hx Hy) as Hi.
    destruct HL as [_ _ _ Hold _]. fold old in Hold.
    destruct HL' as [Hh Hw Hc Hnx Hb]. rewrite Hcur in *.
    split; [|split]; simpl; [|done|].
    - split; simpl; try done. rewrite length_insert. done.
    - apply filled_step; [lia|done]. }
  assert (∀ y L', 0 ≤ y < N → I (y * N) L' →
            ∃ L'', OpenMP.update_row y L' = Some L''
                   ∧ I ((y + 1) * N) L'') as Hrow.
  { intros y L' Hy HI. unfold OpenMP.update_row.
    destruct HI as (HL' & HI).
    rewrite (sq_width N L' HL').
    destruct (for_each_count (λ x, I (flat N x y)) (OpenMP.update_cell y)
                N L') as (L'' & Hrun & HI''); [lia| | |].
    - unfold flat. rewrite Z.add_0_r. by split.
    - intros x t Hx Ht.
      destruct (Hcell x y t Hx Hy Ht) as (t' & Ht' & HIt').
      exists t'. split; [done|].
      by replace (flat N (x + 1) y) with (flat N x y + 1)
        by (unfold flat; lia).
    - exists L''. split; [done|].
      by replace ((y + 1) * N) with (flat N N y) by (unfold flat; lia). }
  unfold OpenMP.update. rewrite (sq_height N L HL).
  destruct (for_each_count (λ y, I (y * N)) OpenMP.update_row N L)
    as (L' & Hrun & (HL' & Hcur & Hfill)); [lia| | |].
  - split; [done|]. split; [done|]. apply filled_0.
  - intros y t Hy Ht. by apply Hrow.
  - rewrite Hrun. f_equal.
    apply filled_all in Hfill;
      [|by destruct HL as [_ _ _ Hold _]; fold old in Hold].
    destruct L' as [h w c nx]. destruct HL' as [Hh Hw _ _ _].
    simpl in *. by subst.
Qed.

End OpenMPSquare.

(** ** The CUDA kernel launch *)

(** The launch covers the board, and its thread count stays within
    [2^30]. *)
Lemma blocks_cover H W :
  1 ≤ H → 1 ≤ W → H * W ≤ 2 ^ 30 →
  H * W ≤ 256 * nblocks (H * W) ≤ 2 ^ 30 ∧ 1 ≤ nblocks (H * W).
Proof.
  intros HH HW Hfit. unfold nblocks.
  assert (1 ≤ H * W) by nia.
  pose proof (Z.div_mod (H * W + 255) 256 ltac:(lia)).
  pose proof (Z.mod_pos_bound (H * W + 255) 256 ltac:(lia)).
  lia.
Qed.

Section CudaLaunch.
Import Spec.
Variables (H W : Z) (cur old : list Z) (pc pn : Cuda.ptr) (mem0 : Cuda.memory).
Hypothesis (HH : 1 ≤ H) (HW : 1 ≤ W) (Hfit : H * W ≤ 2 ^ 30).
Hypothesis (Hcur : Z.of_nat (length cur) = H * W).
Hypothesis (Hbits : Forall bit cur).
Hypothesis (Hold : Z.of_nat (length old) = H * W).
Hypothesis (Hpc : mem0 !! pc = Some cur) (Hpn : mem0 !! pn = Some old).
Hypothesis (Hdistinct : pc ≠ pn).

Lemma cuda_neighbours x y :
  0 ≤ x < W → 0 ≤ y < H →
  Cuda.neighbours W H cur x y = Some (neighbor_count H W cur x y).
Proof.
  intros Hx Hy. unfold Cuda.neighbours.
  rewrite cuda_neighbour_indices by done.
  rewrite sum_reads_inside
    by (rewrite Hcur; by apply torus_indices_inside).
  simpl. f_equal. apply i32_small. unfold neighbor_count.
  pose proof (sum_cells_bound cur (torus_indices H W x y) Hbits) as Hs.
  simpl length in Hs. lia.
Qed.

Local Abbreviation written := (written H W cur old pn mem0).

Lemma cuda_cell_body i mem :
  0 ≤ i < H * W → written i mem →
  ∃ mem', Cuda.cell_body W H pc pn i mem = Some mem' ∧ written (i + 1) mem'.
Proof.
  intros Hi (nx & -> & Hfill). unfold Cuda.cell_body, irem, idiv.
  rewrite Z.rem_mod_nonneg, Z.quot_div_nonneg by lia.
  pose proof (Z.mod_pos_bound i W ltac:(lia)).
  assert (0 ≤ i / W < H).
  { split; [apply Z.div_pos; lia|apply Z.div_lt_upper_bound; lia]. }
  rewrite (lookup_insert_ne mem0 pn pc) by congruence. rewrite Hpc.
  bind_some.
  rewrite cuda_neighbours by done. bind_some.
  assert (Cuda.ruleset cur i (neighbor_count H W cur (i mod W) (i / W))
          = Some (next_cell H W cur i)) as ->.
  { unfold Cuda.ruleset, next_cell, rule.
    rewrite rd_inside by lia. by repeat case_match. }
  bind_some. rewrite lookup_insert_eq. bind_some.
  rewrite wr_inside
    by (erewrite filled_length; [|split; [|apply Z.lt_le_incl]|done]; lia).
  bind_some. eexists. split; [reflexivity|].
  exists (<[Z.to_nat i := next_cell H W cur i]> nx). split.
  - apply insert_insert_eq.
  - apply filled_step; [lia|done].
Qed.

(** The thread [(b, t)] writes the cell [256*b + t] when the board has
    one, and nothing otherwise. *)
Lemma cuda_thread b t mem :
  0 ≤ b < nblocks (H * W) → 0 ≤ t < 256 →
  written (Z.min (b * 256 + t) (H * W)) mem →
  ∃ mem',
    Cuda.cudaRun b 256 t (nblocks (H * W)) (H * W) W H pc pn mem = Some mem'
    ∧ written (Z.min (b * 256 + t + 1) (H * W)) mem'.
Proof.
  intros Hb Ht Hwr.
  pose proof (blocks_cover H W HH HW Hfit) as [[Hc1 Hc2] Hc3].
  set (n := H * W) in *. set (blocks := nblocks n) in *.
  unfold Cuda.cudaRun.
  assert (i32 (uadd (umul b 256) t) = b * 256 + t) as ->.
  { unfold uadd, umul. rewrite (u32_small (b * 256)) by lia.
    rewrite u32_small by lia. apply i32_small. lia. }
  assert (i32 (umul 256 blocks) = 256 * blocks) as ->.
  { unfold umul. rewrite u32_small by lia. apply i32_small. lia. }
  destruct (Z.lt_ge_cases (b * 256 + t) n) as [Hlt|Hge].
  - rewrite Z.min_l in Hwr by lia. rewrite Z.min_l by lia.
    destruct (Z.to_nat (n - (b * 256 + t))) as [|fuel] eqn:Hfuel; [lia|].
    simpl. destruct (Z.ltb_spec (b * 256 + t) n); [|lia].
    destruct (cuda_cell_body (b * 256 + t) mem) as (mem' & -> & Hwr');
      [unfold n in *; lia|done|].
    unfold iadd. rewrite i32_small by lia.
    exists mem'. split; [|done].
    destruct fuel; simpl;
      by destruct (Z.ltb_spec (b * 256 + t + 256 * blocks) n); [lia|].
  - rewrite Z.min_r in Hwr by lia. rewrite Z.min_r by lia.
    exists mem. split; [|done].
    destruct (Z.to_nat (n - (b * 256 + t))) as [|fuel]; simpl;
      by destruct (Z.ltb_spec (b * 256 + t) n); [lia|].
Qed.

(** The launch fills the block [pn] with the next generation and leaves
    every other block as it was. *)
Lemma cuda_launch :
  Cuda.launch (nblocks (H * W)) 256 (H * W) W H pc pn mem0
  = Some (<[pn := step H W cur]> mem0).
Proof.
  pose proof (blocks_cover H W HH HW Hfit) as [[Hc1 Hc2] Hc3].
  unfold Cuda.launch.
  destruct (for_each_count
              (λ b m, written (Z.min (b * 256) (H * W)) m)
              (λ b m, for_each
                 (λ t m', Cuda.cudaRun b 256 t (nblocks (H * W)) (H * W)
                                       W H pc pn m')
                 (seqZ 0 256) m)
              (nblocks (H * W)) mem0) as (mem' & Hrun & Hwr); [lia| | |].
  - rewrite Z.min_l by lia. exists old. split; [|apply filled_0].
    by rewrite insert_id.
  - intros b m Hb Hm.
    destruct (for_each_count
                (λ t m', written (Z.min (b * 256 + t) (H * W)) m')
                (λ t m', Cuda.cudaRun b 256 t (nblocks (H * W)) (H * W)
                                      W H pc pn m')
                256 m) as (m' & Hrun' & Hwr'); [lia| | |].
    + by rewrite Z.add_0_r.
    + intros t m' Ht Hm'.
      destruct (cuda_thread b t m' Hb Ht Hm') as (m'' & Hth & Hwr'').
      exists m''. split; [done|].
      by replace (b * 256 + (t + 1)) with (b * 256 + t + 1) by lia.
    + exists m'. split; [done|].
      by replace ((b + 1) * 256) with (b * 256 + 256) by lia.
  - rewrite Hrun. f_equal.
    rewrite Z.min_r in Hwr by lia.
    destruct Hwr as (nx & -> & Hfill).
    by apply filled_all in Hfill as ->.
Qed.

End CudaLaunch.

(** ** Generations *)

Section Generations.
Import Spec.

Lemma rule_bit s n : bit s → bit (rule s n).
Proof. intros Hs. unfold rule. repeat case_match; [done|by right|by left]. Qed.

Lemma step_length H W cur : 0 ≤ H * W → Z.of_nat (length (step H W cur)) = H * W.
Proof. intros Hn. unfold step. rewrite length_fmap, length_seqZ. lia. Qed.

Lemma step_bits H W cur : Forall bit cur → Forall bit (step H W cur).
Proof.
  intros Hcur. unfold step. apply Forall_fmap, Forall_forall.
  intros i _. simpl. by apply rule_bit, cell_bit.
Qed.

Lemma generations_length H W t cur :
  0 ≤ H * W → Z.of_nat (length cur) = H * W →
  Z.of_nat (length (generations H W t cur)) = H * W.
Proof.
  intros Hn. revert cur. induction t as [|t IH]; simpl; intros cur Hc; [done|].
  by apply IH, step_length.
Qed.

Lemma generations_bits H W t cur :
  Forall bit cur → Forall bit (generations H W t cur).
Proof.
  revert cur. induction t as [|t IH]; simpl; intros cur Hc; [done|].
  by apply IH, step_bits.
Qed.

Lemma memcpy_all dst src :
  length dst = length src → Cuda.memcpy dst src (length dst) = Some src.
Proof.
  intros Hlen. unfold Cuda.memcpy.
  rewrite decide_True by lia.
  by rewrite take_ge, drop_ge, app_nil_r by lia.
Qed.

(** *** OpenMP, square boards *)

Lemma omp_turn_square N L :
  square_board N L → 1 ≤ N → N * N ≤ 2 ^ 30 →
  OpenMP.turn L
  = Some (OpenMP.mkLife N N (step N N (OpenMP.cells L)) (OpenMP.cells L)).
Proof.
  intros HL H1 HN. unfold OpenMP.turn.
  by rewrite (omp_update_square N).
Qed.

Lemma omp_turn_square_board N L L' :
  square_board N L → 1 ≤ N → N * N ≤ 2 ^ 30 →
  OpenMP.turn L = Some L' → square_board N L'.
Proof.
  intros HL H1 HN. rewrite (omp_turn_square N) by done.
  intros ?; simplify_eq. destruct HL as [Hh Hw Hc Hnx Hb].
  split; simpl; try done.
  - apply step_length. nia.
  - by apply step_bits.
Qed.

Lemma omp_run_square N L t :
  square_board N L → 1 ≤ N → N * N ≤ 2 ^ 30 →
  ∃ L', OpenMP.run (Z.of_nat t) L = Some L'
        ∧ square_board N L'
        ∧ OpenMP.cells L' = generations N N t (OpenMP.cells L).
Proof.
  intros HL H1 HN. unfold OpenMP.run. rewrite Nat2Z.id.
  revert L HL. induction t as [|t IH]; intros L HL; simpl.
  - by exists L.
  - rewrite (omp_turn_square N) by done.
    destruct (IH (OpenMP.mkLife N N (step N N (OpenMP.cells L))
                                (OpenMP.cells L))) as (L' & Hrun & HL' & Hc).
    { eapply omp_turn_square_board; [exact HL|done..|].
      by apply omp_turn_square. }
    by exists L'.
Qed.

(** *** CUDA *)

Lemma cuda_step_board H W cur C :
  device_board H W cur C → 1 ≤ H → 1 ≤ W → H * W ≤ 2 ^ 30 →
  Cuda.step C
  = Some (Cuda.mkLife H W (Cuda.cells C) (Cuda.nextcells C)
            (Cuda.cellsDevice C) (Cuda.nextcellsDevice C)
            (<[Cuda.nextcellsDevice C := step H W cur]> (Cuda.device C))
            (Cuda.events C ++ [Cuda.KernelLaunch; Cuda.DeviceSynchronize])).
Proof.
  intros [Hh Hw Hhost Hne Hc Hlen (nx & Hnx & Hnlen) Hb] HH HW HN.
  unfold Cuda.step, Cuda.blocks, Cuda.threads.
  rewrite Hhost, Hh, Hw.
  rewrite (i32_small (H * W)), (i32_small W), (i32_small H) by nia.
  replace ((H * W + 256 - 1) / 256) with (nblocks (H * W))
    by (unfold nblocks; f_equal; lia).
  pose proof (blocks_cover H W HH HW HN) as [[Hc1 Hc2] Hc3].
  rewrite i32_small by lia.
  by rewrite (cuda_launch H W cur nx _ _ _ HH HW HN Hlen Hb Hnlen Hc Hnx Hne).
Qed.

Lemma cuda_turn_board H W cur C :
  device_board H W cur C → 1 ≤ H → 1 ≤ W → H * W ≤ 2 ^ 30 →
  Cuda.turn C
  = Some (Cuda.mkLife H W (step H W cur) (Cuda.nextcells C)
            (Cuda.nextcellsDevice C) (Cuda.cellsDevice C)
            (<[Cuda.nextcellsDevice C := step H W cur]> (Cuda.device C))
            (Cuda.events C ++ [Cuda.KernelLaunch; Cuda.DeviceSynchronize;
                               Cuda.MemcpyDeviceToHost])).
Proof.
  intros HC HH HW HN. unfold Cuda.turn.
  rewrite (cuda_step_board H W cur) by done. simpl.
  unfold Cuda.copy_back, Cuda.swap. simpl.
  destruct HC as [Hh Hw Hhost Hne Hc Hlen _ Hb].
  rewrite lookup_insert_eq. simpl.
  rewrite memcpy_all.
  - simpl. by rewrite <- app_assoc.
  - apply Nat2Z.inj. rewrite Hhost. symmetry. apply step_length. nia.
Qed.

Lemma cuda_turn_device_board H W cur C C' :
  device_board H W cur C → 1 ≤ H → 1 ≤ W → H * W ≤ 2 ^ 30 →
  Cuda.turn C = Some C' → device_board H W (step H W cur) C'.
Proof.
  intros HC HH HW HN. rewrite (cuda_turn_board H W cur) by done.
  intros ?; simplify_eq.
  destruct HC as [Hh Hw Hhost Hne Hc Hlen _ Hb].
  split; simpl.
  all: try done.
  - apply step_length. nia.
  - apply lookup_insert_eq.
  - apply step_length. nia.
  - exists cur. by rewrite lookup_insert_ne by congruence.
  - by apply step_bits.
Qed.

(** [t] turns: [t] launches and [t] copies back to the host, the host
    vector holding the device board after each of them. *)
Lemma cuda_run_board H W cur C t :
  device_board H W cur C → 1 ≤ H → 1 ≤ W → H * W ≤ 2 ^ 30 →
  ∃ C', Cuda.run (Z.of_nat t) C = Some C'
        ∧ device_board H W (generations H W t cur) C'
        ∧ (Cuda.cells C = cur ∨ (0 < t)%nat →
           Cuda.cells C' = generations H W t cur)
        ∧ Cuda.events C'
          = Cuda.events C
            ++ mjoin (replicate t [Cuda.KernelLaunch; Cuda.DeviceSynchronize;
                                   Cuda.MemcpyDeviceToHost]).
Proof.
  intros HC HH HW HN. unfold Cuda.run. rewrite Nat2Z.id.
  revert cur C HC. induction t as [|t IH]; intros cur C HC; simpl.
  - exists C. split; [done|]. split; [done|]. split.
    + intros [?|?]; [done|lia].
    + by rewrite app_nil_r.
  - pose proof (cuda_turn_board H W cur C HC HH HW HN) as Hturn.
    rewrite Hturn.
    pose proof (cuda_turn_device_board H W cur C _ HC HH HW HN Hturn) as HC1.
    destruct (IH _ _ HC1) as (C' & Hrun & HC' & Hhost & Hev).
    exists C'. split; [done|]. split; [done|]. split.
    + intros _. apply Hhost. by left.
    + rewrite Hev. simpl. by rewrite <- app_assoc.
Qed.

End Generations.

(** ** Frames: what a turn leaves alone *)

Section Frames.
Import Spec.

Lemma omp_update_cell_frame y x L L' :
  OpenMP.update_cell y x L = Some L' →
  OpenMP.height L' = OpenMP.height L ∧ OpenMP.width L' = OpenMP.width L
  ∧ OpenMP.cells L' = OpenMP.cells L
  ∧ length (OpenMP.nextcells L') = length (OpenMP.nextcells L).
Proof.
  unfold OpenMP.update_cell. intros Hrun.
  destruct (OpenMP.neighbours L x y) as [n|]; [|done]. simpl in Hrun.
  destruct (OpenMP.ruleset _ _ n) as [v|]; [|done]. simpl in Hrun.
  destruct (wr _ _ v) as [nc|] eqn:Hwr; [|done]. simpl in Hrun.
  simplify_eq. simpl. by rewrite (wr_length _ _ _ _ Hwr).
Qed.

Lemma omp_update_frame L L' :
  OpenMP.update L = Some L' →
  OpenMP.height L' = OpenMP.height L ∧ OpenMP.width L' = OpenMP.width L
  ∧ OpenMP.cells L' = OpenMP.cells L
  ∧ length (OpenMP.nextcells L') = length (OpenMP.nextcells L).
Proof.
  unfold OpenMP.update.
  set (P := λ M, OpenMP.height M = OpenMP.height L
                 ∧ OpenMP.width M = OpenMP.width L
                 ∧ OpenMP.cells M = OpenMP.cells L
                 ∧ length (OpenMP.nextcells M) = length (OpenMP.nextcells L)).
  apply (for_each_preserves P); [|done].
  intros y M M' HM. unfold OpenMP.update_row.
  apply (for_each_preserves P); [|done].
  intros x T T' (Hh & Hw & Hc & Hn) (Hh' & Hw' & Hc' & Hn')%omp_update_cell_frame.
  repeat split; congruence.
Qed.

(** The kernel body stores one value, through [next]. *)
Lemma cuda_cell_body_Some w h pc pn i mem mem' :
  Cuda.cell_body w h pc pn i mem = Some mem' →
  ∃ cur n v nx,
    mem !! pc = Some cur ∧ Cuda.neighbours w h cur (irem i w) (idiv i w) = Some n
    ∧ Cuda.ruleset cur i n = Some v
    ∧ mem !! pn = Some nx ∧ 0 ≤ i < Z.of_nat (length nx)
    ∧ mem' = <[pn := <[Z.to_nat i := v]> nx]> mem.
Proof.
  unfold Cuda.cell_body. intros Hrun.
  apply bind_Some in Hrun as (cur & Hcur & Hrun).
  apply bind_Some in Hrun as (n & Hn & Hrun).
  apply bind_Some in Hrun as (v & Hv & Hrun).
  apply bind_Some in Hrun as (nx & Hnx & Hrun).
  apply bind_Some in Hrun as (nx' & Hwr & Hrun).
  apply wr_Some in Hwr as [Hi ->].
  injection Hrun as <-.
  exists cur, n, v, nx. repeat (split; [assumption|]). reflexivity.
Qed.

Lemma cuda_grid_stride_preserves (P : Cuda.memory → Prop) w h pc pn :
  (∀ i mem mem', P mem → Cuda.cell_body w h pc pn i mem = Some mem' → P mem') →
  ∀ fuel n stride i mem mem',
    P mem → Cuda.grid_stride fuel n w h pc pn stride i mem = Some mem' →
    P mem'.
Proof.
  intros Hbody fuel n stride.
  induction fuel as [|fuel IH]; intros i mem mem' HP; simpl.
  - destruct (i <? n); [done|]. by intros ?; simplify_eq.
  - destruct (i <? n); [|by intros ?; simplify_eq].
    destruct (Cuda.cell_body w h pc pn i mem) as [mem1|] eqn:Hb; [|done].
    apply IH. by eapply Hbody.
Qed.

Lemma cuda_launch_preserves (P : Cuda.memory → Prop) w h pc pn :
  (∀ i mem mem', P mem → Cuda.cell_body w h pc pn i mem = Some mem' → P mem') →
  ∀ blocks threads n mem mem',
    P mem → Cuda.launch blocks threads n w h pc pn mem = Some mem' → P mem'.
Proof.
  intros Hbody blocks threads n mem mem'. unfold Cuda.launch.
  apply (for_each_preserves P). intros b m m' Hm.
  apply (for_each_preserves P); [|done]. intros t u u' Hu.
  unfold Cuda.cudaRun. by apply cuda_grid_stride_preserves.
Qed.

(** Every block other than [next] is left as it was by a launch. *)
Lemma cuda_launch_frame blocks threads n w h pc pn mem mem' p :
  p ≠ pn →
  Cuda.launch blocks threads n w h pc pn mem = Some mem' →
  mem' !! p = mem !! p.
Proof.
  intros Hp.
  apply (cuda_launch_preserves (λ m, m !! p = mem !! p)); [|done].
  intros i m m' Hm (cur & k & v & nx & _ & _ & _ & _ & _ & ->)%cuda_cell_body_Some.
  by rewrite lookup_insert_ne by congruence.
Qed.

End Frames.

(** ** Cells stay 0 or 1 *)

Section Bits.
Import Spec.

Lemma u8_bit z : bit z → u8 z = z.
Proof. by intros [-> | ->]. Qed.

Lemma omp_init_random gen n :
  (∀ k, bit (gen k)) →
  OpenMP.init_random gen (replicate n 0) = gen <$> seq 0 n.
Proof.
  intros Hgen. unfold OpenMP.init_random.
  rewrite (imap_seq_0 _ (λ k, u8 (gen k))), length_replicate.
  apply list_fmap_ext. intros i k _. by apply u8_bit.
Qed.

Lemma cuda_init_random gen n :
  Cuda.init_random gen (replicate n 0) = gen <$> seq 0 n.
Proof.
  unfold Cuda.init_random. by rewrite (imap_seq_0 _ gen), length_replicate.
Qed.

Lemma draws_bits gen n : (∀ k, bit (gen k)) → Forall bit (gen <$> seq 0 n).
Proof. intros Hgen. apply Forall_fmap, Forall_forall. intros k _. apply Hgen. Qed.

Lemma zeros_bits n : Forall bit (replicate n 0).
Proof. apply Forall_replicate. by left. Qed.

Lemma omp_ruleset_bit cur idx n v :
  Forall bit cur → OpenMP.ruleset cur idx n = Some v → bit v.
Proof.
  intros Hcur. unfold OpenMP.ruleset.
  destruct (n =? 2); [by apply rd_bit|].
  destruct (n =? 3); intros ?; simplify_eq; [by right|by left].
Qed.

Lemma cuda_ruleset_bit cur i n v :
  Forall bit cur → Cuda.ruleset cur i n = Some v → bit v.
Proof.
  intros Hcur. unfold Cuda.ruleset.
  destruct (n =? 2); [by apply rd_bit|].
  destruct (n =? 3); intros ?; simplify_eq; [by right|by left].
Qed.

Lemma omp_update_cell_bits y x L L' :
  omp_bits L → OpenMP.update_cell y x L = Some L' → omp_bits L'.
Proof.
  intros [Hc Hn]. unfold OpenMP.update_cell. intros Hrun.
  destruct (OpenMP.neighbours L x y) as [n|]; [|done]. simpl in Hrun.
  destruct (OpenMP.ruleset _ _ n) as [v|] eqn:Hv; [|done]. simpl in Hrun.
  destruct (wr _ _ v) as [nc|] eqn:Hwr; [|done]. simpl in Hrun.
  simplify_eq. split; simpl; [done|].
  eapply wr_bits; [exact Hn| |exact Hwr].
  eapply omp_ruleset_bit; [exact Hc|exact Hv].
Qed.

Lemma omp_turn_bits L L' : omp_bits L → OpenMP.turn L = Some L' → omp_bits L'.
Proof.
  intros HL. unfold OpenMP.turn.
  destruct (OpenMP.update L) as [M|] eqn:HM; [|done]. simpl.
  intros ?; simplify_eq.
  assert (omp_bits M) as [Hc Hn].
  { revert HM. unfold OpenMP.update.
    apply (for_each_preserves omp_bits); [|done].
    intros y T T' HT. unfold OpenMP.update_row.
    apply (for_each_preserves omp_bits); [|done].
    intros x U U' HU. by apply omp_update_cell_bits. }
  by split.
Qed.

Lemma omp_new_bits gen h w : (∀ k, bit (gen k)) → omp_bits (OpenMP.new gen h w).
Proof.
  intros Hgen. unfold OpenMP.new. split; simpl.
  - rewrite omp_init_random by done. by apply draws_bits.
  - apply zeros_bits.
Qed.

Lemma omp_run_bits t L L' : omp_bits L → OpenMP.run t L = Some L' → omp_bits L'.
Proof.
  unfold OpenMP.run. apply (repeat_n_preserves omp_bits).
  intros M M'. apply omp_turn_bits.
Qed.

(** *** The characters of the board file *)

Lemma chars_in_app P s1 s2 :
  chars_in P s1 → chars_in P s2 → chars_in P (s1 ++ s2)%string.
Proof. induction s1 as [|c s1 IH]; simpl; [done|]. intros [? ?] ?. auto. Qed.

Lemma print_unsigned_bit c : bit c → chars_in board_char (print_unsigned c).
Proof.
  intros [-> | ->]; vm_compute; split; try done; [by left|right; by left].
Qed.

Lemma omp_output_file_chars L text :
  Forall bit (OpenMP.cells L) →
  OpenMP.output_file L = Some text → chars_in board_char text.
Proof.
  intros Hbits. unfold OpenMP.output_file.
  apply (for_each_preserves (chars_in board_char)); [|done].
  intros y out out' Hout. unfold OpenMP.output_row.
  destruct (for_each _ _ out) as [o|] eqn:Hrow; [|done]. simpl.
  intros ?; simplify_eq.
  apply chars_in_app; [|by split; [right; right|]].
  revert Hrow. apply (for_each_preserves (chars_in board_char)); [|done].
  intros x u u' Hu. unfold OpenMP.output_cell.
  destruct (rd _ _) as [c|] eqn:Hc; [|done]. simpl. intros ?; simplify_eq.
  apply chars_in_app; [done|]. apply print_unsigned_bit. by eapply rd_bit.
Qed.

End Bits.

(** ** The constructors and the board file *)

Section Boards.
Import Spec.

Lemma omp_new_square gen N :
  (∀ k, bit (gen k)) → 1 ≤ N → N * N ≤ 2 ^ 30 →
  square_board N (OpenMP.new gen N N)
  ∧ OpenMP.cells (OpenMP.new gen N N) = gen <$> seq 0 (Z.to_nat (N * N)).
Proof.
  intros Hgen H1 HN. unfold OpenMP.new, umul.
  rewrite u32_small by nia. rewrite omp_init_random by done.
  split; [|done]. split; simpl; try done.
  - rewrite length_fmap, length_seq. nia.
  - rewrite length_replicate. nia.
  - by apply draws_bits.
Qed.

Lemma cuda_new_board gen uninit H W :
  (∀ k, bit (gen k)) → 1 ≤ H → 1 ≤ W → H * W ≤ 2 ^ 30 →
  ∃ C, Cuda.new gen uninit H W = Some C
       ∧ device_board H W (gen <$> seq 0 (Z.to_nat (H * W))) C
       ∧ Cuda.cells C = gen <$> seq 0 (Z.to_nat (H * W))
       ∧ Cuda.events C
         = [Cuda.Malloc; Cuda.Malloc; Cuda.MemcpyHostToDevice].
Proof.
  intros Hgen HH HW HN. unfold Cuda.new, umul.
  rewrite u32_small by nia. rewrite cuda_init_random.
  set (cs := gen <$> seq 0 (Z.to_nat (H * W))).
  rewrite lookup_insert_ne, lookup_insert_eq by done. simpl.
  assert (Cuda.memcpy (uninit 0%nat <$> seq 0 (length cs)) cs (length cs)
          = Some cs) as ->.
  { unfold Cuda.memcpy. rewrite length_fmap, length_seq.
    rewrite decide_True by lia.
    by rewrite take_ge, drop_ge, app_nil_r
      by (rewrite ?length_fmap, ?length_seq; lia). }
  simpl. eexists. split; [done|].
  assert (Z.of_nat (length cs) = H * W) as Hlen.
  { unfold cs. rewrite length_fmap, length_seq. nia. }
  split; [|done]. split; simpl; try done.
  - eexists. rewrite lookup_insert_ne, lookup_insert_eq by done.
    split; [done|]. by rewrite length_fmap, length_seq.
  - by apply draws_bits.
Qed.

(** The two [output_file] methods write the same text for the same
    board. *)
Lemma output_file_same L C :
  OpenMP.height L = Cuda.height C → OpenMP.width L = Cuda.width C →
  OpenMP.cells L = Cuda.cells C →
  OpenMP.output_file L = Cuda.output_file C.
Proof.
  destruct L, C. simpl. intros -> -> ->. reflexivity.
Qed.

(** On a board whose vector has [height*width] cells the file is
    written to its end. *)
Lemma omp_output_file_total L :
  0 ≤ OpenMP.height L → 0 ≤ OpenMP.width L →
  OpenMP.height L * OpenMP.width L < 2 ^ 32 →
  Z.of_nat (length (OpenMP.cells L)) = OpenMP.height L * OpenMP.width L →
  ∃ text, OpenMP.output_file L = Some text.
Proof.
  intros Hh Hw Hn Hlen. unfold OpenMP.output_file.
  destruct (for_each_count (λ _ _, True) (OpenMP.output_row L)
              (OpenMP.height L) EmptyString) as (text & Hrun & _);
    [done..| |by exists text].
  intros y out Hy _. unfold OpenMP.output_row.
  destruct (for_each_count (λ _ _, True) (OpenMP.output_cell L y)
              (OpenMP.width L) out) as (o & -> & _); [done..| |by eexists].
  intros x u Hx _. unfold OpenMP.output_cell.
  rewrite u_flat_row by nia.
  rewrite rd_inside by (rewrite Hlen; by apply flat_inside).
  by eexists.
Qed.

End Boards.

(** ** The index of the OpenMP loop body *)

Section OpenMPIndex.
Import Spec.

(** The loop body multiplies the row by the height, not by the width. *)
Lemma omp_index_value L x y :
  0 ≤ x → 0 ≤ y → y * OpenMP.height L + x < 2 ^ 32 → 0 ≤ OpenMP.height L →
  OpenMP.index L x y = y * OpenMP.height L + x.
Proof.
  intros Hx Hy Hs Hh. unfold OpenMP.index, uadd, umul.
  rewrite (u32_small (y * _)) by nia. apply u32_small. nia.
Qed.

(** On a board with more rows than columns the last cell is stored past
    the end of [nextcells]: the turn has no defined result. *)
Lemma omp_update_tall L :
  1 ≤ OpenMP.width L < OpenMP.height L →
  OpenMP.height L * OpenMP.height L < 2 ^ 32 →
  Z.of_nat (length (OpenMP.nextcells L)) = OpenMP.height L * OpenMP.width L →
  OpenMP.update L = None.
Proof.
  intros HW HH Hlen.
  set (H := OpenMP.height L) in *. set (W := OpenMP.width L) in *.
  set (P := λ M, OpenMP.height M = H ∧ OpenMP.width M = W
                 ∧ Z.of_nat (length (OpenMP.nextcells M)) = H * W).
  assert (∀ y x M M', P M → OpenMP.update_cell y x M = Some M' → P M')
    as Hcell.
  { intros y x M M' (Hh & Hw & Hn) (Hh' & Hw' & _ & Hn')%omp_update_cell_frame.
    unfold P. rewrite Hh', Hw', Hn'. done. }
  assert (∀ y M M', P M → OpenMP.update_row y M = Some M' → P M') as Hrow.
  { intros y M M' HM. unfold OpenMP.update_row.
    apply (for_each_preserves P); [|done]. intros x. apply Hcell. }
  unfold OpenMP.update.
  apply (for_each_fails P _ _ (H - 1)); [done| | |done].
  - intros M HM. unfold OpenMP.update_row.
    apply (for_each_fails P _ _ (W - 1)); [by intros x; apply Hcell| | |done].
    + intros T (Hh & Hw & Hn). unfold OpenMP.update_cell.
      destruct (OpenMP.neighbours T _ _) as [n|]; [|done]. simpl.
      destruct (OpenMP.ruleset _ _ n) as [v|]; [|done]. simpl.
      rewrite wr_outside; [done|].
      rewrite omp_index_value by (rewrite ?Hh; nia).
      rewrite Hn, Hh. nia.
    + destruct HM as (_ & -> & _). apply elem_of_seqZ. lia.
  - apply elem_of_seqZ. lia.
Qed.

End OpenMPIndex.

(** ** Boards whose cell count wraps around *)

Section Wrapped.

Lemma rd_nil i : rd [] i = None.
Proof.
  unfold rd. cbn [length].
  destruct (Z.leb_spec 0 i); [|done].
  by destruct (Z.ltb_spec i (Z.of_nat 0)); [lia|].
Qed.

(** With an empty [cells] vector the first neighbour read of the first
    cell is already outside the vector. *)
Lemma omp_update_empty L :
  OpenMP.cells L = [] → 0 < OpenMP.height L → 0 < OpenMP.width L →
  OpenMP.update L = None.
Proof.
  intros Hc Hh Hw. unfold OpenMP.update.
  apply for_each_first_fails; [done|]. unfold OpenMP.update_row.
  apply for_each_first_fails; [done|].
  unfold OpenMP.update_cell, OpenMP.neighbours, OpenMP.neighbour_indices.
  rewrite Hc. cbn [sum_reads]. by rewrite rd_nil.
Qed.

Lemma omp_output_file_empty L :
  OpenMP.cells L = [] → 0 < OpenMP.height L → 0 < OpenMP.width L →
  OpenMP.output_file L = None.
Proof.
  intros Hc Hh Hw. unfold OpenMP.output_file.
  apply for_each_first_fails; [done|]. unfold OpenMP.output_row.
  rewrite for_each_first_fails; [done|done|].
  unfold OpenMP.output_cell. by rewrite Hc, rd_nil.
Qed.

Lemma cuda_output_file_empty C :
  Cuda.cells C = [] → 0 < Cuda.height C → 0 < Cuda.width C →
  Cuda.output_file C = None.
Proof.
  intros Hc Hh Hw. unfold Cuda.output_file.
  apply for_each_first_fails; [done|]. unfold Cuda.output_row.
  rewrite for_each_first_fails; [done|done|].
  unfold Cuda.output_cell. by rewrite Hc, rd_nil.
Qed.

End Wrapped.

(** ** The copy back to the host *)

Section CopyBack.



End CopyBack.

(** ** The entry points *)

Section Main.
Import Spec.
Variables (stoi : string → option Z) (gen : nat → Z) (uninit : nat → nat → Z).

Lemma omp_main_usage args :
  length args ≠ 4%nat → OpenMP.main stoi gen args = Exit 1 usage None.
Proof.
  intros Hlen. unfold OpenMP.main.
  destruct args as [|? [|? [|? [|? [|? ?]]]]]; simpl in Hlen; done.
Qed.

Lemma cuda_main_usage args :
  length args ≠ 4%nat → Cuda.main stoi gen uninit args = Exit 1 usage None.
Proof.
  intros Hlen. unfold Cuda.main.
  destruct args as [|? [|? [|? [|? [|? ?]]]]]; simpl in Hlen; done.
Qed.

Lemma u32_nonneg z : 0 ≤ u32 z.
Proof. unfold u32. apply Z.mod_pos_bound. lia. Qed.

Lemma omp_main_square p a1 a2 a3 N t :
  stoi a1 = Some N → stoi a2 = Some N → stoi a3 = Some t →
  (∀ k, bit (gen k)) → 1 ≤ N → N * N ≤ 2 ^ 30 →
  ∃ text, OpenMP.main stoi gen [p; a1; a2; a3] = Exit 0 timings (Some text).
Proof.
  intros H1 H2 H3 Hgen HN Hfit. unfold OpenMP.main. rewrite H1, H2, H3.
  rewrite (u32_small N) by nia.
  destruct (omp_new_square gen N Hgen HN Hfit) as [HL _].
  destruct (omp_run_square N _ (Z.to_nat (u32 t)) HL HN Hfit)
    as (Lt & Hrun & [Hh Hw Hc _ _] & _).
  rewrite Z2Nat.id in Hrun by apply u32_nonneg. rewrite Hrun.
  destruct (omp_output_file_total Lt) as [text ->];
    [rewrite ?Hh, ?Hw; (done || nia)..|by eexists].
Qed.

Lemma cuda_main_board p a1 a2 a3 h w t :
  stoi a1 = Some h → stoi a2 = Some w → stoi a3 = Some t →
  (∀ k, bit (gen k)) → 1 ≤ h → 1 ≤ w → h * w ≤ 2 ^ 30 →
  ∃ text,
    Cuda.main stoi gen uninit [p; a1; a2; a3] = Exit 0 timings (Some text).
Proof.
  intros H1 H2 H3 Hgen Hh Hw Hfit. unfold Cuda.main. rewrite H1, H2, H3.
  rewrite (u32_small h), (u32_small w) by nia.
  destruct (cuda_new_board gen uninit h w Hgen Hh Hw Hfit)
    as (C & -> & HC & _).
  destruct (cuda_run_board h w _ C (Z.to_nat (u32 t)) HC Hh Hw Hfit)
    as (Ct & Hrun & [Hht Hwt Hhost _ _ _ _ _] & _).
  rewrite Z2Nat.id in Hrun by apply u32_nonneg. rewrite Hrun.
  rewrite <- (output_file_same (OpenMP.mkLife h w (Cuda.cells Ct) []) Ct)
    by done.
  destruct (omp_output_file_total (OpenMP.mkLife h w (Cuda.cells Ct) []))
    as [text ->]; simpl; [lia|lia|nia|done|by eexists].
Qed.

(** When the unsigned product of the dimensions wraps to 0 the vectors
    are empty, and with no turn to run the programs fail in
    [output_file], on the first cell. *)
Lemma omp_main_wrapped p a1 a2 a3 h w :
  stoi a1 = Some h → stoi a2 = Some w → stoi a3 = Some 0 →
  0 < u32 h → 0 < u32 w → umul (u32 h) (u32 w) = 0 →
  OpenMP.main stoi gen [p; a1; a2; a3] = Undefined.
Proof.
  intros H1 H2 H3 Hh Hw Hmul. unfold OpenMP.main. rewrite H1, H2, H3.
  unfold OpenMP.run. change (Z.to_nat (u32 0)) with 0%nat. cbn [repeat_n].
  rewrite omp_output_file_empty; [done| |done|done].
  unfold OpenMP.new. rewrite Hmul. reflexivity.
Qed.

Lemma cuda_main_wrapped p a1 a2 a3 h w :
  stoi a1 = Some h → stoi a2 = Some w → stoi a3 = Some 0 →
  0 < u32 h → 0 < u32 w → umul (u32 h) (u32 w) = 0 →
  Cuda.main stoi gen uninit [p; a1; a2; a3] = Undefined.
Proof.
  intros H1 H2 H3 Hh Hw Hmul. unfold Cuda.main. rewrite H1, H2, H3.
  unfold Cuda.new. rewrite Hmul.
  change (Z.to_nat 0) with 0%nat. cbn [replicate].
  change (Cuda.init_random gen []) with (@nil Z). cbn [length seq fmap list_fmap].
  rewrite lookup_insert_ne, lookup_insert_eq by done.
  rewrite bind_Some_l.
  change (Cuda.memcpy [] [] 0) with (Some (@nil Z)). rewrite bind_Some_l.
  unfold Cuda.run. change (Z.to_nat (u32 0)) with 0%nat. cbn [repeat_n].
  rewrite cuda_output_file_empty; done.
Qed.

End Main.

(** ** The stream of the default engine *)

Lemma mt19937_first_draws :
  Mt19937.first_draws = Mt19937.draw <$> seq 0 32.
Proof. vm_compute. reflexivity. Qed.

(** The words of the engine stay below [2^32]. *)
Lemma word32_lxor a b :
  0 ≤ a < 2 ^ 32 → 0 ≤ b < 2 ^ 32 → 0 ≤ Z.lxor a b < 2 ^ 32.
Proof.
  intros Ha Hb.
  assert (0 ≤ Z.lxor a b) as Hnn by (apply Z.lxor_nonneg; lia).
  split; [done|].
  destruct (decide (Z.lxor a b = 0)) as [->|Hne]; [lia|].
  apply Z.log2_lt_pow2; [lia|].
  pose proof (Z.log2_lxor a b ltac:(lia) ltac:(lia)) as Hl.
  assert (Z.log2 a < 32) as Hla.
  { destruct (decide (a = 0)) as [->|]; [by vm_compute|].
    apply Z.log2_lt_pow2; lia. }
  assert (Z.log2 b < 32) as Hlb.
  { destruct (decide (b = 0)) as [->|]; [by vm_compute|].
    apply Z.log2_lt_pow2; lia. }
  lia.
Qed.

Lemma word32_lor a b :
  0 ≤ a < 2 ^ 32 → 0 ≤ b < 2 ^ 32 → 0 ≤ Z.lor a b < 2 ^ 32.
Proof.
  intros Ha Hb.
  assert (0 ≤ Z.lor a b) as Hnn by (apply Z.lor_nonneg; lia).
  split; [done|].
  destruct (decide (Z.lor a b = 0)) as [->|Hne]; [lia|].
  apply Z.log2_lt_pow2; [lia|].
  rewrite Z.log2_lor by lia.
  assert (Z.log2 a < 32) as Hla.
  { destruct (decide (a = 0)) as [->|]; [by vm_compute|].
    apply Z.log2_lt_pow2; lia. }
  assert (Z.log2 b < 32) as Hlb.
  { destruct (decide (b = 0)) as [->|]; [by vm_compute|].
    apply Z.log2_lt_pow2; lia. }
  lia.
Qed.

Lemma word32_land a m : 0 ≤ a → 0 ≤ m < 2 ^ 32 → 0 ≤ Z.land a m < 2 ^ 32.
Proof.
  intros Ha Hm.
  assert (0 ≤ Z.land a m) as Hnn by (apply Z.land_nonneg; lia).
  split; [done|].
  destruct (decide (Z.land a m = 0)) as [->|Hne]; [lia|].
  apply Z.log2_lt_pow2; [lia|].
  pose proof (Z.log2_land a m ltac:(lia) ltac:(lia)) as Hl.
  assert (Z.log2 m < 32) as Hlm.
  { destruct (decide (m = 0)) as [->|]; [by vm_compute|].
    apply Z.log2_lt_pow2; lia. }
  lia.
Qed.

Lemma word32_shiftr a k : 0 ≤ k → 0 ≤ a < 2 ^ 32 → 0 ≤ Z.shiftr a k < 2 ^ 32.
Proof.
  intros Hk Ha. rewrite Z.shiftr_div_pow2 by done.
  assert (0 < 2 ^ k) by (apply Z.pow_pos_nonneg; lia).
  split; [apply Z.div_pos; lia|].
  apply Z.div_lt_upper_bound; nia.
Qed.

Lemma word32_word z : 0 ≤ Mt19937.word z < 2 ^ 32.
Proof.
  unfold Mt19937.word. change 4294967295 with (Z.ones 32).
  rewrite Z.land_ones by lia. apply Z.mod_pos_bound. lia.
Qed.

Lemma word32_total (st : list Z) k :
  Forall (λ z, 0 ≤ z < 2 ^ 32) st → 0 ≤ st !!! k < 2 ^ 32.
Proof.
  intros Hst. rewrite list_lookup_total_alt.
  destruct (st !! k) as [z|] eqn:Hz; simpl; [|by vm_compute].
  rewrite Forall_lookup in Hst. by eapply Hst.
Qed.

Lemma mt19937_seeded_words : Forall (λ z, 0 ≤ z < 2 ^ 32) Mt19937.seeded.
Proof.
  unfold Mt19937.seeded. apply Forall_cons_2; [by vm_compute|].
  generalize (Mt19937.n - 1)%nat, 1, Mt19937.default_seed.
  intros k. induction k as [|k IH]; intros i prev; simpl;
    [apply Forall_nil_2|].
  apply Forall_cons_2; [apply word32_word|apply IH].
Qed.

Lemma mt19937_twist_words st :
  Forall (λ z, 0 ≤ z < 2 ^ 32) st →
  Forall (λ z, 0 ≤ z < 2 ^ 32) (Mt19937.twist st).
Proof.
  unfold Mt19937.twist. generalize (seq 0 Mt19937.n). intros ks.
  revert st. induction ks as [|k ks IH]; intros st Hst; simpl; [done|].
  apply IH. unfold Mt19937.twist_word. apply Forall_insert; [done|].
  pose proof (word32_total st k Hst).
  pose proof (word32_total st ((k + 1) mod Mt19937.n)%nat Hst).
  pose proof (word32_total st ((k + Mt19937.m) mod Mt19937.n)%nat Hst).
  apply word32_lxor; [apply word32_lxor; [done|]|by case_match; vm_compute].
  apply word32_shiftr; [lia|].
  apply word32_lor; apply word32_land; (lia || by vm_compute).
Qed.

Lemma mt19937_output_word k : 0 ≤ Mt19937.output k < 2 ^ 32.
Proof.
  unfold Mt19937.output.
  assert (Forall (λ z, 0 ≤ z < 2 ^ 32)
            (Nat.iter (S (k / Mt19937.n)) Mt19937.twist Mt19937.seeded))
    as Hst.
  { generalize (S (k / Mt19937.n)). intros j.
    induction j as [|j IH]; simpl;
      [apply mt19937_seeded_words|by apply mt19937_twist_words]. }
  pose proof (word32_total _ (k mod Mt19937.n)%nat Hst) as Hy0.
  revert Hy0. generalize (Nat.iter (S (k / Mt19937.n)) Mt19937.twist
                            Mt19937.seeded !!! (k mod Mt19937.n)%nat).
  intros y0 Hy0. unfold Mt19937.temper.
  assert (0 ≤ Z.lxor y0 (Z.land (Z.shiftr y0 11) 4294967295) < 2 ^ 32) as H1.
  { apply word32_lxor; [done|]. apply word32_land; [|by vm_compute].
    apply Z.shiftr_nonneg. lia. }
  revert H1. generalize (Z.lxor y0 (Z.land (Z.shiftr y0 11) 4294967295)).
  intros y1 H1.
  assert (0 ≤ Z.lxor y1 (Z.land (Z.shiftl y1 7) 2636928640) < 2 ^ 32) as H2.
  { apply word32_lxor; [done|]. apply word32_land; [|by vm_compute].
    apply Z.shiftl_nonneg. lia. }
  revert H2. generalize (Z.lxor y1 (Z.land (Z.shiftl y1 7) 2636928640)).
  intros y2 H2.
  assert (0 ≤ Z.lxor y2 (Z.land (Z.shiftl y2 15) 4022730752) < 2 ^ 32) as H3.
  { apply word32_lxor; [done|]. apply word32_land; [|by vm_compute].
    apply Z.shiftl_nonneg. lia. }
  revert H3. generalize (Z.lxor y2 (Z.land (Z.shiftl y2 15) 4022730752)).
  intros y3 H3.
  apply word32_lxor; [done|]. apply word32_shiftr; [lia|done].
Qed.

Lemma mt19937_draw_bit k : Spec.bit (Mt19937.draw k).
Proof.
  unfold Mt19937.draw, Spec.bit.
  pose proof (mt19937_output_word k) as Hk.
  rewrite Z.shiftr_div_pow2 by lia.
  assert (0 ≤ Mt19937.output k / 2 ^ 31 < 2); [|lia].
  split; [apply Z.div_pos; lia|apply Z.div_lt_upper_bound; lia].
Qed.

(** The stream is the engine's at every position. *)
Lemma mt19937_gen_draw k : Mt19937.gen k = Mt19937.draw k.
Proof.
  unfold Mt19937.gen.
  destruct (Mt19937.first_draws !! k) as [d|] eqn:Hd; [|done].
  rewrite mt19937_first_draws in Hd.
  apply list_lookup_fmap_Some in Hd as (j & -> & Hj).
  apply lookup_seq in Hj as [-> _]. done.
Qed.

Lemma mt19937_gen_bit k : Spec.bit (Mt19937.gen k).
Proof. rewrite mt19937_gen_draw. apply mt19937_draw_bit. Defined.

(** * The claims *)

Section Claims.
Import Spec.

(** C4. For a cell whose state [s] the ruleset reads at [idx] and a
    neighbour count [n], the value both programs store is [s] when
    [n = 2], 1 when [n = 3] and 0 otherwise; the two rulesets agree. *)
Theorem ruleset_B3S23 (cur : list Z) (idx s n : Z) :
  rd cur idx = Some s → bit s → 0 ≤ n ≤ 8 →
  (n = 2 → OpenMP.ruleset cur idx n = Some s ∧ Cuda.ruleset cur idx n = Some s)
  ∧ (n = 3 → OpenMP.ruleset cur idx n = Some 1
             ∧ Cuda.ruleset cur idx n = Some 1)
  ∧ (n ≠ 2 → n ≠ 3 → OpenMP.ruleset cur idx n = Some 0
                     ∧ Cuda.ruleset cur idx n = Some 0)
  ∧ OpenMP.ruleset cur idx n = Cuda.ruleset cur idx n.
Proof.
  intros Hs _ _. unfold OpenMP.ruleset, Cuda.ruleset.
  split; [by intros ->|]. split; [by intros ->|]. split; [|done].
  intros H2 H3. destruct (Z.eqb_spec n 2); [done|].
  by destruct (Z.eqb_spec n 3).
Qed.

Lemma ruleset_B3S23_witness :
  rd [0; 1; 1] 2 = Some 1
  ∧ OpenMP.ruleset [0; 1; 1] 2 2 = Some 1
  ∧ Cuda.ruleset [0; 1; 1] 2 2 = Some 1.
Proof.
  split; [reflexivity|].
  refine (proj1 (ruleset_B3S23 [0; 1; 1] 2 1 2 _ _ _) _);
    [reflexivity|by right|lia|reflexivity].
Defined.

(** C7. On the 3 by 3 board whose only live cell is (0,0), the count of
    the eight neighbours of (2,2) is 1 in both programs: the bottom
    right neighbour wraps to (0,0). *)
Theorem corner_wraps (nc : list Z) :
  OpenMP.neighbours (OpenMP.mkLife 3 3 [1; 0; 0; 0; 0; 0; 0; 0; 0] nc) 2 2
  = Some 1
  ∧ Cuda.neighbours 3 3 [1; 0; 0; 0; 0; 0; 0; 0; 0] 2 2 = Some 1
  ∧ last (OpenMP.neighbour_indices
            (OpenMP.mkLife 3 3 [1; 0; 0; 0; 0; 0; 0; 0; 0] nc) 2 2) = Some 0
  ∧ last (Cuda.neighbour_indices 3 3 2 2) = Some 0.
Proof. repeat split; reflexivity. Qed.

(** C10 (as amended). On a square board of [N] by [N] cells, each 0 or
    1, with [1 ≤ N] and [N*N ≤ 2^30], one OpenMP turn and one CUDA
    kernel launch started from equal current buffers fill their next
    buffers with the same cells, and after any number of turns the two
    programs hold the same board and write the same file. *)
Theorem square_boards_agree (N : Z) (L : OpenMP.Life) (C : Cuda.Life)
    (cur : list Z) (t : nat) :
  1 ≤ N → N * N ≤ 2 ^ 30 →
  square_board N L → device_board N N cur C →
  OpenMP.cells L = cur → Cuda.cells C = cur →
  (∃ L1 C1, OpenMP.update L = Some L1 ∧ Cuda.step C = Some C1
            ∧ Cuda.device C1 !! Cuda.nextcellsDevice C1
              = Some (OpenMP.nextcells L1))
  ∧ (∃ Lt Ct, OpenMP.run (Z.of_nat t) L = Some Lt
              ∧ Cuda.run (Z.of_nat t) C = Some Ct
              ∧ Cuda.cells Ct = OpenMP.cells Lt
              ∧ OpenMP.output_file Lt = Cuda.output_file Ct).
Proof.
  intros H1 HN HL HC Hcur Hhost. split.
  - eexists _, _.
    split; [by apply (omp_update_square N)|].
    split; [by apply (cuda_step_board N N cur)|].
    simpl. rewrite lookup_insert_eq. by rewrite Hcur.
  - destruct (omp_run_square N L t HL H1 HN) as (Lt & HLt & HLt' & Hcells).
    destruct (cuda_run_board N N cur C t HC H1 H1 HN)
      as (Ct & HCt & HCt' & Hhost' & _).
    exists Lt, Ct. split; [done|]. split; [done|].
    assert (Cuda.cells Ct = OpenMP.cells Lt) as Heq.
    { rewrite Hcells, Hcur. apply Hhost'. by left. }
    split; [done|]. apply output_file_same; [| |done].
    + by rewrite (sq_height N Lt HLt'), (dv_height N N _ Ct HCt').
    + by rewrite (sq_width N Lt HLt'), (dv_width N N _ Ct HCt').
Qed.

Lemma square_boards_agree_witness :
  ∃ (C Ct : Cuda.Life) (Lt : OpenMP.Life),
    Cuda.new Mt19937.gen (λ _ _, 7) 4 4 = Some C
    ∧ OpenMP.run 3 (OpenMP.new Mt19937.gen 4 4) = Some Lt
    ∧ Cuda.run 3 C = Some Ct
    ∧ Cuda.cells Ct = OpenMP.cells Lt.
Proof.
  assert (Forall bit [1; 0; 1; 1; 0; 1; 1; 0; 1; 0; 0; 1; 0; 0; 1; 1])
    as Hbits.
  { repeat (apply Forall_cons_2; [(by left) || (by right)|]).
    apply Forall_nil_2. }
  assert (square_board 4 (OpenMP.new Mt19937.gen 4 4)) as HL.
  { split; [reflexivity..|exact Hbits]. }
  assert (∃ C, Cuda.new Mt19937.gen (λ _ _, 7) 4 4 = Some C
               ∧ device_board 4 4
                   [1; 0; 1; 1; 0; 1; 1; 0; 1; 0; 0; 1; 0; 0; 1; 1] C
               ∧ Cuda.cells C
                 = [1; 0; 1; 1; 0; 1; 1; 0; 1; 0; 0; 1; 0; 0; 1; 1])
    as (C & HC & HCb & Hhost).
  { eexists. split; [vm_compute; reflexivity|].
    split; [|vm_compute; reflexivity].
    split; [reflexivity|reflexivity|reflexivity|by vm_compute
           |vm_compute; reflexivity|reflexivity| |exact Hbits].
    eexists. split; [vm_compute; reflexivity|reflexivity]. }
  destruct (square_boards_agree 4 (OpenMP.new Mt19937.gen 4 4) C
              [1; 0; 1; 1; 0; 1; 1; 0; 1; 0; 0; 1; 0; 0; 1; 1] 3
              ltac:(lia) ltac:(lia) HL HCb eq_refl Hhost)
    as (_ & Lt & Ct & HLt & HCt & Heq & _).
  exists C, Ct, Lt.
  split; [exact HC|]. split; [exact HLt|]. split; [exact HCt|exact Heq].
Defined.

(** C10, the claim as stated fails: on the square board of 65536 by
    65536 cells the unsigned product [height*width] is 0, both vectors
    are empty, and the first read of the OpenMP turn is outside
    [cells]; the CUDA launch has no thread to run. *)
Lemma square_65536_wraps :
  OpenMP.update (OpenMP.new Mt19937.gen 65536 65536) = None
  ∧ ∃ C C1, Cuda.new Mt19937.gen (λ _ _, 7) 65536 65536 = Some C
            ∧ Cuda.step C = Some C1.
Proof.
  split.
  - apply omp_update_empty; reflexivity.
  - eexists _, _. split; [vm_compute; reflexivity|].
    vm_compute. reflexivity.
Qed.




(** C8 (as amended). With an argument count other than four (the
    program name and three arguments) both programs print the usage
    line, return 1 and write no file. With three arguments that parse
    as integers [h], [w], [t] where [1 ≤ h], [1 ≤ w] and
    [h*w ≤ 2^30], the CUDA program runs to its end, writes its file and
    returns 0, and so does the OpenMP program when [h = w]. *)
Theorem main_outcomes (stoi : string → option Z) (gen : nat → Z)
    (uninit : nat → nat → Z) (args : list string) (p a1 a2 a3 : string)
    (h w t : Z) :
  (length args ≠ 4%nat →
   OpenMP.main stoi gen args = Exit 1 usage None
   ∧ Cuda.main stoi gen uninit args = Exit 1 usage None)
  ∧ (stoi a1 = Some h → stoi a2 = Some w → stoi a3 = Some t →
     (∀ k, bit (gen k)) → 1 ≤ h → 1 ≤ w → h * w ≤ 2 ^ 30 →
     (∃ text, Cuda.main stoi gen uninit [p; a1; a2; a3]
              = Exit 0 timings (Some text))
     ∧ (h = w → ∃ text, OpenMP.main stoi gen [p; a1; a2; a3]
                        = Exit 0 timings (Some text))).
Proof.
  split.
  - intros Hlen. split; [by apply omp_main_usage|by apply cuda_main_usage].
  - intros H1 H2 H3 Hgen Hh Hw Hfit. split.
    + by eapply cuda_main_board.
    + intros <-. by eapply omp_main_square.
Qed.

Lemma main_outcomes_witness :
  (OpenMP.main Stoi.stoi Mt19937.gen ["./gol-openmp"; "4"; "4"]%string
   = Exit 1 usage None
   ∧ Cuda.main Stoi.stoi Mt19937.gen (λ _ _, 7) ["./gol-cuda"; "4"; "4"]%string
     = Exit 1 usage None)
  ∧ (∃ text, Cuda.main Stoi.stoi Mt19937.gen (λ _ _, 7)
               ["./gol-cuda"; "4"; "4"; "3"]%string = Exit 0 timings (Some text))
  ∧ (∃ text, OpenMP.main Stoi.stoi Mt19937.gen
               ["./gol-openmp"; "4"; "4"; "3"]%string = Exit 0 timings (Some text)).
Proof.
  split.
  - refine (proj1 (main_outcomes Stoi.stoi Mt19937.gen (λ _ _, 7)
                     ["./gol-openmp"; "4"; "4"]%string ""%string ""%string ""%string ""%string 0 0 0) _).
    simpl. lia.
  - destruct (proj2 (main_outcomes Stoi.stoi Mt19937.gen (λ _ _, 7)
                       [] "./gol-cuda"%string "4"%string "4"%string "3"%string 4 4 3)
                eq_refl eq_refl eq_refl mt19937_gen_bit
                ltac:(lia) ltac:(lia) ltac:(lia)) as [Hc _].
    destruct (proj2 (main_outcomes Stoi.stoi Mt19937.gen (λ _ _, 7)
                       [] "./gol-openmp"%string "4"%string "4"%string "3"%string 4 4 3)
                eq_refl eq_refl eq_refl mt19937_gen_bit
                ltac:(lia) ltac:(lia) ltac:(lia)) as [_ Ho].
    split; [exact Hc|exact (Ho eq_refl)].
Defined.

(** C8, the claim as stated fails: the arguments 65536 65536 0 parse as
    integers, the unsigned product of the dimensions is 0, and both
    programs read outside the empty [cells] vector when they write
    their file. *)
Lemma main_65536_undefined :
  OpenMP.main Stoi.stoi Mt19937.gen ["./gol-openmp"; "65536"; "65536"; "0"]%string
  = Undefined
  ∧ Cuda.main Stoi.stoi Mt19937.gen (λ _ _, 7)
      ["./gol-cuda"; "65536"; "65536"; "0"]%string = Undefined.
Proof.
  split.
  - by apply (omp_main_wrapped _ _ _ _ _ _ 65536 65536).
  - by apply (cuda_main_wrapped _ _ _ _ _ _ _ 65536 65536).
Qed.

(** C1, at the failing input: for 3 rows, 5 columns and 1 turn, from
    the same initial board, the OpenMP program ends with every cell dead
    and the CUDA program with two live cells, and the two files differ;
    for 4 rows and 3 columns the OpenMP turn stores past the end of
    [nextcells], whatever the initial board. *)
Theorem nonsquare_boards_differ (uninit : nat → nat → Z) (gen : nat → Z) :
  OpenMP.cells (OpenMP.new Mt19937.gen 3 5)
  = [1; 0; 1; 1; 0; 1; 1; 0; 1; 0; 0; 1; 0; 0; 1]
  ∧ Cuda.cells <$> Cuda.new Mt19937.gen uninit 3 5
    = Some [1; 0; 1; 1; 0; 1; 1; 0; 1; 0; 0; 1; 0; 0; 1]
  ∧ OpenMP.cells <$> OpenMP.run 1 (OpenMP.new Mt19937.gen 3 5)
    = Some [0; 0; 0; 0; 0; 0; 0; 0; 0; 0; 0; 0; 0; 0; 0]
  ∧ Cuda.cells <$> (Cuda.new Mt19937.gen uninit 3 5 ≫= Cuda.run 1)
    = Some [0; 0; 0; 1; 0; 0; 0; 0; 1; 0; 0; 0; 0; 0; 0]
  ∧ OpenMP.main Stoi.stoi Mt19937.gen ["./gol-openmp"; "3"; "5"; "1"]%string
    ≠ Cuda.main Stoi.stoi Mt19937.gen uninit
        ["./gol-cuda"; "3"; "5"; "1"]%string
  ∧ OpenMP.run 1 (OpenMP.new gen 4 3) = None.
Proof.
  split; [vm_compute; reflexivity|].
  split; [vm_compute; reflexivity|].
  split; [vm_compute; reflexivity|].
  split; [vm_compute; reflexivity|].
  split; [vm_compute; discriminate|].
  unfold OpenMP.run. change (Z.to_nat 1) with 1%nat. cbn [repeat_n].
  unfold OpenMP.turn. rewrite omp_update_tall; [done|done|done|].
  unfold OpenMP.new. cbn [OpenMP.nextcells OpenMP.height OpenMP.width].
  rewrite length_replicate. reflexivity.
Qed.

(** C2, at the failing input: on the board of 3 rows and 4 columns the
    OpenMP loop body computes index 3 for the cell (0,1), which lives at
    [1*4 + 0 = 4]; cell (3,0) gets the same index 3. The neighbour
    reads and [output_file] of the same program, and the CUDA kernel,
    use [y*width + x]. *)
Theorem omp_index_uses_height (c nc : list Z) :
  let L := OpenMP.mkLife 3 4 c nc in
  OpenMP.index L 0 1 = 3
  ∧ flat 4 0 1 = 4
  ∧ OpenMP.index L 3 0 = 3
  ∧ nth 4 (OpenMP.neighbour_indices L 0 1) 0 = flat 4 1 1
  ∧ (irem 4 4, idiv 4 4) = (0, 1).
Proof. repeat split; reflexivity. Qed.

(** C3, at the failing inputs: on the board of 2 rows and 1 column the
    reads of the cell (0,1) are inside [cells] but its index is 2, the
    length of [nextcells], and the turn has no defined result; on the
    board of 3 rows and 4 columns the turn returns with the cells 10
    and 11 of [nextcells] never written. *)
Theorem omp_writes_off_the_board :
  (let L := OpenMP.new Mt19937.gen 2 1 in
   length (OpenMP.nextcells L) = 2%nat
   ∧ OpenMP.neighbours L 0 1 = Some 6
   ∧ OpenMP.index L 0 1 = 2
   ∧ OpenMP.update L = None)
  ∧ (let L := OpenMP.mkLife 3 4 (OpenMP.cells (OpenMP.new Mt19937.gen 3 4))
                (replicate 12 7) in
     OpenMP.nextcells <$> OpenMP.update L
     = Some [0; 0; 0; 0; 0; 0; 0; 0; 0; 0; 7; 7]).
Proof.
  split.
  - repeat split; vm_compute; reflexivity.
  - vm_compute. reflexivity.
Qed.

End Claims.

(** ** The order of the iterations of a turn *)

Section Schedule.
Import Spec.

Lemma update_in_app o1 o2 L :
  OpenMP.update_in (o1 ++ o2) L
  = OpenMP.update_in o1 L ≫= OpenMP.update_in o2.
Proof.
  revert L. induction o1 as [|[y x] o1 IH]; intros L; simpl; [done|].
  destruct (OpenMP.update_cell y x L); simpl; [apply IH|done].
Qed.

Lemma update_in_width o L L' :
  OpenMP.update_in o L = Some L' → OpenMP.width L' = OpenMP.width L.
Proof.
  revert L. induction o as [|[y x] o IH]; intros L; simpl.
  - by intros ?; simplify_eq.
  - destruct (OpenMP.update_cell y x L) as [L1|] eqn:H1; [|done].
    intros Hrun. rewrite (IH _ Hrun).
    by apply omp_update_cell_frame in H1 as (_ & ? & _).
Qed.

Lemma update_row_in y xs L :
  for_each (OpenMP.update_cell y) xs L
  = OpenMP.update_in (xs ≫= λ x, [(y, x)]) L.
Proof.
  revert L. induction xs as [|x xs IH]; intros L; [done|].
  rewrite bind_cons. simpl.
  destruct (OpenMP.update_cell y x L); [apply IH|done].
Qed.

(** The nested loops are the loop body run over [iterations], row by
    row. *)
Lemma update_is_update_in L :
  OpenMP.update L = OpenMP.update_in (OpenMP.iterations L) L.
Proof.
  unfold OpenMP.update, OpenMP.iterations.
  generalize (seqZ 0 (OpenMP.height L)). intros rows.
  assert (∀ M, OpenMP.width M = OpenMP.width L →
            for_each OpenMP.update_row rows M
            = OpenMP.update_in
                (rows ≫= λ y, seqZ 0 (OpenMP.width L) ≫= λ x, [(y, x)]) M)
    as Hgen; [|by apply Hgen].
  induction rows as [|y rows IH]; intros M HM; [done|].
  rewrite bind_cons, update_in_app. simpl.
  unfold OpenMP.update_row at 1. rewrite HM, update_row_in.
  destruct (OpenMP.update_in _ M) as [M'|] eqn:Hrow; simpl; [|done].
  apply IH. rewrite <- HM. by eapply update_in_width.
Qed.

Lemma elem_of_iterations L y x :
  (y, x) ∈ OpenMP.iterations L
  ↔ 0 ≤ y < OpenMP.height L ∧ 0 ≤ x < OpenMP.width L.
Proof.
  unfold OpenMP.iterations. rewrite list_elem_of_bind. split.
  - intros (y' & (x' & Hin & Hx)%list_elem_of_bind & Hy).
    apply list_elem_of_singleton in Hin. simplify_eq.
    apply elem_of_seqZ in Hx, Hy. lia.
  - intros [Hy Hx]. exists y. split; [|apply elem_of_seqZ; lia].
    apply list_elem_of_bind. exists x.
    split; [by apply list_elem_of_singleton|apply elem_of_seqZ; lia].
Qed.

(** Run in any order over cells of the board, the loop body leaves in
    [nextcells] the next state of every cell it has visited and keeps
    the next states that were there. *)
Lemma update_in_visited N L order :
  square_board N L → N * N ≤ 2 ^ 30 →
  Forall (λ p, 0 ≤ p.1 < N ∧ 0 ≤ p.2 < N) order →
  ∃ nx,
    OpenMP.update_in order L = Some (OpenMP.mkLife N N (OpenMP.cells L) nx)
    ∧ length nx = length (OpenMP.nextcells L)
    ∧ (∀ j : nat, OpenMP.nextcells L !! j
                  = Some (next_cell N N (OpenMP.cells L) (Z.of_nat j)) →
                  nx !! j = Some (next_cell N N (OpenMP.cells L) (Z.of_nat j)))
    ∧ (∀ y x, (y, x) ∈ order →
              nx !! Z.to_nat (flat N x y)
              = Some (next_cell N N (OpenMP.cells L) (flat N x y))).
Proof.
  intros HL HN Horder. revert L HL.
  induction Horder as [|[y x] order [Hy Hx] _ IH]; intros L HL.
  - exists (OpenMP.nextcells L). destruct HL as [Hh Hw _ _ _].
    split; [destruct L; simpl in *; by subst|].
    split; [done|]. split; [done|]. intros y x Hin. by apply elem_of_nil in Hin.
  - simpl in Hy, Hx. simpl.
    rewrite (omp_update_cell_square N) by done.
    set (cur := OpenMP.cells L) in *.
    set (k := flat N x y). set (f := next_cell N N cur).
    set (L1 := OpenMP.mkLife N N cur (<[Z.to_nat k := f k]> (OpenMP.nextcells L))).
    pose proof (flat_inside N N x y Hx Hy) as Hk. fold k in Hk.
    assert (square_board N L1) as HL1.
    { destruct HL as [Hh Hw Hc Hnx Hb].
      split; simpl; try done. by rewrite length_insert. }
    destruct (IH L1 HL1) as (nx & Hrun & Hlen & Hkeep & Hvis).
    simpl in Hrun, Hlen, Hkeep, Hvis. rewrite length_insert in Hlen.
    assert (Z.to_nat k < length (OpenMP.nextcells L))%nat as Hklt.
    { pose proof (sq_next N L HL). lia. }
    exists nx. split; [done|]. split; [done|]. split.
    + intros j Hj. apply Hkeep.
      destruct (decide (Z.to_nat k = j)) as [<-|Hne].
      * rewrite list_lookup_insert_eq by done.
        by rewrite Z2Nat.id by lia.
      * by rewrite list_lookup_insert_ne.
    + intros y' x' [Heq|Hin]%elem_of_cons.
      * simplify_eq. fold k.
        specialize (Hkeep (Z.to_nat k)). rewrite Z2Nat.id in Hkeep by lia.
        apply Hkeep. by rewrite list_lookup_insert_eq.
      * by apply Hvis.
Qed.

End Schedule.

Section ScheduleTheorem.
Import Spec.

(** X4. The result of an OpenMP turn on a square board does not depend
    on the order in which the iterations of the [parallel for] are run:
    over any permutation of the iterations the loop body fills
    [nextcells] with the next generation, as the nested loops do. *)
Theorem omp_any_schedule (N : Z) (L : OpenMP.Life) (order : list (Z * Z)) :
  square_board N L → 1 ≤ N → N * N ≤ 2 ^ 30 →
  order ≡ₚ OpenMP.iterations L →
  OpenMP.update_in order L = OpenMP.update L
  ∧ OpenMP.update L
    = Some (OpenMP.mkLife N N (OpenMP.cells L) (step N N (OpenMP.cells L)))
  ∧ OpenMP.update L = OpenMP.update_in (OpenMP.iterations L) L.
Proof.
  intros HL H1 HN Hperm.
  split; [|split; [by apply omp_update_square|apply update_is_update_in]].
  rewrite (omp_update_square N) by done.
  destruct (update_in_visited N L order HL HN) as (nx & -> & Hlen & _ & Hvis).
  { apply Forall_forall. intros [y x] Hin. rewrite Hperm in Hin.
    apply elem_of_iterations in Hin.
    by rewrite (sq_height N L HL), (sq_width N L HL) in Hin. }
  do 2 f_equal. apply list_eq. intros i. unfold step.
  pose proof (sq_next N L HL) as Hnext.
  destruct (decide (Z.of_nat i < N * N)) as [Hi|Hi].
  - rewrite list_lookup_fmap, lookup_seqZ_lt by done. simpl.
    rewrite Z.add_0_l.
    pose proof (Z.mod_pos_bound (Z.of_nat i) N ltac:(lia)) as Hx.
    assert (0 ≤ Z.of_nat i / N < N) as Hy.
    { split; [apply Z.div_pos; lia|apply Z.div_lt_upper_bound; lia]. }
    assert (flat N (Z.of_nat i mod N) (Z.of_nat i / N) = Z.of_nat i) as Hflat.
    { unfold flat. pose proof (Z.div_mod (Z.of_nat i) N ltac:(lia)). lia. }
    specialize (Hvis (Z.of_nat i / N) (Z.of_nat i mod N)).
    rewrite Hflat, Nat2Z.id in Hvis. apply Hvis.
    rewrite Hperm. apply elem_of_iterations.
    by rewrite (sq_height N L HL), (sq_width N L HL).
  - rewrite !lookup_ge_None_2; [done| |lia].
    rewrite length_fmap, length_seqZ. lia.
Qed.

Lemma omp_any_schedule_witness :
  OpenMP.update_in [(1, 1); (0, 0); (1, 0); (0, 1)]
    (OpenMP.new Mt19937.gen 2 2)
  = OpenMP.update (OpenMP.new Mt19937.gen 2 2).
Proof.
  assert (Forall bit [1; 0; 1; 1]) as Hbits.
  { repeat (apply Forall_cons_2; [(by left) || (by right)|]).
    apply Forall_nil_2. }
  assert (square_board 2 (OpenMP.new Mt19937.gen 2 2)) as HL.
  { split; [reflexivity..|exact Hbits]. }
  refine (proj1 (omp_any_schedule 2 (OpenMP.new Mt19937.gen 2 2)
                   [(1, 1); (0, 0); (1, 0); (0, 1)] HL
                   ltac:(lia) ltac:(lia) _)).
  change (OpenMP.iterations (OpenMP.new Mt19937.gen 2 2))
    with ([(0, 0); (0, 1); (1, 0)] ++ [(1, 1)]).
  apply Permutation_cons_app. rewrite app_nil_r.
  apply perm_skip. apply perm_swap.
Defined.

End ScheduleTheorem.

(** ** The text of the board file *)

Section Text.
Import Spec.

Lemma string_of_list_ascii_app (a b : list ascii) :
  string_of_list_ascii (a ++ b)
  = (string_of_list_ascii a ++ string_of_list_ascii b)%string.
Proof.
  induction a as [|c a IH]; [reflexivity|].
  simpl. rewrite IH. reflexivity.
Qed.

Lemma string_app_assoc (a b c : string) :
  ((a ++ b) ++ c = a ++ (b ++ c))%string.
Proof.
  induction a as [|x a IH]; [reflexivity|].
  change (String x ((a ++ b) ++ c) = String x (a ++ (b ++ c)))%string.
  by rewrite IH.
Qed.

Lemma string_app_nil_r (a : string) : (a ++ "" = a)%string.
Proof.
  induction a as [|x a IH]; [reflexivity|].
  change (String x (a ++ "") = String x a)%string. by rewrite IH.
Qed.

Lemma string_length_of_list (l : list ascii) :
  String.length (string_of_list_ascii l) = length l.
Proof. induction l as [|c l IH]; simpl; [done|]. by rewrite IH. Qed.

Lemma print_unsigned_cell c :
  bit c → print_unsigned c = string_of_list_ascii [cell_char c].
Proof. by intros [-> | ->]. Qed.

Lemma board_chars_length H W cur :
  0 ≤ H → 0 ≤ W →
  Z.of_nat (length (seqZ 0 H ≫= row_chars W cur)) = H * (W + 1).
Proof.
  intros HH HW. rewrite <- (Z2Nat.id H) by done.
  generalize (Z.to_nat H). clear H HH. intros k.
  induction k as [|k IH]; [done|].
  rewrite seqZ_S, bind_app, length_app, Nat2Z.inj_add, IH.
  rewrite bind_singleton. unfold row_chars.
  rewrite length_app, length_fmap, length_seqZ. simpl. lia.
Qed.

(** Both [output_file] methods write the rows of the board. *)
Lemma omp_output_file_text L :
  0 ≤ OpenMP.height L → 0 ≤ OpenMP.width L →
  OpenMP.height L * OpenMP.width L < 2 ^ 32 →
  Z.of_nat (length (OpenMP.cells L)) = OpenMP.height L * OpenMP.width L →
  Forall bit (OpenMP.cells L) →
  OpenMP.output_file L
  = Some (board_text (OpenMP.height L) (OpenMP.width L) (OpenMP.cells L)).
Proof.
  intros Hh Hw Hn Hlen Hbits.
  set (H := OpenMP.height L) in *. set (W := OpenMP.width L) in *.
  set (cur := OpenMP.cells L) in *.
  unfold OpenMP.output_file, board_text. fold H.
  destruct (for_each_count
              (λ y out, out = string_of_list_ascii
                                (seqZ 0 y ≫= row_chars W cur))
              (OpenMP.output_row L) H EmptyString)
    as (text & -> & ->); [done|done| |done].
  intros y out Hy ->. unfold OpenMP.output_row. fold W.
  destruct (for_each_count
              (λ x o, o = (string_of_list_ascii (seqZ 0 y ≫= row_chars W cur)
                           ++ string_of_list_ascii
                                ((λ x, cell_char (cell cur (flat W x y)))
                                   <$> seqZ 0 x))%string)
              (OpenMP.output_cell L y) W
              (string_of_list_ascii (seqZ 0 y ≫= row_chars W cur)))
    as (o & -> & ->); [done| | |].
  - by rewrite string_app_nil_r.
  - intros x o Hx ->. unfold OpenMP.output_cell. fold W cur.
    rewrite u_flat_row by nia.
    rewrite rd_inside by (rewrite Hlen; by apply flat_inside).
    rewrite bind_Some_l. eexists. split; [done|].
    rewrite print_unsigned_cell by by apply cell_bit.
    rewrite string_app_assoc, <- string_of_list_ascii_app.
    rewrite (seqZ_app 0 x 1) by lia. rewrite fmap_app.
    rewrite (seqZ_cons (0 + x) 1) by lia.
    rewrite (seqZ_nil _ (Z.pred 1)) by lia. simpl.
    by rewrite Z.add_0_l.
  - rewrite bind_Some_l. eexists. split; [done|].
    rewrite string_app_assoc.
    change endl with (string_of_list_ascii [ascii_of_nat 10]).
    rewrite <- !string_of_list_ascii_app.
    rewrite (seqZ_app 0 y 1) by lia. rewrite bind_app.
    rewrite (seqZ_cons (0 + y) 1) by lia.
    rewrite (seqZ_nil _ (Z.pred 1)) by lia.
    rewrite bind_singleton, Z.add_0_l. done.
Qed.

End Text.

(** ** Boards with a zero dimension *)

Section EmptyBoards.
Import Spec.

Lemma for_each_skip {S : Type} (body : Z → S → option S) l s :
  (∀ i, i ∈ l → body i s = Some s) → for_each body l s = Some s.
Proof.
  induction l as [|i l IH]; intros Hbody; [done|]. simpl.
  rewrite Hbody by apply list_elem_of_here.
  apply IH. intros j Hj. apply Hbody. by apply list_elem_of_further.
Qed.

Lemma omp_update_zero L :
  OpenMP.height L ≤ 0 ∨ OpenMP.width L ≤ 0 → OpenMP.update L = Some L.
Proof.
  intros Hz. unfold OpenMP.update. apply for_each_skip. intros y Hy.
  unfold OpenMP.update_row. apply elem_of_seqZ in Hy.
  destruct Hz as [Hz|Hz]; [lia|]. by rewrite seqZ_nil.
Qed.

Lemma omp_run_zero n L :
  OpenMP.height L ≤ 0 ∨ OpenMP.width L ≤ 0 →
  OpenMP.cells L = [] → OpenMP.nextcells L = [] →
  repeat_n n OpenMP.turn L = Some L.
Proof.
  intros Hz Hc Hn. induction n as [|n IH]; simpl; [done|].
  unfold OpenMP.turn. rewrite omp_update_zero by done.
  rewrite bind_Some_l.
  replace (OpenMP.swap L) with L; [done|].
  destruct L. unfold OpenMP.swap. simpl in *. by subst.
Qed.

Lemma cuda_turn_empty C :
  empty_device C →
  ∃ C', Cuda.turn C = Some C' ∧ empty_device C'
        ∧ Cuda.height C' = Cuda.height C ∧ Cuda.width C' = Cuda.width C.
Proof.
  intros (Hc & Hpc & [d Hd]). unfold Cuda.turn, Cuda.step, Cuda.blocks.
  rewrite Hc.
  change (i32 ((Z.of_nat (length []) + Cuda.threads - 1) / Cuda.threads))
    with 0.
  unfold Cuda.launch. rewrite (seqZ_nil 0 0) by lia.
  cbn [for_each]. rewrite bind_Some_l, bind_Some_l.
  unfold Cuda.copy_back, Cuda.swap.
  cbn [Cuda.device Cuda.cellsDevice Cuda.cells Cuda.height Cuda.width
       Cuda.nextcells Cuda.nextcellsDevice Cuda.events].
  rewrite Hd, bind_Some_l.
  change (Cuda.memcpy [] d (length [])) with (Some (take 0 d ++ @nil Z)).
  rewrite bind_Some_l. eexists. split; [done|].
  split; [|done]. split; [done|]. split; [by eexists|done].
Qed.

Lemma cuda_run_empty n C :
  empty_device C →
  ∃ C', repeat_n n Cuda.turn C = Some C' ∧ Cuda.cells C' = []
        ∧ Cuda.height C' = Cuda.height C ∧ Cuda.width C' = Cuda.width C.
Proof.
  revert C. induction n as [|n IH]; intros C HC; simpl.
  - exists C. by destruct HC as (? & _).
  - destruct (cuda_turn_empty C HC) as (C1 & -> & HC1 & Hh & Hw).
    destruct (IH C1 HC1) as (C' & Hrun & Hc & Hh' & Hw').
    exists C'. split; [done|]. split; [done|]. split; congruence.
Qed.

End EmptyBoards.

(** ** The rows on the console *)

Section Console.

Lemma output_cells_prefix cells w y xs acc :
  for_each (λ x out, c ← rd cells (uadd (umul y w) x);
                     Some (out ++ print_unsigned c)%string) xs acc
  = (λ t, (acc ++ t)%string)
      <$> for_each (λ x out, c ← rd cells (uadd (umul y w) x);
                             Some (out ++ print_unsigned c)%string)
                   xs EmptyString.
Proof.
  revert acc. induction xs as [|x xs IH]; intros acc; simpl.
  - by rewrite string_app_nil_r.
  - destruct (rd cells _) as [c|]; simpl; [|done].
    change (EmptyString ++ print_unsigned c)%string with (print_unsigned c).
    rewrite (IH (acc ++ print_unsigned c)%string), (IH (print_unsigned c)).
    destruct (for_each _ xs EmptyString) as [t|]; simpl; [|done].
    by rewrite string_app_assoc.
Qed.

Lemma output_rows_prefix cells w ys acc :
  for_each (λ y out,
              out' ← for_each (λ x out, c ← rd cells (uadd (umul y w) x);
                                         Some (out ++ print_unsigned c)%string)
                              (seqZ 0 w) out;
              Some (out' ++ endl)%string) ys acc
  = (λ t, (acc ++ t)%string)
      <$> for_each (λ y out,
              out' ← for_each (λ x out, c ← rd cells (uadd (umul y w) x);
                                         Some (out ++ print_unsigned c)%string)
                              (seqZ 0 w) out;
              Some (out' ++ endl)%string) ys EmptyString.
Proof.
  revert acc. induction ys as [|y ys IH]; intros acc; simpl.
  - by rewrite string_app_nil_r.
  - rewrite (output_cells_prefix cells w y (seqZ 0 w) acc).
    destruct (for_each _ (seqZ 0 w) EmptyString) as [r|]; simpl; [|done].
    rewrite (IH ((acc ++ r) ++ endl)%string), (IH (r ++ endl)%string).
    destruct (for_each _ ys EmptyString) as [t|]; simpl; [|done].
    by rewrite !string_app_assoc.
Qed.

End Console.

(** ** The device memory over a run *)

Section DeviceFrame.

Lemma cuda_turn_frame C C' :
  Cuda.turn C = Some C' →
  Cuda.cellsDevice C' = Cuda.nextcellsDevice C
  ∧ Cuda.nextcellsDevice C' = Cuda.cellsDevice C
  ∧ Cuda.height C' = Cuda.height C ∧ Cuda.width C' = Cuda.width C
  ∧ Cuda.nextcells C' = Cuda.nextcells C
  ∧ ∀ p, p ≠ Cuda.nextcellsDevice C →
         Cuda.device C' !! p = Cuda.device C !! p.
Proof.
  unfold Cuda.turn. intros Hturn.
  apply bind_Some in Hturn as (C1 & Hstep & Hcopy).
  unfold Cuda.step in Hstep.
  apply bind_Some in Hstep as (mem & Hlaunch & Hstep). injection Hstep as <-.
  unfold Cuda.copy_back, Cuda.swap in Hcopy.
  cbn [Cuda.device Cuda.cellsDevice Cuda.cells Cuda.events Cuda.height
       Cuda.width Cuda.nextcells Cuda.nextcellsDevice] in Hcopy.
  apply bind_Some in Hcopy as (d & _ & Hcopy).
  apply bind_Some in Hcopy as (host & _ & Hcopy). injection Hcopy as <-.
  cbn [Cuda.device Cuda.cellsDevice Cuda.height Cuda.width Cuda.nextcells
       Cuda.nextcellsDevice].
  repeat (split; [reflexivity|]).
  intros p Hp. by eapply cuda_launch_frame.
Qed.

(** The kernel loop with a positive stride ends before its fuel does:
    any two amounts of at least [n - i] iterations give the same
    result. *)
Lemma grid_stride_fuel fuel1 fuel2 n w h pc pn stride i mem :
  1 ≤ stride → n + stride ≤ 2 ^ 31 → - 2 ^ 31 ≤ i →
  (Z.to_nat (n - i) ≤ fuel1)%nat → (Z.to_nat (n - i) ≤ fuel2)%nat →
  Cuda.grid_stride fuel1 n w h pc pn stride i mem
  = Cuda.grid_stride fuel2 n w h pc pn stride i mem.
Proof.
  intros Hs Hn. revert fuel2 i mem.
  induction fuel1 as [|fuel1 IH]; intros fuel2 i mem Hi H1 H2.
  - simpl. destruct (Z.ltb_spec i n); [lia|].
    destruct fuel2; simpl; by destruct (Z.ltb_spec i n); [lia|].
  - simpl. destruct (Z.ltb_spec i n) as [Hlt|Hge].
    + destruct fuel2 as [|fuel2]; [lia|]. simpl.
      destruct (Z.ltb_spec i n); [|lia].
      destruct (Cuda.cell_body w h pc pn i mem) as [mem'|]; [|done].
      unfold iadd. rewrite i32_small by lia. apply IH; lia.
    + destruct fuel2; simpl; by destruct (Z.ltb_spec i n); [lia|].
Qed.

End DeviceFrame.

(** ** The OpenMP turn on boards with fewer rows than columns *)

Section OpenMPWide.
Import Spec.

Lemma omp_neighbours_board L x y :
  1 ≤ OpenMP.height L → 1 ≤ OpenMP.width L →
  OpenMP.height L * OpenMP.width L ≤ 2 ^ 30 →
  Z.of_nat (length (OpenMP.cells L)) = OpenMP.height L * OpenMP.width L →
  0 ≤ x < OpenMP.width L → 0 ≤ y < OpenMP.height L →
  ∃ n, OpenMP.neighbours L x y = Some n.
Proof.
  intros Hh Hw Hfit Hlen Hx Hy. unfold OpenMP.neighbours.
  rewrite omp_neighbour_indices by done.
  rewrite sum_reads_inside
    by (rewrite Hlen; by apply torus_indices_inside).
  rewrite bind_Some_l. by eexists.
Qed.

(** The body of the loop on a board with no more rows than columns:
    it stores at [y*height + x], inside [nextcells]. *)
Lemma omp_update_cell_wide L x y :
  1 ≤ OpenMP.height L ≤ OpenMP.width L →
  OpenMP.height L * OpenMP.width L ≤ 2 ^ 30 →
  Z.of_nat (length (OpenMP.cells L)) = OpenMP.height L * OpenMP.width L →
  Z.of_nat (length (OpenMP.nextcells L)) = OpenMP.height L * OpenMP.width L →
  0 ≤ x < OpenMP.width L → 0 ≤ y < OpenMP.height L →
  ∃ v, OpenMP.update_cell y x L
       = Some (OpenMP.mkLife (OpenMP.height L) (OpenMP.width L)
                 (OpenMP.cells L)
                 (<[Z.to_nat (y * OpenMP.height L + x) := v]>
                    (OpenMP.nextcells L))).
Proof.
  intros Hhw Hfit Hc Hn Hx Hy. unfold OpenMP.update_cell.
  destruct (omp_neighbours_board L x y) as [n ->]; [lia|lia|done..|].
  rewrite bind_Some_l.
  rewrite omp_index_value by nia.
  assert (0 ≤ y * OpenMP.height L + x
          < OpenMP.height L * OpenMP.width L) as Hi by nia.
  assert (∃ v, OpenMP.ruleset (OpenMP.cells L)
                 (y * OpenMP.height L + x) n = Some v) as [v ->].
  { unfold OpenMP.ruleset. rewrite rd_inside by lia.
    repeat case_match; by eexists. }
  rewrite bind_Some_l, wr_inside by lia. rewrite bind_Some_l. by exists v.
Qed.

End OpenMPWide.

(** ** The glider *)

Section Glider.

Lemma glider_indices w :
  0 ≤ w → 2 * w + 2 < 2 ^ 32 →
  uadd 0 w = w ∧ uadd (uadd 0 w) 2 = w + 2
  ∧ uadd (uadd (uadd 0 w) w) 1 = 2 * w + 1
  ∧ uadd (uadd (uadd 0 w) w) 2 = 2 * w + 2.
Proof.
  intros Hw Hfit. unfold uadd.
  assert (u32 (0 + w) = w) as -> by (rewrite u32_small; lia).
  assert (u32 (w + w) = w + w) as -> by (rewrite u32_small; lia).
  rewrite !u32_small by lia. lia.
Qed.

(** Five stores in a row, the last at the largest index. *)
Lemma five_stores (c0 : list Z) (i1 i2 i3 i4 i5 : Z) :
  0 ≤ i1 ≤ i5 → 0 ≤ i2 ≤ i5 → 0 ≤ i3 ≤ i5 → 0 ≤ i4 ≤ i5 →
  (c1 ← wr c0 i1 1; c2 ← wr c1 i2 1; c3 ← wr c2 i3 1; c4 ← wr c3 i4 1;
   wr c4 i5 1)
  = if decide (i5 < Z.of_nat (length c0))
    then Some (<[Z.to_nat i5 := 1]> (<[Z.to_nat i4 := 1]>
           (<[Z.to_nat i3 := 1]> (<[Z.to_nat i2 := 1]>
              (<[Z.to_nat i1 := 1]> c0)))))
    else None.
Proof.
  intros H1 H2 H3 H4. case_decide as Hlen.
  - rewrite wr_inside by lia. rewrite bind_Some_l.
    rewrite wr_inside by (rewrite length_insert; lia). rewrite bind_Some_l.
    rewrite wr_inside by (rewrite !length_insert; lia). rewrite bind_Some_l.
    rewrite wr_inside by (rewrite !length_insert; lia). rewrite bind_Some_l.
    by rewrite wr_inside by (rewrite !length_insert; lia).
  - destruct (wr c0 i1 1) as [c1|] eqn:E1; [|done]. rewrite bind_Some_l.
    destruct (wr c1 i2 1) as [c2|] eqn:E2; [|done]. rewrite bind_Some_l.
    destruct (wr c2 i3 1) as [c3|] eqn:E3; [|done]. rewrite bind_Some_l.
    destruct (wr c3 i4 1) as [c4|] eqn:E4; [|done]. rewrite bind_Some_l.
    apply wr_outside.
    rewrite (wr_length _ _ _ _ E4), (wr_length _ _ _ _ E3),
      (wr_length _ _ _ _ E2), (wr_length _ _ _ _ E1). lia.
Qed.

Lemma glider_lookup (cs : list Z) (w : Z) (j : nat) :
  0 ≤ w → 2 * w + 2 < Z.of_nat (length cs) → (j < length cs)%nat →
  <[Z.to_nat (2 * w + 2) := 1]> (<[Z.to_nat (2 * w + 1) := 1]>
    (<[Z.to_nat (w + 2) := 1]> (<[Z.to_nat w := 1]>
       (<[Z.to_nat 2 := 1]> (const 0 <$> cs))))) !! j
  = Some (if bool_decide
               (Z.of_nat j ∈ [2; w; w + 2; 2 * w + 1; 2 * w + 2])
          then 1 else 0).
Proof.
  intros Hw Hlen Hj.
  rewrite !list_lookup_insert, !length_insert, !length_fmap, list_lookup_fmap.
  destruct (lookup_lt_is_Some_2 cs j Hj) as [b ->]. simpl.
  case_bool_decide as Hin; rewrite !elem_of_cons, elem_of_nil in Hin;
    repeat case_decide; try done; exfalso; lia.
Qed.

End Glider.

(** ** The kernel under any launch shape *)

Section AnyLaunch.
Import Spec.
Variables (H W B T : Z) (cur old : list Z) (pc pn : Cuda.ptr)
          (mem0 : Cuda.memory).
Hypothesis (HH : 1 ≤ H) (HW : 1 ≤ W) (Hfit : H * W ≤ 2 ^ 30).
Hypothesis (Hcur : Z.of_nat (length cur) = H * W).
Hypothesis (Hbits : Forall bit cur).
Hypothesis (Hpc : mem0 !! pc = Some cur).
Hypothesis (Hdistinct : pc ≠ pn).
Hypothesis (HB : 1 ≤ B) (HT : 1 ≤ T) (HBT : B * T ≤ 2 ^ 30).

Lemma cuda_cell_body_at nx i :
  Z.of_nat (length nx) = H * W → 0 ≤ i < H * W →
  Cuda.cell_body W H pc pn i (<[pn := nx]> mem0)
  = Some (<[pn := <[Z.to_nat i := next_cell H W cur i]> nx]> mem0).
Proof.
  intros Hnx Hi. unfold Cuda.cell_body, irem, idiv.
  rewrite Z.rem_mod_nonneg, Z.quot_div_nonneg by lia.
  pose proof (Z.mod_pos_bound i W ltac:(lia)).
  assert (0 ≤ i / W < H).
  { split; [apply Z.div_pos; lia|apply Z.div_lt_upper_bound; lia]. }
  rewrite (lookup_insert_ne mem0 pn pc) by congruence. rewrite Hpc.
  bind_some.
  rewrite (cuda_neighbours H W cur [] pc pn) by done. bind_some.
  assert (Cuda.ruleset cur i (neighbor_count H W cur (i mod W) (i / W))
          = Some (next_cell H W cur i)) as ->.
  { unfold Cuda.ruleset, next_cell, rule.
    rewrite rd_inside by lia. by repeat case_match. }
  bind_some. rewrite lookup_insert_eq. bind_some.
  rewrite wr_inside by lia. bind_some.
  by rewrite insert_insert_eq.
Qed.

(** From index [i] on, the loop of a thread stores the next state of
    every cell [i + k*stride] of the board and keeps the next states
    that were there. *)
Lemma grid_stride_visits fuel i nx :
  0 ≤ i → (Z.to_nat (H * W - i) ≤ fuel)%nat →
  Z.of_nat (length nx) = H * W →
  ∃ nx',
    Cuda.grid_stride fuel (H * W) W H pc pn (B * T) i (<[pn := nx]> mem0)
    = Some (<[pn := nx']> mem0)
    ∧ Z.of_nat (length nx') = H * W
    ∧ (∀ j : nat, nx !! j = Some (next_cell H W cur (Z.of_nat j)) →
                  nx' !! j = Some (next_cell H W cur (Z.of_nat j)))
    ∧ (∀ k, 0 ≤ k → i + k * (B * T) < H * W →
            nx' !! Z.to_nat (i + k * (B * T))
            = Some (next_cell H W cur (i + k * (B * T)))).
Proof.
  revert i nx. induction fuel as [|fuel IH]; intros i nx Hi Hfuel Hnx.
  - exists nx. simpl. destruct (Z.ltb_spec i (H * W)); [lia|].
    split; [done|]. split; [done|]. split; [done|]. intros k Hk Hlt. nia.
  - simpl. destruct (Z.ltb_spec i (H * W)) as [Hlt|Hge].
    + rewrite cuda_cell_body_at by lia.
      unfold iadd. rewrite i32_small by nia.
      destruct (IH (i + B * T)
                  (<[Z.to_nat i := next_cell H W cur i]> nx))
        as (nx' & Hrun & Hlen & Hkeep & Hvis);
        [nia|nia|by rewrite length_insert|].
      exists nx'. split; [done|]. split; [done|].
      assert (∀ j : nat, nx !! j = Some (next_cell H W cur (Z.of_nat j)) →
                nx' !! j = Some (next_cell H W cur (Z.of_nat j))) as Hkeep'.
      { intros j Hj. apply Hkeep.
        destruct (decide (Z.to_nat i = j)) as [<-|Hne].
        - rewrite list_lookup_insert_eq by lia. by rewrite Z2Nat.id by lia.
        - by rewrite list_lookup_insert_ne. }
      split; [done|]. intros k Hk Hklt.
      destruct (decide (k = 0)) as [->|Hk0].
      * rewrite Z.mul_0_l, Z.add_0_r.
        specialize (Hkeep (Z.to_nat i)). rewrite Z2Nat.id in Hkeep by lia.
        apply Hkeep. apply list_lookup_insert_eq. lia.
      * specialize (Hvis (k - 1)).
        replace (i + B * T + (k - 1) * (B * T)) with (i + k * (B * T))
          in Hvis by lia.
        apply Hvis; lia.
    + exists nx. split; [done|]. split; [done|]. split; [done|].
      intros k Hk Hklt. nia.
Qed.

Local Abbreviation visited := (visited H W cur pn mem0 (B * T)).

Lemma cuda_thread_visits b t mem :
  0 ≤ b < B → 0 ≤ t < T → visited (b * T + t) mem →
  ∃ mem', Cuda.cudaRun b T t B (H * W) W H pc pn mem = Some mem'
          ∧ visited (b * T + t + 1) mem'.
Proof.
  intros Hb Ht (nx & -> & Hlen & Hvis).
  assert (0 ≤ b * T + t < B * T) by nia.
  unfold Cuda.cudaRun.
  assert (i32 (uadd (umul b T) t) = b * T + t) as ->.
  { unfold uadd, umul. rewrite (u32_small (b * T)) by nia.
    rewrite u32_small by lia. apply i32_small. lia. }
  assert (i32 (umul T B) = B * T) as ->.
  { unfold umul. rewrite u32_small by nia. rewrite i32_small by nia. lia. }
  destruct (grid_stride_visits (Z.to_nat (H * W - (b * T + t)))
              (b * T + t) nx) as (nx' & Hrun & Hlen' & Hkeep & Hnew);
    [lia|lia|done|].
  exists (<[pn := nx']> mem0). split; [exact Hrun|].
  exists nx'. split; [reflexivity|]. split; [exact Hlen'|].
  intros idx k Hidx Hk Hlt.
  destruct (decide (idx = b * T + t)) as [->|Hne].
  - by apply Hnew.
  - specialize (Hkeep (Z.to_nat (idx + k * (B * T)))).
    rewrite Z2Nat.id in Hkeep by nia.
    apply Hkeep, Hvis; lia.
Qed.

Lemma cuda_launch_visits (Hold : Z.of_nat (length old) = H * W)
    (Hpn : mem0 !! pn = Some old) :
  Cuda.launch B T (H * W) W H pc pn mem0
  = Some (<[pn := step H W cur]> mem0).
Proof.
  unfold Cuda.launch.
  destruct (for_each_count
              (λ b m, visited (b * T) m)
              (λ b m, for_each
                 (λ t m', Cuda.cudaRun b T t B (H * W) W H pc pn m')
                 (seqZ 0 T) m)
              B mem0) as (mem' & Hrun & Hvis); [lia| | |].
  - exists old. split; [by rewrite insert_id|]. split; [exact Hold|].
    intros idx k Hidx. lia.
  - intros b m Hb Hm.
    destruct (for_each_count
                (λ t m', visited (b * T + t) m')
                (λ t m', Cuda.cudaRun b T t B (H * W) W H pc pn m')
                T m) as (m' & Hrun' & Hvis'); [lia| | |].
    + by rewrite Z.add_0_r.
    + intros t m' Ht Hm'.
      destruct (cuda_thread_visits b t m' Hb Ht Hm') as (m'' & Hth & Hv).
      exists m''. split; [exact Hth|].
      by replace (b * T + (t + 1)) with (b * T + t + 1) by lia.
    + exists m'. split; [exact Hrun'|].
      by replace ((b + 1) * T) with (b * T + T) by lia.
  - rewrite Hrun. f_equal.
    destruct Hvis as (nx & -> & Hlen & Hvis). f_equal.
    apply list_eq. intros j. unfold step.
    destruct (decide (Z.of_nat j < H * W)) as [Hj|Hj].
    + assert (0 < B * T) by nia.
      pose proof (Z.div_mod (Z.of_nat j) (B * T) ltac:(lia)) as Hdm.
      pose proof (Z.mod_pos_bound (Z.of_nat j) (B * T) ltac:(lia)).
      pose proof (Z.div_pos (Z.of_nat j) (B * T) ltac:(lia) ltac:(lia)).
      specialize (Hvis (Z.of_nat j mod (B * T)) (Z.of_nat j / (B * T))).
      replace (Z.of_nat j mod (B * T) + Z.of_nat j / (B * T) * (B * T))
        with (Z.of_nat j) in Hvis by lia.
      rewrite Nat2Z.id in Hvis. rewrite Hvis by lia.
      rewrite list_lookup_fmap.
      rewrite (lookup_seqZ_lt 0 (H * W) j) by lia. simpl.
      by rewrite Z.add_0_l.
    + rewrite !lookup_ge_None_2; [done| |lia].
      rewrite length_fmap, length_seqZ. lia.
Qed.

End AnyLaunch.

(** * Further properties of the two programs *)

Section Programs.
Import Spec.

(** X1. The CUDA program computes the generations of the board: built
    for [H] rows and [W] columns with [H*W ≤ 2^30] from draws that are 0
    or 1, it runs any number of turns and then holds on the host the
    board obtained from the initial draws by that many synchronous
    toroidal B3/S23 updates. *)
Theorem cuda_run_generations (gen : nat → Z) (uninit : nat → nat → Z)
    (H W : Z) (t : nat) :
  (∀ k, bit (gen k)) → 1 ≤ H → 1 ≤ W → H * W ≤ 2 ^ 30 →
  ∃ C Ct, Cuda.new gen uninit H W = Some C
          ∧ Cuda.run (Z.of_nat t) C = Some Ct
          ∧ Cuda.cells Ct
            = generations H W t (gen <$> seq 0 (Z.to_nat (H * W)))
          ∧ Cuda.device Ct !! Cuda.cellsDevice Ct = Some (Cuda.cells Ct).
Proof.
  intros Hgen HH HW Hfit.
  destruct (cuda_new_board gen uninit H W Hgen HH HW Hfit)
    as (C & HC & HCb & Hhost & _).
  destruct (cuda_run_board H W _ C t HCb HH HW Hfit)
    as (Ct & Hrun & HCt & Hcells & _).
  exists C, Ct. split; [done|]. split; [done|].
  assert (Cuda.cells Ct
          = generations H W t (gen <$> seq 0 (Z.to_nat (H * W)))) as Heq
    by (apply Hcells; by left).
  split; [done|]. rewrite Heq. apply (dv_cells H W _ Ct HCt).
Qed.

Lemma cuda_run_generations_witness :
  ∃ C Ct, Cuda.new Mt19937.gen (λ _ _, 7) 3 5 = Some C
          ∧ Cuda.run 2 C = Some Ct
          ∧ Cuda.cells Ct
            = generations 3 5 2 (Mt19937.gen <$> seq 0 15).
Proof.
  destruct (cuda_run_generations Mt19937.gen (λ _ _, 7) 3 5 2
              mt19937_gen_bit ltac:(lia) ltac:(lia) ltac:(lia))
    as (C & Ct & HC & HCt & Hcells & _).
  exists C, Ct. split; [exact HC|]. split; [exact HCt|exact Hcells].
Defined.

(** X2. On square boards the OpenMP program computes the generations
    of the board: built for [N] rows and [N] columns with [N*N ≤ 2^30]
    from draws that are 0 or 1, it runs any number of turns and then
    holds the board obtained from the initial draws by that many
    synchronous toroidal B3/S23 updates, the generation before it being
    kept in [nextcells]. *)
Theorem omp_run_generations (gen : nat → Z) (N : Z) (t : nat) :
  (∀ k, bit (gen k)) → 1 ≤ N → N * N ≤ 2 ^ 30 →
  ∃ Lt, OpenMP.run (Z.of_nat t) (OpenMP.new gen N N) = Some Lt
        ∧ OpenMP.cells Lt
          = generations N N t (gen <$> seq 0 (Z.to_nat (N * N)))
        ∧ OpenMP.height Lt = N ∧ OpenMP.width Lt = N.
Proof.
  intros Hgen HN Hfit.
  destruct (omp_new_square gen N Hgen HN Hfit) as [HL Hcells].
  destruct (omp_run_square N _ t HL HN Hfit) as (Lt & Hrun & HLt & Heq).
  exists Lt. split; [done|]. split; [by rewrite Heq, Hcells|].
  split; [apply (sq_height N Lt HLt)|apply (sq_width N Lt HLt)].
Qed.

Lemma omp_run_generations_witness :
  ∃ Lt, OpenMP.run 2 (OpenMP.new Mt19937.gen 4 4) = Some Lt
        ∧ OpenMP.cells Lt = generations 4 4 2 (Mt19937.gen <$> seq 0 16).
Proof.
  destruct (omp_run_generations Mt19937.gen 4 2
              mt19937_gen_bit ltac:(lia) ltac:(lia))
    as (Lt & HLt & Hcells & _).
  exists Lt. split; [exact HLt|exact Hcells].
Defined.

(** X3. On every board with more rows than columns the OpenMP turn
    stores the last cell past the end of [nextcells]: with
    [1 ≤ width < height], [height*height < 2^32] and [nextcells] of
    [height*width] cells, the turn has no defined result. *)
Theorem omp_tall_board_overruns (L : OpenMP.Life) :
  1 ≤ OpenMP.width L < OpenMP.height L →
  OpenMP.height L * OpenMP.height L < 2 ^ 32 →
  Z.of_nat (length (OpenMP.nextcells L)) = OpenMP.height L * OpenMP.width L →
  Z.of_nat (length (OpenMP.nextcells L))
  ≤ OpenMP.index L (OpenMP.width L - 1) (OpenMP.height L - 1)
  ∧ OpenMP.update L = None ∧ OpenMP.turn L = None.
Proof.
  intros HW HH Hlen.
  assert (OpenMP.update L = None) as Hup by by apply omp_update_tall.
  split; [|split; [done|by unfold OpenMP.turn; rewrite Hup]].
  rewrite omp_index_value by nia. nia.
Qed.

Lemma omp_tall_board_overruns_witness :
  15 ≤ OpenMP.index (OpenMP.new Mt19937.gen 5 3) 2 4
  ∧ OpenMP.turn (OpenMP.new Mt19937.gen 5 3) = None.
Proof.
  destruct (omp_tall_board_overruns (OpenMP.new Mt19937.gen 5 3))
    as (Hi & _ & Ht); [simpl; lia|simpl; lia|reflexivity|].
  split; [exact Hi|exact Ht].
Defined.

(** X5. The board file has [height] lines of [width] characters: for a
    board of 0 and 1 whose vector has [height*width < 2^32] cells, both
    [output_file] methods write, for each row from the top, the
    characters of its cells from the left ('1' for a live cell, '0' for
    a dead one) and a line end, [height*(width+1)] characters in
    all. *)
Theorem board_file_rows (L : OpenMP.Life) (C : Cuda.Life) :
  0 ≤ OpenMP.height L → 0 ≤ OpenMP.width L →
  OpenMP.height L * OpenMP.width L < 2 ^ 32 →
  Z.of_nat (length (OpenMP.cells L)) = OpenMP.height L * OpenMP.width L →
  Forall bit (OpenMP.cells L) →
  Cuda.height C = OpenMP.height L → Cuda.width C = OpenMP.width L →
  Cuda.cells C = OpenMP.cells L →
  OpenMP.output_file L
  = Some (board_text (OpenMP.height L) (OpenMP.width L) (OpenMP.cells L))
  ∧ Cuda.output_file C
    = Some (board_text (OpenMP.height L) (OpenMP.width L) (OpenMP.cells L))
  ∧ Z.of_nat (String.length (board_text (OpenMP.height L) (OpenMP.width L)
                                        (OpenMP.cells L)))
    = OpenMP.height L * (OpenMP.width L + 1).
Proof.
  intros Hh Hw Hn Hlen Hbits Hch Hcw Hcc.
  pose proof (omp_output_file_text L Hh Hw Hn Hlen Hbits) as Htext.
  split; [done|]. split.
  - by rewrite <- (output_file_same L C).
  - unfold board_text. rewrite string_length_of_list.
    by apply board_chars_length.
Qed.

Lemma board_file_rows_witness :
  OpenMP.output_file (OpenMP.new Mt19937.gen 2 3)
  = Some (board_text 2 3 [1; 0; 1; 1; 0; 1])
  ∧ board_text 2 3 [1; 0; 1; 1; 0; 1]
    = String "1" (String "0" (String "1" (String (ascii_of_nat 10)
     (String "1" (String "0" (String "1" (String (ascii_of_nat 10)
      EmptyString))))))).
Proof.
  assert (Forall bit [1; 0; 1; 1; 0; 1]) as Hbits.
  { repeat (apply Forall_cons_2; [(by left) || (by right)|]).
    apply Forall_nil_2. }
  split; [|reflexivity].
  refine (proj1 (board_file_rows (OpenMP.new Mt19937.gen 2 3)
                   (Cuda.mkLife 2 3 [1; 0; 1; 1; 0; 1] [] 0 1 ∅ [])
                   _ _ _ _ Hbits eq_refl eq_refl eq_refl));
    simpl; lia.
Defined.

(** The two constructors fill their host vectors alike; the calls of
    the CUDA runtime are taken to succeed, as in [Cuda.new]. *)
Lemma same_initial_board (gen : nat → Z) (uninit : nat → nat → Z)
    (h w : Z) :
  (∀ k, bit (gen k)) →
  ∃ C, Cuda.new gen uninit h w = Some C
       ∧ Cuda.cells C = OpenMP.cells (OpenMP.new gen h w)
       ∧ Cuda.cells C = gen <$> seq 0 (Z.to_nat (umul h w))
       ∧ Cuda.device C !! Cuda.cellsDevice C = Some (Cuda.cells C)
       ∧ Cuda.cellsDevice C ≠ Cuda.nextcellsDevice C.
Proof.
  intros Hgen. unfold Cuda.new, OpenMP.new.
  rewrite cuda_init_random, omp_init_random by done.
  set (cs := gen <$> seq 0 (Z.to_nat (umul h w))).
  rewrite lookup_insert_ne, lookup_insert_eq by done.
  rewrite bind_Some_l.
  assert (Cuda.memcpy (uninit 0%nat <$> seq 0 (length cs)) cs (length cs)
          = Some cs) as ->.
  { unfold Cuda.memcpy. rewrite length_fmap, length_seq.
    rewrite decide_True by lia.
    by rewrite take_ge, drop_ge, app_nil_r
      by (rewrite ?length_fmap, ?length_seq; lia). }
  rewrite bind_Some_l. eexists. split; [reflexivity|].
  cbn [Cuda.cells Cuda.device Cuda.cellsDevice Cuda.nextcellsDevice
       OpenMP.cells].
  split; [done|]. split; [done|]. split; [apply lookup_insert_eq|done].
Qed.

(** X7. With the right number of arguments, an argument that
    [std::stoi] rejects ends both programs through the exception: no
    usage line, no output, no file. *)
Theorem main_parse_failure (stoi : string → option Z) (gen : nat → Z)
    (uninit : nat → nat → Z) (p a1 a2 a3 : string) :
  stoi a1 = None ∨ stoi a2 = None ∨ stoi a3 = None →
  OpenMP.main stoi gen [p; a1; a2; a3] = Terminate
  ∧ Cuda.main stoi gen uninit [p; a1; a2; a3] = Terminate.
Proof.
  intros Hfail. unfold OpenMP.main, Cuda.main.
  destruct Hfail as [-> | [-> | ->]];
    destruct (stoi a1), (stoi a2), (stoi a3); done.
Qed.

Lemma main_parse_failure_witness :
  OpenMP.main Stoi.stoi Mt19937.gen ["./gol-openmp"; "4"; "four"; "1"]%string
  = Terminate.
Proof.
  refine (proj1 (main_parse_failure Stoi.stoi Mt19937.gen (λ _ _, 7)
                   "./gol-openmp" "4" "four" "1" _)).
  right. left. reflexivity.
Defined.

(** X8. A zero dimension is not an error: when the height or the width
    converts to 0, both programs run all their turns on empty vectors,
    write a file of [height] empty lines and return 0. *)
Theorem main_zero_dimension (stoi : string → option Z) (gen : nat → Z)
    (uninit : nat → nat → Z) (p a1 a2 a3 : string) (h w t : Z) :
  stoi a1 = Some h → stoi a2 = Some w → stoi a3 = Some t →
  u32 h = 0 ∨ u32 w = 0 →
  OpenMP.main stoi gen [p; a1; a2; a3]
  = Exit 0 timings (Some (board_text (u32 h) (u32 w) []))
  ∧ Cuda.main stoi gen uninit [p; a1; a2; a3]
    = Exit 0 timings (Some (board_text (u32 h) (u32 w) []))
  ∧ Z.of_nat (String.length (board_text (u32 h) (u32 w) [])) = u32 h.
Proof.
  intros H1 H2 H3 Hz.
  pose proof (u32_nonneg h) as Hh. pose proof (u32_nonneg w) as Hw.
  assert (umul (u32 h) (u32 w) = 0) as Hmul.
  { unfold umul. by destruct Hz as [-> | ->]; rewrite ?Z.mul_0_l, ?Z.mul_0_r. }
  assert (OpenMP.output_file (OpenMP.mkLife (u32 h) (u32 w) [] [])
          = Some (board_text (u32 h) (u32 w) [])) as Hout.
  { apply omp_output_file_text; simpl; [done|done| | |done].
    - destruct Hz as [-> | ->]; lia.
    - destruct Hz as [-> | ->]; lia. }
  split; [|split].
  - unfold OpenMP.main. rewrite H1, H2, H3.
    unfold OpenMP.run, OpenMP.new. rewrite Hmul.
    change (OpenMP.init_random gen (replicate (Z.to_nat 0) 0)) with (@nil Z).
    change (replicate (Z.to_nat 0) 0) with (@nil Z).
    rewrite omp_run_zero; [by rewrite Hout| |done|done].
    simpl. destruct Hz as [-> | ->]; [by left|by right].
  - unfold Cuda.main. rewrite H1, H2, H3.
    destruct (same_initial_board (λ _, 0) uninit (u32 h) (u32 w))
      as (C & HC & _ & Hcells & Hdev & _); [by left|].
    rewrite Hmul in Hcells. change (Z.to_nat 0) with 0%nat in Hcells.
    cbn [seq fmap list_fmap] in Hcells.
    assert (Cuda.new gen uninit (u32 h) (u32 w) = Some C) as ->.
    { rewrite <- HC. unfold Cuda.new. rewrite Hmul. reflexivity. }
    assert (Cuda.height C = u32 h ∧ Cuda.width C = u32 w
            ∧ is_Some (Cuda.device C !! Cuda.nextcellsDevice C))
      as (HCh & HCw & Hnext).
    { unfold Cuda.new in HC. rewrite Hmul in HC.
      change (Z.to_nat 0) with 0%nat in HC. cbn [replicate] in HC.
      change (Cuda.init_random (λ _, 0) []) with (@nil Z) in HC.
      cbn [length seq fmap list_fmap] in HC.
      rewrite lookup_insert_ne, lookup_insert_eq in HC by done.
      rewrite bind_Some_l in HC.
      change (Cuda.memcpy [] [] 0) with (Some (@nil Z)) in HC.
      rewrite bind_Some_l in HC. injection HC as <-.
      cbn [Cuda.height Cuda.width Cuda.device Cuda.nextcellsDevice].
      split; [done|]. split; [done|].
      rewrite lookup_insert_ne, lookup_insert_eq by done. by eexists. }
    destruct (cuda_run_empty (Z.to_nat (u32 t)) C)
      as (C' & Hrun & Hc' & Hh' & Hw').
    { split; [done|]. split; [by rewrite Hdev|done]. }
    unfold Cuda.run. rewrite Hrun.
    rewrite <- (output_file_same (OpenMP.mkLife (u32 h) (u32 w) [] []) C')
      by (simpl; congruence).
    by rewrite Hout.
  - unfold board_text. rewrite string_length_of_list.
    rewrite board_chars_length by done.
    destruct Hz as [-> | Hz0]; [lia|].
    rewrite Hz0. lia.
Qed.

Lemma main_zero_dimension_witness :
  OpenMP.main Stoi.stoi Mt19937.gen ["./gol-openmp"; "2"; "0"; "3"]%string
  = Exit 0 timings (Some (endl ++ endl)%string)
  ∧ Cuda.main Stoi.stoi Mt19937.gen (λ _ _, 7)
      ["./gol-cuda"; "2"; "0"; "3"]%string
    = Exit 0 timings (Some (endl ++ endl)%string).
Proof.
  destruct (main_zero_dimension Stoi.stoi Mt19937.gen (λ _ _, 7)
              "./gol-openmp" "2" "0" "3" 2 0 3 eq_refl eq_refl eq_refl
              (or_intror eq_refl)) as (Ho & _ & _).
  destruct (main_zero_dimension Stoi.stoi Mt19937.gen (λ _ _, 7)
              "./gol-cuda" "2" "0" "3" 2 0 3 eq_refl eq_refl eq_refl
              (or_intror eq_refl)) as (_ & Hc & _).
  split; [exact Ho|exact Hc].
Defined.

(** X9. [output_print] writes what [output_file] writes, between two
    lines of [width] dashes and followed by an empty line; it fails
    exactly when [output_file] does. *)
Theorem output_print_frames_file (L : OpenMP.Life) (C : Cuda.Life) :
  OpenMP.output_print L
  = (text ← OpenMP.output_file L;
     Some ((fill_string (OpenMP.width L) "-" ++ endl) ++ text
           ++ (fill_string (OpenMP.width L) "-" ++ endl) ++ endl)%string)
  ∧ Cuda.output_print C
    = (text ← Cuda.output_file C;
       Some ((fill_string (Cuda.width C) "-" ++ endl) ++ text
             ++ (fill_string (Cuda.width C) "-" ++ endl) ++ endl)%string).
Proof.
  split.
  - unfold OpenMP.output_print, OpenMP.output_file.
    unfold OpenMP.output_row, OpenMP.output_cell.
    rewrite output_rows_prefix.
    destruct (for_each _ _ EmptyString) as [text|]; simpl; [|done].
    by rewrite string_app_assoc.
  - unfold Cuda.output_print, Cuda.output_file.
    unfold Cuda.output_row, Cuda.output_cell.
    rewrite output_rows_prefix.
    destruct (for_each _ _ EmptyString) as [text|]; simpl; [|done].
    by rewrite string_app_assoc.
Qed.

(** X10. The OpenMP object keeps its shape: whatever the board, a run
    that returns leaves the height and the width as they were and, when
    the two vectors had the same length, both vectors at that length. *)
Theorem omp_run_keeps_shape (L L' : OpenMP.Life) (t : Z) :
  length (OpenMP.cells L) = length (OpenMP.nextcells L) →
  OpenMP.run t L = Some L' →
  OpenMP.height L' = OpenMP.height L ∧ OpenMP.width L' = OpenMP.width L
  ∧ length (OpenMP.cells L') = length (OpenMP.cells L)
  ∧ length (OpenMP.nextcells L') = length (OpenMP.cells L).
Proof.
  intros Hlen. unfold OpenMP.run.
  apply (repeat_n_preserves
           (λ M, OpenMP.height M = OpenMP.height L
                 ∧ OpenMP.width M = OpenMP.width L
                 ∧ length (OpenMP.cells M) = length (OpenMP.cells L)
                 ∧ length (OpenMP.nextcells M) = length (OpenMP.cells L)));
    [|by rewrite Hlen].
  intros M M' (Hh & Hw & Hc & Hn). unfold OpenMP.turn. intros Hturn.
  apply bind_Some in Hturn as (M1 & Hup & Hswap). injection Hswap as <-.
  apply omp_update_frame in Hup as (Hh1 & Hw1 & Hc1 & Hn1).
  unfold OpenMP.swap. simpl. rewrite Hh1, Hw1, Hn1, Hc1. done.
Qed.

Lemma omp_run_keeps_shape_witness :
  ∃ L', OpenMP.run 2 (OpenMP.new Mt19937.gen 3 5) = Some L'
        ∧ length (OpenMP.cells L') = 15%nat.
Proof.
  assert (∃ L', OpenMP.run 2 (OpenMP.new Mt19937.gen 3 5) = Some L')
    as [L' HL] by (eexists; vm_compute; reflexivity).
  exists L'. split; [exact HL|].
  destruct (omp_run_keeps_shape (OpenMP.new Mt19937.gen 3 5) L' 2 eq_refl HL)
    as (_ & _ & Hc & _).
  exact Hc.
Defined.

(** X11. A CUDA run stays within its two device blocks: after any
    number of turns every other block of the device memory is as it
    was, the two device pointers are the two it started with, exchanged
    when the number of turns is odd, and the dimensions and the unused
    host vector [nextcells] are unchanged. *)
Theorem cuda_run_frame (C C' : Cuda.Life) (t : nat) (p : Cuda.ptr) :
  Cuda.run (Z.of_nat t) C = Some C' →
  p ≠ Cuda.cellsDevice C → p ≠ Cuda.nextcellsDevice C →
  Cuda.device C' !! p = Cuda.device C !! p
  ∧ (Cuda.cellsDevice C', Cuda.nextcellsDevice C')
    = (if Nat.even t then (Cuda.cellsDevice C, Cuda.nextcellsDevice C)
       else (Cuda.nextcellsDevice C, Cuda.cellsDevice C))
  ∧ Cuda.height C' = Cuda.height C ∧ Cuda.width C' = Cuda.width C
  ∧ Cuda.nextcells C' = Cuda.nextcells C.
Proof.
  unfold Cuda.run. rewrite Nat2Z.id. revert C.
  induction t as [|t IH]; intros C Hrun Hpc Hpn.
  - simpl in Hrun. by injection Hrun as <-.
  - rewrite Nat.even_succ, <- Nat.negb_even.
    simpl in Hrun.
    destruct (Cuda.turn C) as [C1|] eqn:Hturn; [|discriminate].
    apply cuda_turn_frame in Hturn as (Hc & Hn & Hh & Hw & Hnx & Hframe).
    destruct (IH C1 Hrun) as (Hmem & Hptr & Hh' & Hw' & Hnx');
      [congruence|congruence|].
    split; [by rewrite Hmem; apply Hframe|].
    split; [|repeat split; congruence].
    rewrite Hptr, Hc, Hn. by destruct (Nat.even t).
Qed.

Lemma cuda_run_frame_witness :
  ∃ C C', Cuda.new Mt19937.gen (λ _ _, 7) 2 2 = Some C
          ∧ Cuda.run 3 C = Some C'
          ∧ Cuda.device C' !! 5%nat = Cuda.device C !! 5%nat
          ∧ Cuda.cellsDevice C' = Cuda.nextcellsDevice C.
Proof.
  assert (∃ C, Cuda.new Mt19937.gen (λ _ _, 7) 2 2 = Some C
               ∧ 5%nat ≠ Cuda.cellsDevice C ∧ 5%nat ≠ Cuda.nextcellsDevice C
               ∧ ∃ C', Cuda.run (Z.of_nat 3) C = Some C')
    as (C & HC & H1 & H2 & C' & HC').
  { eexists. split; [vm_compute; reflexivity|].
    split; [vm_compute; discriminate|]. split; [vm_compute; discriminate|].
    eexists. vm_compute. reflexivity. }
  exists C, C'. split; [exact HC|]. split; [exact HC'|].
  destruct (cuda_run_frame C C' 3 5%nat HC' H1 H2) as (Hm & Hp & _).
  split; [exact Hm|]. exact (f_equal fst Hp).
Defined.

(** X12. The grid-stride loop of a thread ends: with a stride of at
    least 1 and [n + stride ≤ 2^31], the kernel run by a thread with
    index [≥ -2^31] gives the same result when its loop is allowed any
    number of further iterations beyond the [n - index] it is given. *)
Theorem grid_stride_ends (extra : nat) (n w h : Z) (pc pn : Cuda.ptr)
    (blockIdx blockDim threadIdx gridDim : Z) (mem : Cuda.memory) :
  1 ≤ i32 (umul blockDim gridDim) →
  n + i32 (umul blockDim gridDim) ≤ 2 ^ 31 →
  Cuda.grid_stride
    (Z.to_nat (n - i32 (uadd (umul blockIdx blockDim) threadIdx)) + extra)
    n w h pc pn (i32 (umul blockDim gridDim))
    (i32 (uadd (umul blockIdx blockDim) threadIdx)) mem
  = Cuda.cudaRun blockIdx blockDim threadIdx gridDim n w h pc pn mem.
Proof.
  intros Hs Hn. unfold Cuda.cudaRun.
  apply grid_stride_fuel; [done|done| |lia|lia].
  unfold i32.
  pose proof (Z.mod_pos_bound
                (uadd (umul blockIdx blockDim) threadIdx + 2 ^ 31) (2 ^ 32)
                ltac:(lia)).
  lia.
Qed.

Lemma grid_stride_ends_witness :
  Cuda.grid_stride (Z.to_nat (10 - 3) + 5) 10 5 2 0%nat 1%nat 4 3
    (<[1%nat := replicate 10 7]>
       (<[0%nat := [1; 0; 1; 1; 0; 1; 1; 0; 1; 0]]> ∅))
  = Cuda.cudaRun 1 2 1 2 10 5 2 0%nat 1%nat
      (<[1%nat := replicate 10 7]>
         (<[0%nat := [1; 0; 1; 1; 0; 1; 1; 0; 1; 0]]> ∅)).
Proof.
  refine (grid_stride_ends 5 10 5 2 0%nat 1%nat 1 2 1 2 _ _ _);
    vm_compute; discriminate.
Defined.

(** X13. On a board with fewer rows than columns the OpenMP turn
    returns, but it stores every cell below index
    [height*height - height + width]: from that index on, [nextcells]
    is never written, and these are [(height-1)*(width-height)] cells
    of the board. *)
Theorem omp_wide_board_skips (L : OpenMP.Life) :
  1 ≤ OpenMP.height L < OpenMP.width L →
  OpenMP.height L * OpenMP.width L ≤ 2 ^ 30 →
  Z.of_nat (length (OpenMP.cells L)) = OpenMP.height L * OpenMP.width L →
  Z.of_nat (length (OpenMP.nextcells L)) = OpenMP.height L * OpenMP.width L →
  ∃ L', OpenMP.update L = Some L'
        ∧ drop (Z.to_nat (OpenMP.height L * OpenMP.height L
                          - OpenMP.height L + OpenMP.width L))
               (OpenMP.nextcells L')
          = drop (Z.to_nat (OpenMP.height L * OpenMP.height L
                            - OpenMP.height L + OpenMP.width L))
                 (OpenMP.nextcells L)
        ∧ Z.of_nat (length (drop (Z.to_nat (OpenMP.height L * OpenMP.height L
                                   - OpenMP.height L + OpenMP.width L))
                                 (OpenMP.nextcells L)))
          = (OpenMP.height L - 1) * (OpenMP.width L - OpenMP.height L).
Proof.
  intros Hhw Hfit Hc Hn.
  set (H := OpenMP.height L) in *. set (W := OpenMP.width L) in *.
  set (m := Z.to_nat (H * H - H + W)).
  set (P := λ M, OpenMP.height M = H ∧ OpenMP.width M = W
                 ∧ OpenMP.cells M = OpenMP.cells L
                 ∧ length (OpenMP.nextcells M) = length (OpenMP.nextcells L)
                 ∧ drop m (OpenMP.nextcells M) = drop m (OpenMP.nextcells L)).
  assert (∀ y x M, 0 ≤ y < H → 0 ≤ x < W → P M →
            ∃ M', OpenMP.update_cell y x M = Some M' ∧ P M') as Hcell.
  { intros y x M Hy Hx (Hh & Hw & Hcm & Hnm & Hd).
    destruct (omp_update_cell_wide M x y) as [v Hv];
      rewrite ?Hh, ?Hw, ?Hcm, ?Hnm; try done; [lia|].
    rewrite Hh, Hw, Hcm in Hv. eexists. split; [exact Hv|].
    unfold P. simpl. rewrite length_insert.
    repeat (split; [done|]).
    rewrite drop_insert_lt; [done|]. unfold m. nia. }
  unfold OpenMP.update. fold H.
  destruct (for_each_count (λ _ M, P M) OpenMP.update_row H L)
    as (L' & Hrun & (_ & _ & _ & _ & Hd)); [lia|by unfold P| |].
  - intros y M Hy HM. unfold OpenMP.update_row.
    destruct HM as (Hh & Hw & HM). rewrite Hw.
    apply (for_each_count (λ _ M, P M)); [lia|by unfold P|].
    intros x T Hx HT. by apply Hcell.
  - exists L'. split; [done|]. split; [done|].
    rewrite length_drop. unfold m. nia.
Qed.

Lemma omp_wide_board_skips_witness :
  ∃ L', OpenMP.update
          (OpenMP.mkLife 3 5 (OpenMP.cells (OpenMP.new Mt19937.gen 3 5))
             (replicate 15 7)) = Some L'
        ∧ drop 11 (OpenMP.nextcells L') = [7; 7; 7; 7].
Proof.
  destruct (omp_wide_board_skips
              (OpenMP.mkLife 3 5 (OpenMP.cells (OpenMP.new Mt19937.gen 3 5))
                 (replicate 15 7)))
    as (L' & HL & Hd & _); [simpl; lia|simpl; lia|reflexivity|reflexivity|].
  exists L'. split; [exact HL|exact Hd].
Defined.

(** X14. [init_glider] needs a vector of more than [2*width + 2] cells:
    on a smaller one a store falls outside the vector; on a larger one
    both programs end with the same vector, of the same length, dead
    everywhere but at the indices 2, [width], [width + 2],
    [2*width + 1] and [2*width + 2]. *)
Theorem glider_placement (L : OpenMP.Life) (C : Cuda.Life) (j : nat) :
  0 ≤ OpenMP.width L → 2 * OpenMP.width L + 2 < 2 ^ 32 →
  Cuda.width C = OpenMP.width L →
  length (Cuda.cells C) = length (OpenMP.cells L) →
  (Z.of_nat (length (OpenMP.cells L)) ≤ 2 * OpenMP.width L + 2 →
   OpenMP.init_glider L = None ∧ Cuda.init_glider C = None)
  ∧ (2 * OpenMP.width L + 2 < Z.of_nat (length (OpenMP.cells L)) →
     ∃ L' C', OpenMP.init_glider L = Some L'
              ∧ Cuda.init_glider C = Some C'
              ∧ Cuda.cells C' = OpenMP.cells L'
              ∧ length (OpenMP.cells L') = length (OpenMP.cells L)
              ∧ ((j < length (OpenMP.cells L))%nat →
                 OpenMP.cells L' !! j
                 = Some (if bool_decide
                              (Z.of_nat j ∈ [2; OpenMP.width L;
                                             OpenMP.width L + 2;
                                             2 * OpenMP.width L + 1;
                                             2 * OpenMP.width L + 2])
                         then 1 else 0))).
Proof.
  intros Hw Hfit HCw HClen.
  destruct (glider_indices (OpenMP.width L) Hw Hfit) as (E1 & E2 & E3 & E4).
  assert (∀ cs : list Z, length cs = length (OpenMP.cells L) →
            (c1 ← wr (const 0 <$> cs) 2 1;
             c2 ← wr c1 (OpenMP.width L) 1;
             c3 ← wr c2 (OpenMP.width L + 2) 1;
             c4 ← wr c3 (2 * OpenMP.width L + 1) 1;
             wr c4 (2 * OpenMP.width L + 2) 1)
            = if decide (2 * OpenMP.width L + 2
                         < Z.of_nat (length (OpenMP.cells L)))
              then Some (<[Z.to_nat (2 * OpenMP.width L + 2) := 1]>
                     (<[Z.to_nat (2 * OpenMP.width L + 1) := 1]>
                     (<[Z.to_nat (OpenMP.width L + 2) := 1]>
                     (<[Z.to_nat (OpenMP.width L) := 1]>
                     (<[Z.to_nat 2 := 1]> (const 0 <$> cs))))))
              else None) as Hchain.
  { intros cs Hcs. rewrite five_stores by lia.
    by rewrite length_fmap, Hcs. }
  assert (∀ (cs : list Z) (k : list Z → option OpenMP.Life),
            (c1 ← wr (const 0 <$> cs) 2 1;
             c2 ← wr c1 (OpenMP.width L) 1;
             c3 ← wr c2 (OpenMP.width L + 2) 1;
             c4 ← wr c3 (2 * OpenMP.width L + 1) 1;
             c5 ← wr c4 (2 * OpenMP.width L + 2) 1; k c5)
            = (c1 ← wr (const 0 <$> cs) 2 1;
               c2 ← wr c1 (OpenMP.width L) 1;
               c3 ← wr c2 (OpenMP.width L + 2) 1;
               c4 ← wr c3 (2 * OpenMP.width L + 1) 1;
               wr c4 (2 * OpenMP.width L + 2) 1) ≫= k) as Hassoc.
  { intros cs k.
    destruct (wr (const 0 <$> cs) 2 1) as [c1|]; [|done].
    rewrite !bind_Some_l.
    destruct (wr c1 _ 1) as [c2|]; [|done]. rewrite !bind_Some_l.
    destruct (wr c2 _ 1) as [c3|]; [|done]. rewrite !bind_Some_l.
    by destruct (wr c3 _ 1) as [c4|]. }
  assert (∀ (cs : list Z) (k : list Z → option Cuda.Life),
            (c1 ← wr (const 0 <$> cs) 2 1;
             c2 ← wr c1 (OpenMP.width L) 1;
             c3 ← wr c2 (OpenMP.width L + 2) 1;
             c4 ← wr c3 (2 * OpenMP.width L + 1) 1;
             c5 ← wr c4 (2 * OpenMP.width L + 2) 1; k c5)
            = (c1 ← wr (const 0 <$> cs) 2 1;
               c2 ← wr c1 (OpenMP.width L) 1;
               c3 ← wr c2 (OpenMP.width L + 2) 1;
               c4 ← wr c3 (2 * OpenMP.width L + 1) 1;
               wr c4 (2 * OpenMP.width L + 2) 1) ≫= k) as Hassoc'.
  { intros cs k.
    destruct (wr (const 0 <$> cs) 2 1) as [c1|]; [|done].
    rewrite !bind_Some_l.
    destruct (wr c1 _ 1) as [c2|]; [|done]. rewrite !bind_Some_l.
    destruct (wr c2 _ 1) as [c3|]; [|done]. rewrite !bind_Some_l.
    by destruct (wr c3 _ 1) as [c4|]. }
  assert (OpenMP.init_glider L
          = (if decide (2 * OpenMP.width L + 2
                        < Z.of_nat (length (OpenMP.cells L)))
             then Some (<[Z.to_nat (2 * OpenMP.width L + 2) := 1]>
                    (<[Z.to_nat (2 * OpenMP.width L + 1) := 1]>
                    (<[Z.to_nat (OpenMP.width L + 2) := 1]>
                    (<[Z.to_nat (OpenMP.width L) := 1]>
                    (<[Z.to_nat 2 := 1]> (const 0 <$> OpenMP.cells L))))))
             else None)
            ≫= λ c5, Some (OpenMP.mkLife (OpenMP.height L) (OpenMP.width L)
                             c5 (OpenMP.nextcells L))) as HO.
  { unfold OpenMP.init_glider, OpenMP.alive, OpenMP.dead.
    change (uadd 0 2) with 2. rewrite E4, E3, E2, E1.
    by rewrite Hassoc, Hchain. }
  assert (Cuda.init_glider C
          = (if decide (2 * OpenMP.width L + 2
                        < Z.of_nat (length (OpenMP.cells L)))
             then Some (<[Z.to_nat (2 * OpenMP.width L + 2) := 1]>
                    (<[Z.to_nat (2 * OpenMP.width L + 1) := 1]>
                    (<[Z.to_nat (OpenMP.width L + 2) := 1]>
                    (<[Z.to_nat (OpenMP.width L) := 1]>
                    (<[Z.to_nat 2 := 1]> (const 0 <$> Cuda.cells C))))))
             else None)
            ≫= λ c5, Some (Cuda.mkLife (Cuda.height C) (OpenMP.width L) c5
                             (Cuda.nextcells C) (Cuda.cellsDevice C)
                             (Cuda.nextcellsDevice C) (Cuda.device C)
                             (Cuda.events C))) as HC.
  { unfold Cuda.init_glider, Cuda.alive, Cuda.dead. rewrite HCw.
    change (iadd 0 2) with 2. rewrite E4, E3, E2, E1.
    by rewrite Hassoc', Hchain. }
  rewrite HO, HC. split.
  - intros Hsmall. by rewrite !decide_False by lia.
  - intros Hbig. rewrite !decide_True by lia. rewrite !bind_Some_l.
    eexists _, _. split; [done|]. split; [done|].
    cbn [OpenMP.cells Cuda.cells].
    split; [|split].
    + do 5 f_equal. apply list_eq. intros i.
      rewrite !list_lookup_fmap.
      destruct (decide (i < length (OpenMP.cells L))%nat) as [Hi|Hi].
      * destruct (lookup_lt_is_Some_2 (OpenMP.cells L) i Hi) as [a ->].
        destruct (lookup_lt_is_Some_2 (Cuda.cells C) i) as [b ->]; [lia|].
        done.
      * by rewrite !lookup_ge_None_2 by lia.
    + by rewrite !length_insert, length_fmap.
    + intros Hj. by apply glider_lookup.
Qed.

Lemma glider_placement_witness :
  ∃ L', OpenMP.init_glider (OpenMP.new Mt19937.gen 3 3) = Some L'
        ∧ OpenMP.cells L' = [0; 0; 1; 1; 0; 1; 0; 1; 1].
Proof.
  destruct (proj2 (glider_placement (OpenMP.new Mt19937.gen 3 3)
                     (Cuda.mkLife 3 3 (replicate 9 0) [] 0 1 ∅ []) 0
                     ltac:(simpl; lia) ltac:(simpl; lia) eq_refl eq_refl)
              ltac:(simpl; lia))
    as (L' & _ & HL & _).
  exists L'. split; [exact HL|].
  vm_compute in HL. injection HL as <-. reflexivity.
Defined.

(** X15. The kernel computes the next generation under any launch shape.
    With [blocks >= 1] blocks of [threads >= 1] threads, at most [2^30]
    threads in all, on a board of at least one row and one column and at
    most [2^30] cells whose current cells are bits, the launch of
    [cudaRun] fills the next block with one generation of the board and
    changes no other block: fewer threads than cells are made up by the
    stride loop, more threads than cells do nothing. *)
Theorem kernel_any_launch_shape (H W blocks threads : Z) (cur old : list Z)
    (pc pn : Cuda.ptr) (mem : Cuda.memory) :
  1 ≤ H → 1 ≤ W → H * W ≤ 2 ^ 30 →
  1 ≤ blocks → 1 ≤ threads → blocks * threads ≤ 2 ^ 30 →
  Z.of_nat (length cur) = H * W → Forall Spec.bit cur →
  Z.of_nat (length old) = H * W →
  mem !! pc = Some cur → mem !! pn = Some old → pc ≠ pn →
  Cuda.launch blocks threads (H * W) W H pc pn mem
  = Some (<[pn := Spec.step H W cur]> mem).
Proof.
  intros HH HW Hfit HB HT HBT Hcur Hbits Hold Hpc Hpn Hne.
  by apply (cuda_launch_visits H W blocks threads cur old pc pn mem).
Qed.

Lemma kernel_any_launch_shape_witness :
  Cuda.launch 2 2 (2 * 5) 5 2 0%nat 1%nat
    (<[1%nat := [0; 0; 0; 0; 0; 0; 0; 0; 0; 0]]>
       (<[0%nat := [0; 1; 1; 1; 0; 0; 0; 0; 0; 0]]> ∅))
  = Some (<[1%nat := Spec.step 2 5 [0; 1; 1; 1; 0; 0; 0; 0; 0; 0]]>
            (<[1%nat := [0; 0; 0; 0; 0; 0; 0; 0; 0; 0]]>
               (<[0%nat := [0; 1; 1; 1; 0; 0; 0; 0; 0; 0]]> ∅))).
Proof.
  apply (kernel_any_launch_shape 2 5 2 2
           [0; 1; 1; 1; 0; 0; 0; 0; 0; 0] [0; 0; 0; 0; 0; 0; 0; 0; 0; 0]);
    try lia; try reflexivity; try (vm_compute; congruence).
  repeat constructor; unfold Spec.bit; lia.
Defined.

End Programs.

(** * The current buffer and the reachable grids *)

(** ** The OpenMP turn on boards with no more rows than columns *)

Section OpenMPReturns.
Import Spec.

(** The eight reads of the neighbour count are inside [cells] on every
    board whose unsigned product [height*width] does not wrap. *)
Lemma omp_neighbour_indices_inside L x y :
  1 ≤ OpenMP.height L → 1 ≤ OpenMP.width L →
  OpenMP.height L * OpenMP.width L < 2 ^ 32 →
  0 ≤ x < OpenMP.width L → 0 ≤ y < OpenMP.height L →
  Forall (λ i, 0 ≤ i < OpenMP.height L * OpenMP.width L)
         (OpenMP.neighbour_indices L x y).
Proof.
  intros Hh Hw Hfit Hx Hy. unfold OpenMP.neighbour_indices.
  set (W := OpenMP.width L) in *. set (H := OpenMP.height L) in *.
  assert (∀ a, 0 ≤ umod a W < W) as HmW
    by (intros a; unfold umod; apply Z.mod_pos_bound; lia).
  assert (∀ a, 0 ≤ umod a H < H) as HmH
    by (intros a; unfold umod; apply Z.mod_pos_bound; lia).
  assert (∀ cx ry, 0 ≤ cx < W → 0 ≤ ry < H →
            0 ≤ uadd cx (umul ry W) < H * W) as Hin.
  { intros cx ry Hcx Hry. rewrite u_flat by nia. apply flat_inside; lia. }
  repeat (apply Forall_cons_2;
          [apply Hin; first [exact Hx | exact Hy | apply HmW | apply HmH]|]).
  apply Forall_nil_2.
Qed.

Lemma omp_update_cell_returns L x y :
  1 ≤ OpenMP.height L ≤ OpenMP.width L →
  OpenMP.height L * OpenMP.width L < 2 ^ 32 →
  Z.of_nat (length (OpenMP.cells L)) = OpenMP.height L * OpenMP.width L →
  Z.of_nat (length (OpenMP.nextcells L)) = OpenMP.height L * OpenMP.width L →
  0 ≤ x < OpenMP.width L → 0 ≤ y < OpenMP.height L →
  ∃ v, OpenMP.update_cell y x L
       = Some (OpenMP.mkLife (OpenMP.height L) (OpenMP.width L)
                 (OpenMP.cells L)
                 (<[Z.to_nat (y * OpenMP.height L + x) := v]>
                    (OpenMP.nextcells L))).
Proof.
  intros Hhw Hfit Hc Hn Hx Hy. unfold OpenMP.update_cell, OpenMP.neighbours.
  rewrite sum_reads_inside
    by (rewrite Hc; apply omp_neighbour_indices_inside; lia).
  rewrite !bind_Some_l.
  rewrite omp_index_value by nia.
  assert (0 ≤ y * OpenMP.height L + x
          < OpenMP.height L * OpenMP.width L) as Hi by nia.
  match goal with
  | |- context [OpenMP.ruleset ?c ?i ?n] =>
      assert (∃ v, OpenMP.ruleset c i n = Some v) as [v ->]
  end.
  { unfold OpenMP.ruleset. rewrite rd_inside by lia.
    repeat case_match; by eexists. }
  rewrite bind_Some_l, wr_inside by lia. rewrite bind_Some_l. by exists v.
Qed.

(** The shape of an OpenMP board of [H] rows and [W] columns. *)
Lemma omp_update_returns H W L :
  OpenMP.height L = H → OpenMP.width L = W →
  1 ≤ H ≤ W → H * W < 2 ^ 32 →
  Z.of_nat (length (OpenMP.cells L)) = H * W →
  Z.of_nat (length (OpenMP.nextcells L)) = H * W →
  ∃ L', OpenMP.update L = Some L'
        ∧ OpenMP.height L' = H ∧ OpenMP.width L' = W
        ∧ OpenMP.cells L' = OpenMP.cells L
        ∧ Z.of_nat (length (OpenMP.nextcells L')) = H * W.
Proof.
  intros HLh HLw Hhw Hfit Hc Hn.
  set (P := λ M, OpenMP.height M = H ∧ OpenMP.width M = W
                 ∧ OpenMP.cells M = OpenMP.cells L
                 ∧ Z.of_nat (length (OpenMP.nextcells M)) = H * W).
  assert (∀ y x M, 0 ≤ y < H → 0 ≤ x < W → P M →
            ∃ M', OpenMP.update_cell y x M = Some M' ∧ P M') as Hcell.
  { intros y x M Hy Hx (Hh & Hw & Hcm & Hnm).
    destruct (omp_update_cell_returns M x y) as [v Hv];
      rewrite ?Hh, ?Hw, ?Hcm; try done.
    rewrite Hh, Hw, Hcm in Hv. eexists. split; [exact Hv|].
    unfold P. simpl. by rewrite length_insert. }
  unfold OpenMP.update. rewrite HLh.
  destruct (for_each_count (λ _ M, P M) OpenMP.update_row H L)
    as (L' & Hrun & HP); [lia|by unfold P| |].
  - intros y M Hy HM. unfold OpenMP.update_row.
    destruct HM as (Hh & Hw & HM). rewrite Hw.
    apply (for_each_count (λ _ M, P M)); [lia|by unfold P|].
    intros x T Hx HT. by apply Hcell.
  - exists L'. split; [done|]. exact HP.
Qed.

(** Any number of turns returns on such a board. *)
Lemma omp_run_returns H W L t :
  OpenMP.height L = H → OpenMP.width L = W →
  1 ≤ H ≤ W → H * W < 2 ^ 32 →
  Z.of_nat (length (OpenMP.cells L)) = H * W →
  Z.of_nat (length (OpenMP.nextcells L)) = H * W →
  ∃ L', OpenMP.run (Z.of_nat t) L = Some L'
        ∧ OpenMP.height L' = H ∧ OpenMP.width L' = W
        ∧ Z.of_nat (length (OpenMP.cells L')) = H * W.
Proof.
  intros HLh HLw Hhw Hfit. unfold OpenMP.run. rewrite Nat2Z.id.
  revert L HLh HLw. induction t as [|t IH]; intros L HLh HLw Hc Hn.
  - exists L. by split.
  - destruct (omp_update_returns H W L HLh HLw Hhw Hfit Hc Hn)
      as (L1 & Hup & Hh1 & Hw1 & Hc1 & Hn1).
    destruct (IH (OpenMP.swap L1)) as (L' & Hrun & HL');
      [done|done|done|by simpl; rewrite Hc1|].
    exists L'. split; [|exact HL'].
    simpl. unfold OpenMP.turn. rewrite Hup. by rewrite bind_Some_l.
Qed.

(** The loop body run over any iterations of the board, in any order. *)
Lemma update_in_returns H W L order :
  OpenMP.height L = H → OpenMP.width L = W →
  1 ≤ H ≤ W → H * W < 2 ^ 32 →
  Z.of_nat (length (OpenMP.cells L)) = H * W →
  Z.of_nat (length (OpenMP.nextcells L)) = H * W →
  Forall (λ p, 0 ≤ p.1 < H ∧ 0 ≤ p.2 < W) order →
  ∃ L', OpenMP.update_in order L = Some L'
        ∧ OpenMP.height L' = H ∧ OpenMP.width L' = W
        ∧ OpenMP.cells L' = OpenMP.cells L
        ∧ Z.of_nat (length (OpenMP.nextcells L')) = H * W.
Proof.
  intros HLh HLw Hhw Hfit Hc Hn Horder. revert L HLh HLw Hc Hn.
  induction Horder as [|[y x] order [Hy Hx] _ IH]; intros L HLh HLw Hc Hn.
  - exists L. by split.
  - simpl in Hy, Hx. simpl.
    destruct (omp_update_cell_returns L x y) as [v ->];
      rewrite ?HLh, ?HLw; try done.
    destruct (IH (OpenMP.mkLife H W (OpenMP.cells L)
                    (<[Z.to_nat (y * H + x) := v]> (OpenMP.nextcells L))))
      as (L' & Hrun & HL'); simpl; [done|done|done|by rewrite length_insert|].
    exists L'. split; [exact Hrun|exact HL'].
Qed.

Lemma update_in_bits order L L' :
  omp_bits L → OpenMP.update_in order L = Some L' → omp_bits L'.
Proof.
  revert L. induction order as [|[y x] order IH]; intros L HL; simpl.
  - by intros ?; simplify_eq.
  - destruct (OpenMP.update_cell y x L) as [L1|] eqn:H1; [|done].
    apply IH. by eapply omp_update_cell_bits.
Qed.

(** Any number of turns, whatever the order of the iterations in each. *)
Lemma run_in_returns H W L orders :
  OpenMP.height L = H → OpenMP.width L = W →
  1 ≤ H ≤ W → H * W < 2 ^ 32 →
  Z.of_nat (length (OpenMP.cells L)) = H * W →
  Z.of_nat (length (OpenMP.nextcells L)) = H * W →
  Forall (Forall (λ p, 0 ≤ p.1 < H ∧ 0 ≤ p.2 < W)) orders →
  ∃ L', OpenMP.run_in orders L = Some L'
        ∧ OpenMP.height L' = H ∧ OpenMP.width L' = W
        ∧ Z.of_nat (length (OpenMP.cells L')) = H * W
        ∧ (omp_bits L → omp_bits L').
Proof.
  intros HLh HLw Hhw Hfit Hc Hn Horders. revert L HLh HLw Hc Hn.
  induction Horders as [|order orders Horder _ IH]; intros L HLh HLw Hc Hn.
  - exists L. by split.
  - destruct (update_in_returns H W L order HLh HLw Hhw Hfit Hc Hn Horder)
      as (L1 & Hup & Hh1 & Hw1 & Hc1 & Hn1).
    destruct (IH (OpenMP.swap L1)) as (L' & Hrun & Hh' & Hw' & Hc' & Hb');
      [done|done|done|by simpl; rewrite Hc1|].
    exists L'. simpl. rewrite Hup.
    split; [exact Hrun|]. split; [done|]. split; [done|]. split; [done|].
    intros HL. apply Hb'.
    destruct (update_in_bits order L L1 HL Hup) as [Hb1 Hb2]. by split.
Qed.

Lemma update_in_height o L L' :
  OpenMP.update_in o L = Some L' → OpenMP.height L' = OpenMP.height L.
Proof.
  revert L. induction o as [|[y x] o IH]; intros L; simpl.
  - by intros ?; simplify_eq.
  - destruct (OpenMP.update_cell y x L) as [L1|] eqn:H1; [|done].
    intros Hrun. rewrite (IH _ Hrun).
    by apply omp_update_cell_frame in H1 as (? & _).
Qed.

(** The program's run is the run that takes the iterations of every
    turn in program order. *)
Lemma run_program_order L t :
  OpenMP.run (Z.of_nat t) L
  = OpenMP.run_in (replicate t (OpenMP.iterations L)) L.
Proof.
  unfold OpenMP.run. rewrite Nat2Z.id. revert L.
  induction t as [|t IH]; intros L; [done|].
  simpl. unfold OpenMP.turn. rewrite update_is_update_in.
  destruct (OpenMP.update_in (OpenMP.iterations L) L) as [L1|] eqn:Hup;
    [|done].
  rewrite bind_Some_l, IH.
  assert (OpenMP.iterations (OpenMP.swap L1) = OpenMP.iterations L) as ->;
    [|done].
  unfold OpenMP.iterations, OpenMP.swap. simpl.
  by rewrite (update_in_height _ _ _ Hup), (update_in_width _ _ _ Hup).
Qed.

End OpenMPReturns.

(** ** The kernel on a board of [2^31] cells *)

Section LargeBoards.
Import Spec.

(** What the constructor leaves in the two device blocks. *)
Lemma cuda_new_blocks gen uninit h w :
  ∃ C, Cuda.new gen uninit h w = Some C
       ∧ Cuda.height C = h ∧ Cuda.width C = w
       ∧ Cuda.cells C = gen <$> seq 0 (Z.to_nat (umul h w))
       ∧ Cuda.device C !! Cuda.cellsDevice C = Some (Cuda.cells C)
       ∧ Cuda.device C !! Cuda.nextcellsDevice C
         = Some (uninit 1%nat <$> seq 0 (Z.to_nat (umul h w))).
Proof.
  unfold Cuda.new. rewrite cuda_init_random.
  generalize (Z.to_nat (umul h w)). intros n.
  set (cs := gen <$> seq 0 n).
  assert (length cs = n) as Hcs by (unfold cs; by rewrite length_fmap, length_seq).
  rewrite Hcs.
  rewrite lookup_insert_ne, lookup_insert_eq by done.
  rewrite bind_Some_l.
  assert (Cuda.memcpy (uninit 0%nat <$> seq 0 n) cs n = Some cs) as ->.
  { unfold Cuda.memcpy. rewrite length_fmap, length_seq, Hcs.
    rewrite decide_True by lia.
    by rewrite take_ge, drop_ge, app_nil_r
      by (rewrite ?length_fmap, ?length_seq; lia). }
  rewrite bind_Some_l. eexists. split; [reflexivity|].
  cbn [Cuda.height Cuda.width Cuda.cells Cuda.device Cuda.cellsDevice
       Cuda.nextcellsDevice].
  split; [done|]. split; [done|]. split; [done|].
  split; [apply lookup_insert_eq|].
  rewrite lookup_insert_ne by done. apply lookup_insert_eq.
Qed.

(** With [2^31] cells the [int] parameter [n] of the kernel is
    [-2^31]: no thread enters its loop, the next block is left as it
    was, and after the exchange of the pointers the host receives it. *)
Lemma cuda_turn_skips (C : Cuda.Life) (nx : list Z) :
  Z.of_nat (length (Cuda.cells C)) = 2 ^ 31 →
  Cuda.device C !! Cuda.nextcellsDevice C = Some nx →
  length nx = length (Cuda.cells C) →
  ∃ C', Cuda.turn C = Some C' ∧ Cuda.cells C' = nx
        ∧ Cuda.device C' = Cuda.device C.
Proof.
  intros Hlen Hnx Hnxlen. unfold Cuda.turn, Cuda.step, Cuda.blocks.
  rewrite Hlen. unfold Cuda.threads.
  assert (i32 (2 ^ 31) = - 2 ^ 31) as -> by (vm_compute; reflexivity).
  assert (i32 ((2 ^ 31 + 256 - 1) / 256) = 8388608) as ->
    by (vm_compute; reflexivity).
  assert (Cuda.launch 8388608 256 (- 2 ^ 31) (i32 (Cuda.width C))
            (i32 (Cuda.height C)) (Cuda.cellsDevice C)
            (Cuda.nextcellsDevice C) (Cuda.device C)
          = Some (Cuda.device C)) as ->.
  { unfold Cuda.launch. apply for_each_skip. intros b Hb.
    apply elem_of_seqZ in Hb.
    apply for_each_skip. intros t Ht. apply elem_of_seqZ in Ht.
    unfold Cuda.cudaRun.
    assert (i32 (uadd (umul b 256) t) = b * 256 + t) as ->.
    { unfold uadd, umul. rewrite (u32_small (b * 256)) by lia.
      rewrite u32_small by lia. apply i32_small. lia. }
    destruct (Z.to_nat (- 2 ^ 31 - (b * 256 + t))) as [|fuel];
      cbn [Cuda.grid_stride];
      by destruct (Z.ltb_spec (b * 256 + t) (- 2 ^ 31)); [lia|]. }
  rewrite !bind_Some_l. unfold Cuda.copy_back, Cuda.swap.
  cbn [Cuda.height Cuda.width Cuda.cells Cuda.nextcells Cuda.device
       Cuda.cellsDevice Cuda.nextcellsDevice Cuda.events].
  rewrite Hnx. rewrite bind_Some_l.
  rewrite memcpy_all by (symmetry; exact Hnxlen).
  rewrite bind_Some_l. eexists. split; [reflexivity|].
  split; reflexivity.
Qed.

(** Within [2^30] cells every grid of the CUDA program is a grid of 0
    and 1, on the host and on the device, and so is its file. *)
Lemma cuda_run_bits gen uninit H W t :
  (∀ k, bit (gen k)) → 1 ≤ H → 1 ≤ W → H * W ≤ 2 ^ 30 →
  ∃ C Ct, Cuda.new gen uninit H W = Some C
          ∧ Cuda.run (Z.of_nat t) C = Some Ct
          ∧ Forall bit (Cuda.cells Ct)
          ∧ Cuda.device Ct !! Cuda.cellsDevice Ct = Some (Cuda.cells Ct)
          ∧ Cuda.output_file Ct = Some (board_text H W (Cuda.cells Ct))
          ∧ chars_in board_char (board_text H W (Cuda.cells Ct)).
Proof.
  intros Hgen HH HW Hfit.
  destruct (cuda_new_board gen uninit H W Hgen HH HW Hfit)
    as (C & HC & HCb & Hhost & _).
  destruct (cuda_run_board H W _ C t HCb HH HW Hfit)
    as (Ct & Hrun & HCt & Hcells & _).
  assert (Cuda.cells Ct
          = generations H W t (gen <$> seq 0 (Z.to_nat (H * W)))) as Heq
    by (apply Hcells; by left).
  assert (Forall bit (Cuda.cells Ct)) as Hbits.
  { rewrite Heq. apply generations_bits. by apply draws_bits. }
  assert (OpenMP.output_file (OpenMP.mkLife H W (Cuda.cells Ct) [])
          = Some (board_text H W (Cuda.cells Ct))) as Hout.
  { apply (omp_output_file_text (OpenMP.mkLife H W (Cuda.cells Ct) []));
      simpl; [lia|lia|lia| |exact Hbits].
    exact (dv_host H W _ Ct HCt). }
  exists C, Ct. split; [exact HC|]. split; [exact Hrun|].
  split; [exact Hbits|].
  split; [rewrite Heq; apply (dv_cells H W _ Ct HCt)|].
  split.
  - rewrite <- (output_file_same (OpenMP.mkLife H W (Cuda.cells Ct) []) Ct);
      [exact Hout| | |reflexivity].
    + simpl. symmetry. apply (dv_height H W _ Ct HCt).
    + simpl. symmetry. apply (dv_width H W _ Ct HCt).
  - apply (omp_output_file_chars (OpenMP.mkLife H W (Cuda.cells Ct) []));
      [exact Hbits|exact Hout].
Qed.

End LargeBoards.

(** ** The step on a tall board, and the cells of every grid *)

Section Grids.
Import Spec.

(** C6, at the failing input: on the board of 4 rows and 3 columns the
    OpenMP step runs its first three rows with [cells] unchanged; for
    the cell (0,3) it counts 5 neighbours inside [cells], the ruleset
    gives 0, and the index it computes is [3*4 + 0 = 12], the length of
    [nextcells]: the store is outside the vector and the step has no
    defined result, so nothing is kept of the claim that [cells] is
    intact when the step returns. The CUDA step on the same board
    returns with the current device block and the host vector as they
    were. *)
Theorem tall_step_stores_outside :
  let L := OpenMP.new Mt19937.gen 4 3 in
  (∃ L3, for_each OpenMP.update_row (seqZ 0 3) L = Some L3
         ∧ OpenMP.cells L3 = OpenMP.cells L
         ∧ OpenMP.neighbours L3 0 3 = Some 5
         ∧ OpenMP.ruleset (OpenMP.cells L3) (OpenMP.index L3 0 3) 5 = Some 0
         ∧ OpenMP.index L3 0 3 = 12
         ∧ length (OpenMP.nextcells L3) = 12%nat
         ∧ wr (OpenMP.nextcells L3) 12 0 = None
         ∧ OpenMP.update_cell 3 0 L3 = None)
  ∧ OpenMP.update L = None
  ∧ ∃ C C', Cuda.new Mt19937.gen (λ _ _, 7) 4 3 = Some C
            ∧ Cuda.step C = Some C'
            ∧ Cuda.device C' !! Cuda.cellsDevice C'
              = Cuda.device C !! Cuda.cellsDevice C
            ∧ Cuda.device C' !! Cuda.cellsDevice C'
              = Some [1; 0; 1; 1; 0; 1; 1; 0; 1; 0; 0; 1]
            ∧ Cuda.cells C' = Cuda.cells C.
Proof.
  intros L. split; [|split].
  - eexists. split; [vm_compute; reflexivity|].
    repeat split; vm_compute; reflexivity.
  - vm_compute. reflexivity.
  - eexists _, _. split; [vm_compute; reflexivity|].
    split; [vm_compute; reflexivity|].
    repeat split; vm_compute; reflexivity.
Qed.

(** C9 (as amended). On a board of [h ≥ 1] rows and [w ≥ 1] columns,
    filled from draws that are 0 or 1: when [h*w ≤ 2^30] the CUDA
    program builds its object and runs any number [t] of turns, the
    grid it then holds on the host and in its current device block has
    only cells 0 and 1, and its file is the text of that grid, made of
    the characters 0 and 1 and of line ends; when [h*w < 2^32] and
    either [h ≤ w] or no turn is taken, the same holds of the OpenMP
    program and of both its vectors, and with [h ≤ w] it holds in
    whatever order the iterations of each turn are run. *)
Theorem grids_stay_bits (gen : nat → Z) (uninit : nat → nat → Z)
    (h w : Z) (t : nat) :
  (∀ k, bit (gen k)) → 1 ≤ h → 1 ≤ w →
  (h * w ≤ 2 ^ 30 →
   ∃ C Ct, Cuda.new gen uninit h w = Some C
           ∧ Cuda.run (Z.of_nat t) C = Some Ct
           ∧ Forall bit (Cuda.cells Ct)
           ∧ Cuda.device Ct !! Cuda.cellsDevice Ct = Some (Cuda.cells Ct)
           ∧ Cuda.output_file Ct = Some (board_text h w (Cuda.cells Ct))
           ∧ chars_in board_char (board_text h w (Cuda.cells Ct)))
  ∧ (h * w < 2 ^ 32 → h ≤ w ∨ t = 0%nat →
     ∃ Lt, OpenMP.run (Z.of_nat t) (OpenMP.new gen h w) = Some Lt
           ∧ Forall bit (OpenMP.cells Lt)
           ∧ Forall bit (OpenMP.nextcells Lt)
           ∧ OpenMP.output_file Lt = Some (board_text h w (OpenMP.cells Lt))
           ∧ chars_in board_char (board_text h w (OpenMP.cells Lt)))
  ∧ (h * w < 2 ^ 32 → h ≤ w →
     ∀ orders : list (list (Z * Z)),
       Forall (λ o, o ≡ₚ OpenMP.iterations (OpenMP.new gen h w)) orders →
       ∃ Lt, OpenMP.run_in orders (OpenMP.new gen h w) = Some Lt
             ∧ Forall bit (OpenMP.cells Lt)
             ∧ Forall bit (OpenMP.nextcells Lt)
             ∧ OpenMP.output_file Lt
               = Some (board_text h w (OpenMP.cells Lt))
             ∧ chars_in board_char (board_text h w (OpenMP.cells Lt))).
Proof.
  intros Hgen Hh Hw. split; [intros Hfit; by apply cuda_run_bits|].
  assert (h * w < 2 ^ 32 →
          Z.of_nat (length (OpenMP.cells (OpenMP.new gen h w))) = h * w
          ∧ Z.of_nat (length (OpenMP.nextcells (OpenMP.new gen h w))) = h * w)
    as Hnew.
  { intros Hfit.
    assert (umul h w = h * w) as Hu by (apply u32_small; nia).
    unfold OpenMP.new. cbn [OpenMP.cells OpenMP.nextcells].
    rewrite omp_init_random by done.
    rewrite length_fmap, length_seq, length_replicate, Hu. lia. }
  assert (∀ Lt, h * w < 2 ^ 32 →
            OpenMP.height Lt = h → OpenMP.width Lt = w →
            Z.of_nat (length (OpenMP.cells Lt)) = h * w → omp_bits Lt →
            Forall bit (OpenMP.cells Lt) ∧ Forall bit (OpenMP.nextcells Lt)
            ∧ OpenMP.output_file Lt = Some (board_text h w (OpenMP.cells Lt))
            ∧ chars_in board_char (board_text h w (OpenMP.cells Lt)))
    as Hfile.
  { intros Lt Hfit HLh HLw HLc [Hbc Hbn].
    assert (OpenMP.output_file Lt = Some (board_text h w (OpenMP.cells Lt)))
      as Hout.
    { rewrite (omp_output_file_text Lt);
        rewrite ?HLh, ?HLw; (lia || done). }
    split; [exact Hbc|]. split; [exact Hbn|]. split; [exact Hout|].
    by eapply omp_output_file_chars. }
  split.
  - intros Hfit Hcase. destruct (Hnew Hfit) as [Hc Hn].
    assert (∃ Lt, OpenMP.run (Z.of_nat t) (OpenMP.new gen h w) = Some Lt
                  ∧ OpenMP.height Lt = h ∧ OpenMP.width Lt = w
                  ∧ Z.of_nat (length (OpenMP.cells Lt)) = h * w)
      as (Lt & Hrun & HLh & HLw & HLc).
    { destruct Hcase as [Hhw | ->].
      - by apply omp_run_returns.
      - exists (OpenMP.new gen h w). by split. }
    exists Lt. split; [exact Hrun|]. apply Hfile; try done.
    eapply omp_run_bits; [|exact Hrun]. by apply omp_new_bits.
  - intros Hfit Hhw orders Horders. destruct (Hnew Hfit) as [Hc Hn].
    destruct (run_in_returns h w (OpenMP.new gen h w) orders)
      as (Lt & Hrun & HLh & HLw & HLc & Hbits); try done.
    { eapply Forall_impl; [exact Horders|]. intros o Hperm.
      apply Forall_forall. intros [y x] Hin. rewrite Hperm in Hin.
      by apply elem_of_iterations in Hin. }
    exists Lt. split; [exact Hrun|]. apply Hfile; try done.
    apply Hbits. by apply omp_new_bits.
Qed.

Lemma grids_stay_bits_witness :
  (∃ C Ct, Cuda.new Mt19937.gen (λ _ _, 7) 3 5 = Some C
           ∧ Cuda.run 2 C = Some Ct
           ∧ Forall bit (Cuda.cells Ct)
           ∧ Cuda.output_file Ct = Some (board_text 3 5 (Cuda.cells Ct)))
  ∧ (∃ Lt, OpenMP.run 2 (OpenMP.new Mt19937.gen 3 5) = Some Lt
           ∧ Forall bit (OpenMP.cells Lt)
           ∧ OpenMP.output_file Lt
             = Some (board_text 3 5 (OpenMP.cells Lt))).
Proof.
  destruct (grids_stay_bits Mt19937.gen (λ _ _, 7) 3 5 2 mt19937_gen_bit
              ltac:(lia) ltac:(lia)) as (Hcuda & Homp & _).
  destruct Hcuda as (C & Ct & HC & HCt & Hbits & _ & Hout & _); [lia|].
  destruct Homp as (Lt & HLt & Hbits' & _ & Hout' & _); [lia|left; lia|].
  split.
  - exists C, Ct. split; [exact HC|]. split; [exact HCt|].
    split; [exact Hbits|exact Hout].
  - exists Lt. split; [exact HLt|]. split; [exact Hbits'|exact Hout'].
Defined.

(** C9, the claim as stated fails: for 65536 rows and 32768 columns the
    vectors have [2^31] cells, the [int] the kernel receives for that
    size is negative, and no thread stores anything; after one turn the
    host vector holds what the second device block held when it was
    allocated, here 7 in every cell. *)
Lemma large_board_not_bits :
  ∃ C Ct, Cuda.new Mt19937.gen (λ _ _, 7) 65536 32768 = Some C
          ∧ Cuda.run 1 C = Some Ct
          ∧ Cuda.cells Ct !! 0%nat = Some 7
          ∧ ¬ Forall bit (Cuda.cells Ct).
Proof.
  assert (umul 65536 32768 = 2 ^ 31) as Hu by (vm_compute; reflexivity).
  destruct (cuda_new_blocks Mt19937.gen (λ _ _, 7) 65536 32768)
    as (C & HC & _ & _ & Hcells & _ & Hnext).
  set (n := Z.to_nat (umul 65536 32768)) in *.
  assert (Z.of_nat n = 2 ^ 31) as Hn.
  { unfold n. rewrite Z2Nat.id; [exact Hu|]. rewrite Hu. lia. }
  clearbody n.
  destruct (cuda_turn_skips C ((λ _ : nat, 7) <$> seq 0 n))
    as (Ct & Hturn & HCt & _).
  { rewrite Hcells, length_fmap, length_seq. exact Hn. }
  { exact Hnext. }
  { rewrite Hcells, !length_fmap, !length_seq. reflexivity. }
  assert (Cuda.cells Ct !! 0%nat = Some 7) as H0.
  { rewrite HCt, list_lookup_fmap, lookup_seq_lt by lia. reflexivity. }
  exists C, Ct. split; [exact HC|]. split.
  - unfold Cuda.run. change (Z.to_nat 1) with 1%nat. cbn [repeat_n].
    rewrite Hturn. reflexivity.
  - split; [exact H0|]. intros HF. rewrite Forall_lookup in HF.
    destruct (HF 0%nat 7 H0) as [H7 | H7]; discriminate H7.
Qed.

End Grids.
